(** * azure_had: the cluster fail-over daemon, embedded from
    [marketplace-ha/azure_had.py].

    The Python functions are translated one by one.  JSON dictionaries whose
    shape the cloud provider fixes become records (an optional key is an
    [option] field); dictionaries used as maps become [gmap]s; the calls the
    daemon makes to the outside ([azure.arm], the status file, the logger)
    are recorded in a trace, and the answers of [azure.arm] come from an
    oracle that reads the trace so far. *)

From Stdlib Require Import ZArith Ascii String List Bool Lia.
From stdpp Require Import base option list strings gmap.

Local Open Scope Z_scope.

(** ** Python strings

    Strings are sequences of bytes; the ids, names and addresses that the
    daemon compares are ASCII, and the check mark at the head of two log
    records is kept as its UTF-8 bytes. *)

Module PyStr.

(** [str.lower] on ASCII letters; other bytes are left alone. *)
Definition lower_ascii (c : ascii) : ascii :=
  let n := nat_of_ascii c in
  if ((65 <=? n)%nat && (n <=? 90)%nat)%bool then ascii_of_nat (n + 32) else c.

Fixpoint lower (s : string) : string :=
  match s with
  | EmptyString => EmptyString
  | String c s' => String (lower_ascii c) (lower s')
  end.

(** [s.startswith(p)] *)
Definition startswith (s p : string) : bool := String.prefix p s.

(** [p in s] for strings: [p] occurs somewhere in [s]. *)
Fixpoint contains (p s : string) : bool :=
  String.prefix p s ||
  match s with
  | EmptyString => false
  | String _ s' => contains p s'
  end.

(** [s.endswith(suf)] *)
Definition endswith (s suf : string) : bool :=
  let n := String.length s in
  let k := String.length suf in
  ((k <=? n)%nat && String.eqb (String.substring (n - k) k s) suf)%bool.

(** [s[:-1]] *)
Definition drop_last (s : string) : string :=
  String.substring 0 (String.length s - 1) s.

(** [s.split(c)] for a one-character separator. *)
Fixpoint split (c : ascii) (s : string) : list string :=
  match s with
  | EmptyString => [EmptyString]
  | String a s' =>
      if Ascii.eqb a c then EmptyString :: split c s'
      else match split c s' with
           | [] => [String a EmptyString]
           | w :: ws => String a w :: ws
           end
  end.

(** [x in l] for a list of strings. *)
Definition mem (x : string) (l : list string) : bool :=
  existsb (String.eqb x) l.

(** [l.index(x)]: position of the first occurrence. *)
Fixpoint index (x : string) (l : list string) : option nat :=
  match l with
  | [] => None
  | y :: l' => if String.eqb y x then Some 0%nat else S <$> index x l'
  end.

End PyStr.

(** ** JSON values that the daemon only inspects for truthiness or copies *)

#[local] Unset Elimination Schemes.
Inductive jval : Type :=
| JNull
| JBool (b : bool)
| JNum (n : Z)
| JStr (s : string)
| JArr (l : list jval)
| JObj (o : list (string * jval)).
#[local] Set Elimination Schemes.

(** Python truth value of a decoded JSON value. *)
Definition truthy (v : jval) : bool :=
  match v with
  | JNull => false
  | JBool b => b
  | JNum n => negb (n =? 0)
  | JStr s => negb (String.eqb s "")
  | JArr l => negb (length l =? 0)%nat
  | JObj o => negb (length o =? 0)%nat
  end.

(** [d.get(k)] on a decoded JSON object ([None] both for a missing key and,
    as in Python, when the stored value is [null]). *)
Fixpoint assoc_get (k : string) (o : list (string * jval)) : option jval :=
  match o with
  | [] => None
  | (k', v) :: o' => if String.eqb k' k then Some v else assoc_get k o'
  end.

(** ** API versions *)

(** [ARM_VERSIONS]: the two ordered mappings handed to the cloud client. *)
Definition ARM_VERSIONS_ha : list (string * string) :=
  [ ("network/", "2024-05-01");
    ("resources/", "2021-04-01");
    ("compute/", "2019-07-01") ]%string.

Definition ARM_VERSIONS_stack : list (string * string) :=
  [ ("compute/", "2019-07-01");
    ("network/", "2024-05-01");
    ("network/virtualnetworks", "2024-05-01");
    ("resources/", "2021-04-01") ]%string.

(** The mapping [set_api_versions] installs for a template name. *)
Definition active_profile (templateName : string) : list (string * string) :=
  if String.eqb templateName "stack-ha" then ARM_VERSIONS_stack
  else ARM_VERSIONS_ha.

(** [get_api_version(resource_id)] *)
Definition get_api_version (resource_id : string) : string :=
  if PyStr.contains "Microsoft.Network/" resource_id then
    "?api-version=2024-05-01"
  else if PyStr.contains "Microsoft.Compute/" resource_id then
    "?api-version=2019-07-01"
  else
    "?api-version=2021-04-01".

(** The resolver as the specification words it: the value of the longest key
    of the mapping that is a prefix of the resource's type path, and the
    generic resources version when no key is one. *)
Fixpoint longest_prefix_match (mapping : list (string * string))
    (path : string) (best : option (string * string)) : option (string * string) :=
  match mapping with
  | [] => best
  | (k, v) :: rest =>
      let best' :=
        if String.prefix k path then
          match best with
          | Some (kb, _) =>
              if (String.length kb <? String.length k)%nat then Some (k, v) else best
          | None => Some (k, v)
          end
        else best in
      longest_prefix_match rest path best'
  end.

(** The type path of a resource id: what follows its provider namespace
    ([.../providers/microsoft.], compared in lower case); empty for an id
    that names no provider. *)
Fixpoint after_marker (marker s : string) : option string :=
  if String.prefix marker s then
    Some (String.substring (String.length marker)
            (String.length s - String.length marker) s)
  else
    match s with
    | EmptyString => None
    | String _ s' => after_marker marker s'
    end.

Definition resource_type_path (resource_id : string) : string :=
  default ""%string
    (after_marker "/providers/microsoft." (PyStr.lower resource_id)).

(** The version a mapping gives for one of its keys. *)
Fixpoint profile_version (key : string) (mapping : list (string * string)) : option string :=
  match mapping with
  | [] => None
  | (k, v) :: rest => if String.eqb k key then Some v else profile_version key rest
  end.

Definition generic_api_version : string := "2021-04-01".

Definition spec_api_version (templateName resource_id : string) : string :=
  match longest_prefix_match (active_profile templateName)
          (resource_type_path resource_id) None with
  | Some (_, v) => v
  | None => generic_api_version
  end.


(** ** Cloud objects *)

(** One element of a NIC's [properties.ipConfigurations].  Only [name] is
    read unconditionally; every other key is optional.  A
    [publicIPAddress] is the object [{"id": ...}], kept by its id. *)
Record ipconf := {
  ipc_name : string;
  ipc_privateIPAddress : option string;
  ipc_privateIPAllocationMethod : option string;
  ipc_subnet_id : option string;
  ipc_primary : option bool;
  ipc_privateIPAddressVersion : option string;
  ipc_applicationSecurityGroups : option jval;
  ipc_publicIPAddress : option string;
  ipc_loadBalancerInboundNatRules : option (list string)
}.

(** One element of a route table's [properties.routes]. *)
Record route := {
  rt_name : string;
  rt_nextHopType : string;
  rt_nextHopIpAddress : option string;
  rt_addressPrefix : option string
}.

(** An ARM resource as the daemon reads and writes it: a NIC carries
    [ipConfigurations], a route table carries [routes]; both carry
    [properties.provisioningState] and may carry the edge-zone markers. *)
Record resource := {
  r_id : string;
  r_name : string;
  r_extendedLocation : option jval;
  r_provisioningState : string;
  r_vnetExtendedLocation : option jval;
  r_ipConfigurations : list ipconf;
  r_routes : option (list route)
}.

Definition with_extendedLocation (v : jval) (r : resource) : resource :=
  {| r_id := r_id r; r_name := r_name r;
     r_extendedLocation := Some v;
     r_provisioningState := r_provisioningState r;
     r_vnetExtendedLocation := r_vnetExtendedLocation r;
     r_ipConfigurations := r_ipConfigurations r;
     r_routes := r_routes r |}.

Definition with_ipConfigurations (l : list ipconf) (r : resource) : resource :=
  {| r_id := r_id r; r_name := r_name r;
     r_extendedLocation := r_extendedLocation r;
     r_provisioningState := r_provisioningState r;
     r_vnetExtendedLocation := r_vnetExtendedLocation r;
     r_ipConfigurations := l;
     r_routes := r_routes r |}.

Definition with_routes (l : list route) (r : resource) : resource :=
  {| r_id := r_id r; r_name := r_name r;
     r_extendedLocation := r_extendedLocation r;
     r_provisioningState := r_provisioningState r;
     r_vnetExtendedLocation := r_vnetExtendedLocation r;
     r_ipConfigurations := r_ipConfigurations r;
     r_routes := Some l |}.

(** A virtual machine: the entries of [networkProfile.networkInterfaces],
    each an id with an optional [primary] flag. *)
Record vm := { vm_networkInterfaces : list (string * option bool) }.

(** A load balancer: [(id, name)] of each of its [inboundNatRules]. *)
Record lb := { lb_inboundNatRules : list (string * string) }.

(** What [azure.arm] returns as [result[1]]. *)
Inductive arm_data : Type :=
| DResource (r : resource)
| DVm (v : vm)
| DLb (l : lb)
| DJson (j : jval).

(** What [azure.arm] returns as [result[0]]: a dictionary (with or without
    a [code]), something falsy, or another value; codes and values are kept
    by their [str()]. *)
Inductive headers : Type :=
| HdrDict (code : option string)
| HdrFalsy
| HdrValue (s : string).

(** [str(response_code)] as the two PUT paths compute it. *)
Definition response_code (h : headers) : string :=
  match h with
  | HdrDict (Some c) => c
  | HdrDict None => "None"
  | HdrFalsy => "None"
  | HdrValue s => s
  end.

(** Python's [str()] of the objects that [safe_arm_put] formats into its
    log records: a decoded JSON value, and the tuple that [azure.arm]
    returns.  The text depends on keys of the objects that the records above
    leave out, so the two functions are parameters. *)
Class PyFormat := {
  str_json : jval -> string;
  str_result : headers * arm_data -> string
}.

(** ** Effects *)

Inductive exn : Type :=
| RequestException (code : Z) (msg : string)
| StopIteration
| PyError (kind : string).

Inductive method := GET | PUT.
Inductive level := DEBUG | INFO | WARNING | ERROR.
Inductive cluster_status := NOT_STARTED | IN_PROGRESS | DONE.

(** The trace: calls of [azure.arm], of [update_cluster_status_file], the
    log records of [safe_arm_put], and each call of [safe_arm_put] with its
    arguments (so that a write is known by its description). *)
Inductive event : Type :=
| EArm (m : method) (url : string) (body : option resource)
| ESafePut (resource_id : string) (body : resource) (description : string)
| ELog (l : level) (msg : string)
| EStatus (s : cluster_status).

Inductive arm_outcome : Type :=
| ArmReturn (h : headers) (d : arm_data)
| ArmRaise (e : exn).

Inductive result (A : Type) : Type :=
| Ok (a : A)
| Raise (e : exn).
Arguments Ok {A} a.
Arguments Raise {A} e.

(** A computation reads the state [S] of the objects it mutates in place
    and the trace so far, and yields the new state, the events it emits and
    a value or an exception. *)
Definition M (S A : Type) : Type := S -> list event -> S * list event * result A.

Definition ret {S A} (a : A) : M S A := fun s _ => (s, [], Ok a).

Definition bind {S A B} (m : M S A) (f : A -> M S B) : M S B :=
  fun s h =>
    match m s h with
    | (s1, e1, Ok a) =>
        match f a s1 (h ++ e1) with
        | (s2, e2, r) => (s2, e1 ++ e2, r)
        end
    | (s1, e1, Raise e) => (s1, e1, Raise e)
    end.

Definition raise {S A} (e : exn) : M S A := fun s _ => (s, [], Raise e).

Definition emit {S} (ev : event) : M S unit := fun s _ => (s, [ev], Ok tt).

(** [try: m  except: handler] *)
Definition try_catch {S A} (m : M S A) (handler : exn -> M S A) : M S A :=
  fun s h =>
    match m s h with
    | (s1, e1, Ok a) => (s1, e1, Ok a)
    | (s1, e1, Raise e) =>
        match handler e s1 (h ++ e1) with
        | (s2, e2, r) => (s2, e1 ++ e2, r)
        end
    end.

Definition get_state {S} : M S S := fun s _ => (s, [], Ok s).
Definition put_state {S} (s' : S) : M S unit := fun _ _ => (s', [], Ok tt).

Declare Scope py_scope.
Delimit Scope py_scope with py.
Notation "x <- c1 ;; c2" := (bind c1 (fun x => c2))
  (at level 100, c1 at next level, right associativity) : py_scope.
Notation "c1 ;; c2" := (bind c1 (fun _ => c2))
  (at level 100, right associativity) : py_scope.
Local Open Scope py_scope.

Definition log {S} (l : level) (msg : string) : M S unit := emit (ELog l msg).

Section Cloud.

Context {fmt : PyFormat}.

(** The cloud client: its answer may depend on everything done so far. *)
Variable arm : list event -> method -> string -> option resource -> arm_outcome.

(** [azure.arm(method, url, body)] *)
Definition azure_arm {S} (m : method) (url : string) (body : option resource)
  : M S (headers * arm_data) :=
  fun s h =>
    match arm h m url body with
    | ArmReturn hd d => (s, [EArm m url body], Ok (hd, d))
    | ArmRaise e => (s, [EArm m url body], Raise e)
    end.

(** [e.code == 409 and 'InvalidExtendedLocation' in str(e)], for an
    exception the [except rest.RequestException] clauses catch. *)
Definition is_invalid_extended_location (code : Z) (msg : string) : bool :=
  (code =? 409) && PyStr.contains "InvalidExtendedLocation" msg.

(** [vnet_ext_loc.get(k)]: only a dictionary has [get]. *)
Definition jget {S} (k : string) (v : jval) : M S jval :=
  match v with
  | JObj o => ret (default JNull (assoc_get k o))
  | _ => raise (PyError "AttributeError")
  end.

(** Lines 117-131: the edge-zone context of the body. *)
Definition extended_zone_context {S} (body_obj : resource) (description : string)
  : M S (option jval) :=
  let from_vnet : M S (option jval) :=
    match r_vnetExtendedLocation body_obj with
    | Some v =>
        if truthy v then
          n <- jget "name" v ;;
          t <- jget "type" v ;;
          let ctx := JObj [("name"%string, n); ("type"%string, t)] in
          log INFO ("Extended Zone detected via vnetExtendedLocation for " +:+ description
                    +:+ ": " +:+ str_json ctx) ;;
          ret (Some ctx)
        else ret None
    | None => ret None
    end in
  match r_extendedLocation body_obj with
  | Some v =>
      if truthy v then
        log INFO ("Extended Zone detected for " +:+ description +:+ ": " +:+ str_json v) ;;
        ret (Some v)
      else from_vnet
  | None => from_vnet
  end.

(** Lines 135-169: the first attempt, made when a context was found.  It
    yields [Some data] when it returns from [safe_arm_put], and [None] when
    control falls through to the standard PUT. *)
Definition enhanced_attempt {S} (resource_id : string) (body_obj : resource)
    (description : string) (ctx : jval) : M S (option arm_data) :=
  try_catch
    (log INFO ("Attempting Enhanced Extended Zone ARM PUT for " +:+ description) ;;
     log DEBUG ("Extended Zone context: " +:+ str_json ctx) ;;
     let body_enhanced :=
       match r_extendedLocation body_obj with
       | None => with_extendedLocation ctx body_obj
       | Some _ => body_obj
       end in
     let api_version := get_api_version resource_id in
     res <- azure_arm PUT (resource_id +:+ api_version) (Some body_enhanced) ;;
     if String.eqb (response_code (fst res)) "200" then
       log INFO ("✅ Extended Zone ARM PUT succeeded for " +:+ description) ;;
       ret (Some (snd res))
     else
       log WARNING ("Extended Zone ARM PUT failed for " +:+ description
                    +:+ " - HTTP " +:+ response_code (fst res)) ;;
       ret None)
    (fun e =>
       match e with
       | RequestException code msg =>
           if is_invalid_extended_location code msg then
             log WARNING ("Extended Zone ARM PUT failed for " +:+ description
                          +:+ ": " +:+ msg) ;;
             ret None
           else raise e
       | _ => raise e
       end).

(** Lines 117-169: everything before the standard PUT.  [Some data] is the
    value the first attempt returns from [safe_arm_put]; [None] means that
    control reaches the standard PUT. *)
Definition first_attempt {S} (resource_id : string) (body_obj : resource)
    (description : string) : M S (option arm_data) :=
  ctx <- extended_zone_context body_obj description ;;
  match ctx with
  | Some c => enhanced_attempt resource_id body_obj description c
  | None => ret None
  end.

(** Lines 171-183: the standard PUT. *)
Definition standard_put {S} (resource_id : string) (body_obj : resource)
    (description : string) : M S (option arm_data) :=
  let api_version := get_api_version resource_id in
  res <- azure_arm PUT (resource_id +:+ api_version) (Some body_obj) ;;
  if negb (String.eqb (response_code (fst res)) "200") then
    log ERROR ("Failed " +:+ description +:+ " - HTTP "
               +:+ response_code (fst res) +:+ ": " +:+ str_result res) ;;
    ret None
  else
    log INFO ("✅ " +:+ description +:+ " succeeded") ;;
    ret (Some (snd res)).

(** Lines 185-202: the outer handler. *)
Definition put_handler {S} (body_obj : resource) (description : string) (e : exn)
  : M S (option arm_data) :=
  match e with
  | RequestException code msg =>
      if is_invalid_extended_location code msg then
        log WARNING ("Extended Zone conflict detected for " +:+ description
                     +:+ ": " +:+ msg) ;;
        log INFO "Extended Zone limitation - VIP operation cannot be performed via standard ARM API" ;;
        log INFO "This is a known Azure Extended Zone limitation affecting HA failover operations" ;;
        log INFO "Consider using Azure Support case to resolve Extended Zone ARM API compatibility" ;;
        log WARNING "Returning modified object to continue HA daemon operation" ;;
        log WARNING "Actual VIP failover may require manual intervention or Azure Support assistance" ;;
        ret (Some (DResource body_obj))
      else
        log ERROR ("Error in " +:+ description +:+ ": " +:+ msg) ;;
        raise e
  | _ => raise e
  end.

(** [safe_arm_put(resource_id, body_obj, description)]; the value returned
    is [None] or a dictionary. *)
Definition safe_arm_put {S} (resource_id : string) (body_obj : resource)
    (description : string) : M S (option arm_data) :=
  emit (ESafePut resource_id body_obj description) ;;
  try_catch
    (early <- first_attempt resource_id body_obj description ;;
     match early with
     | Some d => ret (Some d)
     | None => standard_put resource_id body_obj description
     end)
    (put_handler body_obj description).

(** [is_resource_ready(r)] *)
Definition is_resource_ready {S} (r : resource) : M S bool :=
  let state := r_provisioningState r in
  if String.eqb state "Succeeded" then ret true
  else
    (if String.eqb state "Failed" then
       _ <- safe_arm_put (r_id r) r "resource reset" ;; ret tt
     else ret tt) ;;
    ret false.

End Cloud.

(** ** Configuration *)

(** One VIP record of [clusterNetworkInterfaces]; its keys are the
    constants [NAME], [PRIVATE_IP_ADDR] and [PUBLIC_IP_OBJ]. *)
Record vip := {
  vip_name : string;
  vip_privateIpAddr : string;
  vip_publicIpObj : option string
}.

(** The entries of [conf] the reconcilers read.  The interface map keeps
    its insertion order. *)
Record config := {
  hostname : string;
  peername : string;
  baseId : string;
  interfaceSwitchMode : option string;
  clusterNetworkInterfaces : list (string * list vip);
  lbName : option string;
  clusterName : string;
  addresses_me : list string;
  addresses_peer : list string
}.

(** ** The VIP reconciler *)

(** [get_cluster_ip_index(nic, name)], counting from [i]. *)
Fixpoint cluster_ip_index_from (i : Z) (ipcs : list ipconf) (name : string) : Z :=
  match ipcs with
  | [] => -1
  | ipc :: rest =>
      if String.eqb (PyStr.lower (ipc_name ipc)) (PyStr.lower name) then i
      else cluster_ip_index_from (i + 1) rest name
  end.

Definition get_cluster_ip_index (nic : resource) (name : string) : Z :=
  cluster_ip_index_from 0 (r_ipConfigurations nic) name.

(** [remove_attached_vips(vip_names, peer_nic, cni)]: the loop, carrying
    the NIC it mutates, [flag_put] and [peer_index]. *)
Fixpoint remove_attached_vips_from (vip_names : list string) (peer_nic : resource)
    (flag_put : bool) (peer_index : Z) : resource * bool * Z :=
  match vip_names with
  | [] => (peer_nic, flag_put, peer_index)
  | name :: rest =>
      let peer_index := get_cluster_ip_index peer_nic name in
      if 0 <=? peer_index then
        remove_attached_vips_from rest
          (with_ipConfigurations
             (delete (Z.to_nat peer_index) (r_ipConfigurations peer_nic)) peer_nic)
          true peer_index
      else remove_attached_vips_from rest peer_nic flag_put peer_index
  end.

Definition remove_attached_vips (vip_names : list string) (peer_nic : resource)
  : resource * bool * Z :=
  remove_attached_vips_from vip_names peer_nic false (-1).

(** The NIC objects listed by [get_vm_nics] live in a store; [my_nics] and
    [peer_nics] hold references into it, and [pop] and [append] change the
    stored object. *)
Definition heap := list resource.

Definition deref (ref : nat) : M heap resource :=
  fun s _ =>
    match s !! ref with
    | Some r => (s, [], Ok r)
    | None => (s, [], Raise (PyError "KeyError"))
    end.

Definition store (ref : nat) (r : resource) : M heap unit :=
  fun s _ => (<[ref := r]> s, [], Ok tt).

(** [get_nic_by_suffix(nics, suffix)] *)
Fixpoint find_nic_by_suffix (s : heap) (nics : list nat) (suffix : string) : option nat :=
  match nics with
  | [] => None
  | ref :: rest =>
      match s !! ref with
      | Some nic =>
          if PyStr.endswith (r_name nic) suffix then Some ref
          else find_nic_by_suffix s rest suffix
      | None => find_nic_by_suffix s rest suffix
      end
  end.

Definition get_nic_by_suffix (nics : list nat) (suffix : string) : M heap nat :=
  fun s _ =>
    match find_nic_by_suffix s nics suffix with
    | Some ref => (s, [], Ok ref)
    | None => (s, [], Raise (PyError "Exception"))
    end.

(** The ipConfiguration appended for a missing VIP (lines 746-776). *)
Definition new_ipconf (v : vip) (subnet_id : string) (app_security_groups : option jval)
    (pub_resource_id : string) : ipconf :=
  {| ipc_name := vip_name v;
     ipc_privateIPAddress := Some (vip_privateIpAddr v);
     ipc_privateIPAllocationMethod := Some "Static"%string;
     ipc_subnet_id := Some subnet_id;
     ipc_primary := Some false;
     ipc_privateIPAddressVersion := Some "IPv4"%string;
     ipc_applicationSecurityGroups := Some (default JNull app_security_groups);
     ipc_publicIPAddress :=
       if negb (String.eqb pub_resource_id "") then Some pub_resource_id else None;
     ipc_loadBalancerInboundNatRules := None |}.

(** Lines 732-742: the id of the public address attached to a VIP. *)
Definition pub_resource_id_of (conf : config) (v : vip) : string :=
  match vip_publicIpObj v with
  | Some o =>
      if negb (String.eqb o "") then
        if PyStr.contains "/" o then o
        else baseId conf +:+ "Microsoft.Network/publicIPAddresses/" +:+ o
      else ""
  | None => ""
  end.

Section Reconcilers.

Context {fmt : PyFormat}.

Variable arm : list event -> method -> string -> option resource -> arm_outcome.
Variable conf : config.

(** Lines 731-784: the loop over [enumerate(vips)], from position [index];
    [n_vips] is [len(vips)]. *)
Fixpoint self_addition (cni : string) (my_ref : nat) (subnet_id : string)
    (app_security_groups : option jval) (n_vips : nat) (index : nat)
    (vips : list vip) : M heap unit :=
  match vips with
  | [] => ret tt
  | v :: rest =>
      my_nic <- deref my_ref ;;
      let my_index := get_cluster_ip_index my_nic (vip_name v) in
      if my_index <? 0 then
        let my_nic' :=
          with_ipConfigurations
            (r_ipConfigurations my_nic ++
               [new_ipconf v subnet_id app_security_groups (pub_resource_id_of conf v)])
            my_nic in
        store my_ref my_nic' ;;
        if Z.of_nat index =? Z.of_nat n_vips - 1 then
          _ <- safe_arm_put arm (r_id my_nic') my_nic' ("my " +:+ cni +:+ " VIP addition") ;;
          raise StopIteration
        else self_addition cni my_ref subnet_id app_security_groups n_vips (S index) rest
      else self_addition cni my_ref subnet_id app_security_groups n_vips (S index) rest
  end.

(** Lines 694-784: the body of the loop over the interfaces. *)
Definition process_interface (my_nics peer_nics : list nat)
    (cni : string) (vips : list vip) : M heap unit :=
  let vip_names := map vip_name vips in
  peer_ref <- get_nic_by_suffix peer_nics cni ;;
  peer_nic <- deref peer_ref ;;
  ready <- is_resource_ready arm peer_nic ;;
  if negb ready then raise StopIteration
  else
    _ <- get_nic_by_suffix my_nics cni ;;
    match remove_attached_vips vip_names peer_nic with
    | (peer_nic', flag_put, peer_index) =>
        store peer_ref peer_nic' ;;
        if flag_put then
          emit (EStatus IN_PROGRESS) ;;
          _ <- safe_arm_put arm (r_id peer_nic') peer_nic'
                 ("peer " +:+ cni +:+ " VIP removal") ;;
          raise StopIteration
        else
          my_ref <- get_nic_by_suffix my_nics cni ;;
          my_nic <- deref my_ref ;;
          ready <- is_resource_ready arm my_nic ;;
          if negb ready then raise StopIteration
          else
            match r_ipConfigurations my_nic with
            | [] => raise (PyError "IndexError")
            | ipc0 :: _ =>
                match ipc_subnet_id ipc0 with
                | None => raise (PyError "KeyError")
                | Some subnet_id =>
                    self_addition cni my_ref subnet_id
                      (ipc_applicationSecurityGroups ipc0)
                      (length vips) 0 vips
                end
            end
    end.

(** Lines 691-791: the loop over [conf['clusterNetworkInterfaces'].items()],
    with [done] so far; [StopIteration] ends the whole loop in serial mode
    and the current interface otherwise. *)
Fixpoint cluster_ips_loop (my_nics peer_nics : list nat)
    (items : list (string * list vip)) (done : nat) : M heap nat :=
  match items with
  | [] => ret done
  | (cni, vips) :: rest =>
      completed <-
        try_catch
          (process_interface my_nics peer_nics cni vips ;; ret true)
          (fun e => match e with
                    | StopIteration => ret false
                    | _ => raise e
                    end) ;;
      if (completed : bool) then cluster_ips_loop my_nics peer_nics rest (S done)
      else if bool_decide (interfaceSwitchMode conf = Some "serial"%string)
           then ret done
           else cluster_ips_loop my_nics peer_nics rest done
  end.

(** [set_cluster_ips()], from the NIC lists that [get_vm_nics] returned;
    the value is whether work remains. *)
Definition set_cluster_ips (my_nics peer_nics : list nat) : M heap bool :=
  done <- cluster_ips_loop my_nics peer_nics (clusterNetworkInterfaces conf) 0 ;;
  ret (negb (done =? length (clusterNetworkInterfaces conf))%nat).

End Reconcilers.

(** ** The route-table reconciler *)

(** Line 855-857: [len(cidr) == 2 and cidr[0] in peer and cidr[1] == '32'] for
    [cidr] the address prefix split at ['/']. *)
Definition is_peer_host_prefix (peer : list string) (r : route) : bool :=
  match PyStr.split "/" (default ""%string (rt_addressPrefix r)) with
  | [c0; c1] => PyStr.mem c0 peer && String.eqb c1 "32"
  | _ => false
  end.

Definition with_nextHopIpAddress (a : string) (r : route) : route :=
  {| rt_name := rt_name r;
     rt_nextHopType := rt_nextHopType r;
     rt_nextHopIpAddress := Some a;
     rt_addressPrefix := rt_addressPrefix r |}.

(** Lines 850-866: one route of the inner loop.  The value is the route as
    the loop leaves it and whether it set [dirty]. *)
Definition rewrite_route (me peer : list string) (r : route) : result (route * bool) :=
  if negb (String.eqb (rt_nextHopType r) "VirtualAppliance") then Ok (r, false)
  else
    match rt_nextHopIpAddress r with
    | None => Ok (r, false)
    | Some next_hop =>
        if negb (PyStr.mem next_hop peer) then Ok (r, false)
        else if is_peer_host_prefix peer r then Ok (r, false)
        else
          match PyStr.index next_hop peer with
          | None => Raise (PyError "ValueError")
          | Some i =>
              match me !! i with
              | None => Raise (PyError "IndexError")
              | Some my_addr => Ok (with_nextHopIpAddress my_addr r, true)
              end
          end
    end.

(** Lines 848-866: the loop over the routes, with [dirty] so far. *)
Fixpoint rewrite_routes (me peer : list string) (routes : list route) (dirty : bool)
  : result (list route * bool) :=
  match routes with
  | [] => Ok ([], dirty)
  | r :: rest =>
      match rewrite_route me peer r with
      | Raise e => Raise e
      | Ok (r', d) =>
          match rewrite_routes me peer rest (dirty || d) with
          | Raise e => Raise e
          | Ok (rest', dirty') => Ok (r' :: rest', dirty')
          end
      end
  end.

Definition lift_result {S A} (r : result A) : M S A :=
  match r with
  | Ok a => ret a
  | Raise e => raise e
  end.

Definition as_resource {S} (d : arm_data) : M S resource :=
  match d with
  | DResource r => ret r
  | _ => raise (PyError "KeyError")
  end.

Section Routes.

Context {fmt : PyFormat}.

Variable arm : list event -> method -> string -> option resource -> arm_outcome.
Variable conf : config.

(** Lines 840-879: the body of the loop over the route-table ids; the value
    is whether the table sets [todo]. *)
Definition process_route_table (rid : string) : M unit bool :=
  try_catch
    (res <- azure_arm arm GET (rid +:+ get_api_version rid) None ;;
     route_table <- as_resource (snd res) ;;
     ready <- is_resource_ready arm route_table ;;
     if negb ready then ret true
     else
       rw <- lift_result
               (rewrite_routes (addresses_me conf) (addresses_peer conf)
                  (default [] (r_routes route_table)) false) ;;
       (if snd rw then
          let route_table' :=
            match r_routes route_table with
            | Some _ => with_routes (fst rw) route_table
            | None => route_table
            end in
          _ <- safe_arm_put arm rid route_table' "route table update" ;; ret tt
        else ret tt) ;;
       ret false)
    (fun e =>
       match e with
       | RequestException code _ =>
           if (code =? 401) || (code =? 403) then ret false else raise e
       | _ => raise e
       end).

(** [set_routing_tables()], from the ids that [get_route_table_ids]
    returned, in the order the set yields them. *)
Fixpoint set_routing_tables (route_table_ids : list string) (todo : bool) : M unit bool :=
  match route_table_ids with
  | [] => ret todo
  | rid :: rest =>
      t <- process_route_table rid ;;
      set_routing_tables rest (todo || t)
  end.

End Routes.

(** ** The public-address reconciler *)

(** Truth value of what a GET returned. *)
Definition data_truthy (d : arm_data) : bool :=
  match d with
  | DJson j => truthy j
  | _ => true
  end.

(** [set(id.lower() for id in ids)] *)
Definition lower_set (ids : list string) : gset string :=
  list_to_set (map PyStr.lower ids).

(** [r['id'].split('/')[-1]] *)
Definition last_segment (id : string) : string :=
  List.last (PyStr.split "/" id) ""%string.

(** What [set_public_address] has read when it reaches its decision. *)
Record observed := {
  non_cp_nat_rules : gset string;
  my_nic : resource;
  my_ip_conf : ipconf;
  peer_nic : resource;
  peer_ip_conf : ipconf;
  public_ip : option arm_data
}.

Definition my_nat_rules (o : observed) : gset string :=
  lower_set (default [] (ipc_loadBalancerInboundNatRules (my_ip_conf o))).

Definition peer_nat_rules (o : observed) : gset string :=
  lower_set (default [] (ipc_loadBalancerInboundNatRules (peer_ip_conf o))).

(** [not public_ip] *)
Definition public_ip_absent (o : observed) : bool :=
  match public_ip o with
  | Some d => negb (data_truthy d)
  | None => true
  end.

(** The guard of lines 521-522. *)
Definition already_set (o : observed) : bool :=
  (public_ip_absent o || bool_decide (is_Some (ipc_publicIPAddress (my_ip_conf o))))
  && bool_decide (non_cp_nat_rules o ⊆ my_nat_rules o).

(** The guard of lines 526-527. *)
Definition peer_holds (o : observed) : bool :=
  bool_decide (is_Some (ipc_publicIPAddress (peer_ip_conf o)))
  || negb (bool_decide (non_cp_nat_rules o ∩ peer_nat_rules o = ∅)).

Definition with_publicIPAddress (p : option string) (c : ipconf) : ipconf :=
  {| ipc_name := ipc_name c;
     ipc_privateIPAddress := ipc_privateIPAddress c;
     ipc_privateIPAllocationMethod := ipc_privateIPAllocationMethod c;
     ipc_subnet_id := ipc_subnet_id c;
     ipc_primary := ipc_primary c;
     ipc_privateIPAddressVersion := ipc_privateIPAddressVersion c;
     ipc_applicationSecurityGroups := ipc_applicationSecurityGroups c;
     ipc_publicIPAddress := p;
     ipc_loadBalancerInboundNatRules := ipc_loadBalancerInboundNatRules c |}.

Definition with_natRules (l : list string) (c : ipconf) : ipconf :=
  {| ipc_name := ipc_name c;
     ipc_privateIPAddress := ipc_privateIPAddress c;
     ipc_privateIPAllocationMethod := ipc_privateIPAllocationMethod c;
     ipc_subnet_id := ipc_subnet_id c;
     ipc_primary := ipc_primary c;
     ipc_privateIPAddressVersion := ipc_privateIPAddressVersion c;
     ipc_applicationSecurityGroups := ipc_applicationSecurityGroups c;
     ipc_publicIPAddress := ipc_publicIPAddress c;
     ipc_loadBalancerInboundNatRules := Some l |}.

(** [nic['properties']['ipConfigurations'][0] = c], the first element being
    the object the caller mutated. *)
Definition with_first_ipconf (c : ipconf) (nic : resource) : resource :=
  with_ipConfigurations (c :: tail (r_ipConfigurations nic)) nic.

Section PublicAddress.

Context {fmt : PyFormat}.

Variable arm : list event -> method -> string -> option resource -> arm_outcome.
Variable conf : config.

(** [get_vm_primary_nic(vm)] *)
Fixpoint first_primary (nis : list (string * option bool)) : option (string * option bool) :=
  match nis with
  | [] => None
  | [ni] => Some ni
  | ni :: rest => if bool_decide (snd ni = Some true) then Some ni else first_primary rest
  end.

Definition get_vm_primary_nic (v : vm) : M unit resource :=
  let nis := vm_networkInterfaces v in
  match (match nis with [ni] => Some ni | _ => first_primary nis end) with
  | None => raise (PyError "UnboundLocalError")
  | Some ni =>
      res <- azure_arm arm GET (fst ni +:+ get_api_version (fst ni)) None ;;
      as_resource (snd res)
  end.

Definition as_vm (d : arm_data) : M unit vm :=
  match d with
  | DVm v => ret v
  | _ => raise (PyError "KeyError")
  end.

Definition as_lb (d : arm_data) : M unit lb :=
  match d with
  | DLb l => ret l
  | _ => raise (PyError "KeyError")
  end.

(** Lines 461-476: the ids of the load balancer's NAT rules whose name does
    not start with [checkpoint-]; empty without [lbName] or on a 404. *)
Definition read_non_cp_nat_rules : M unit (list string) :=
  match lbName conf with
  | Some name =>
      if negb (String.eqb name "") then
        let lbId := baseId conf +:+ "microsoft.network/loadBalancers/" +:+ name in
        try_catch
          (res <- azure_arm arm GET lbId None ;;
           l <- as_lb (snd res) ;;
           ret (map fst (filter (fun r => negb (PyStr.startswith (snd r) "checkpoint-"))
                           (lb_inboundNatRules l))))
          (fun e =>
             match e with
             | RequestException code _ => if code =? 404 then ret [] else raise e
             | _ => raise e
             end)
      else ret []
  | None => ret []
  end.

(** Lines 506-514: the cluster public address, [None] on a 404. *)
Definition read_public_ip (public_ip_id : string) : M unit (option arm_data) :=
  try_catch
    (res <- azure_arm arm GET (public_ip_id +:+ get_api_version public_ip_id) None ;;
     ret (Some (snd res)))
    (fun e =>
       match e with
       | RequestException code _ => if negb (code =? 404) then raise e else ret None
       | _ => raise e
       end).

Definition public_ip_id : string :=
  baseId conf +:+ "Microsoft.Network/publicIPAddresses/" +:+ clusterName conf.

Definition first_ipconf (nic : resource) : M unit ipconf :=
  match r_ipConfigurations nic with
  | c :: _ => ret c
  | [] => raise (PyError "IndexError")
  end.

(** Lines 458-519: everything read before the decision.  [inl true] is the
    early [return True] of a NIC that is not ready. *)
Definition observe_public_address : M unit (bool + observed) :=
  rules <- read_non_cp_nat_rules ;;
  let vm_id := baseId conf +:+ "microsoft.compute/virtualmachines/" +:+ hostname conf in
  me <- azure_arm arm GET (vm_id +:+ get_api_version vm_id) None ;;
  let peer_vm_id := baseId conf +:+ "microsoft.compute/virtualmachines/" +:+ peername conf in
  peer <- azure_arm arm GET (peer_vm_id +:+ get_api_version peer_vm_id) None ;;
  (* get_vm_primary_nic(me) is the first to read the answer *)
  me <- as_vm (snd me) ;;
  my_nic <- get_vm_primary_nic me ;;
  ready <- is_resource_ready arm my_nic ;;
  if negb ready then ret (inl true)
  else
    my_ip_conf <- first_ipconf my_nic ;;
    peer <- as_vm (snd peer) ;;
    peer_nic <- get_vm_primary_nic peer ;;
    ready <- is_resource_ready arm peer_nic ;;
    if negb ready then ret (inl true)
    else
      peer_ip_conf <- first_ipconf peer_nic ;;
      public_ip <- read_public_ip public_ip_id ;;
      ret (inr {| non_cp_nat_rules := lower_set rules;
                  my_nic := my_nic; my_ip_conf := my_ip_conf;
                  peer_nic := peer_nic; peer_ip_conf := peer_ip_conf;
                  public_ip := public_ip |}).

(** Lines 521-551: the decision and the write. *)
Definition decide_public_address (o : observed) : M unit bool :=
  if already_set o then ret false
  else if peer_holds o then
    let peer_ip_conf' :=
      with_natRules
        (filter (fun id => PyStr.startswith (last_segment id) "checkpoint-")
           (default [] (ipc_loadBalancerInboundNatRules (peer_ip_conf o))))
        (with_publicIPAddress None (peer_ip_conf o)) in
    let peer_nic' := with_first_ipconf peer_ip_conf' (peer_nic o) in
    _ <- safe_arm_put arm (r_id peer_nic') peer_nic' "peer NIC public IP disassociation" ;;
    ret true
  else
    let c1 :=
      if negb (public_ip_absent o) then with_publicIPAddress (Some public_ip_id) (my_ip_conf o)
      else my_ip_conf o in
    let c2 := with_natRules (elements (my_nat_rules o ∪ non_cp_nat_rules o)) c1 in
    let my_nic' := with_first_ipconf c2 (my_nic o) in
    _ <- safe_arm_put arm (r_id my_nic') my_nic' "my NIC public IP association" ;;
    ret true.

(** [set_public_address()] *)
Definition set_public_address : M unit bool :=
  o <- observe_public_address ;;
  match o with
  | inl b => ret b
  | inr o => decide_public_address o
  end.

End PublicAddress.

(** ** Loading the configuration *)

(** [str.endswith('1')] decides the last character of the derived peer
    name (lines 284-287). *)
Definition derive_peername (hostname : string) : string :=
  if PyStr.endswith hostname "1" then PyStr.drop_last hostname +:+ "2"
  else PyStr.drop_last hostname +:+ "1".

Definition as_str (v : jval) : result string :=
  match v with
  | JStr s => Ok s
  | _ => Raise (PyError "AttributeError")
  end.

(** Lines 253-287 of [reconf()]: [c] is the dictionary the configuration
    dump decodes to, [conf] the module's dictionary before the call and
    [gethostname] the value of [socket.gethostname()].  The value is [conf]
    after line 287 and [templateName]. *)
Definition reconf_head (c conf : gmap string jval) (gethostname : string)
  : result (gmap string jval * string) :=
  (* for k in c: conf[k] = c[k] *)
  let conf := c ∪ conf in
  (* credentials = c.get('credentials'); if not credentials: c['userName'], c['password'] *)
  let has_credentials :=
    match c !! "credentials"%string with
    | Some v => truthy v
    | None => false
    end in
  if negb has_credentials &&
     negb (bool_decide (is_Some (c !! "userName"%string))
           && bool_decide (is_Some (c !! "password"%string)))
  then Raise (PyError "KeyError")
  else
    (* os.environ['https_proxy'] = c.get('proxy', '') *)
    match as_str (default (JStr "") (c !! "proxy"%string)) with
    | Raise _ => Raise (PyError "TypeError")
    | Ok _ =>
        (* templateName = conf.get('templateName', '').lower() *)
        match as_str (default (JStr "") (conf !! "templateName"%string)) with
        | Raise e => Raise e
        | Ok t =>
            let templateName := PyStr.lower t in
            (* conf['hostname'] = c.get('hostname', socket.gethostname()) *)
            let h := default (JStr gethostname) (c !! "hostname"%string) in
            let conf := <["hostname"%string := h]> conf in
            (* if 'peername' not in c: ... *)
            match c !! "peername"%string with
            | Some _ => Ok (conf, templateName)
            | None =>
                match as_str h with
                | Raise e => Raise e
                | Ok hn =>
                    Ok (<["peername"%string := JStr (derive_peername hn)]> conf,
                        templateName)
                end
            end
        end
    end.

(** ** The event loop *)

(** What the event set of [Server.run] holds: [socket.recv] returns
    [bytes], the tags written in the source are [str]. *)
Inductive pyval : Type :=
| VStr (s : string)
| VBytes (b : string).

#[global] Instance pyval_eq_dec : EqDecision pyval.
Proof. solve_decision. Defined.

#[global] Instance pyval_countable : Countable pyval.
Proof.
  refine (inj_countable'
            (fun v => match v with VStr s => inl s | VBytes b => inr b end)
            (fun x => match x with inl s => VStr s | inr b => VBytes b end) _).
  intros []; reflexivity.
Defined.

Definition EAGAIN : Z := 11.
Definition EWOULDBLOCK : Z := 11.

(** One pass of the outer loop as the socket presents it: the datagrams
    that [recv] returns, then the [errno] of the [socket.error] that ends
    the drain. *)
Record tick := {
  dgrams : list string;
  drain_errno : Z
}.

Inductive run_end : Type :=
| Stopped
| Crashed (e : exn)
| Running.

Section Server.

(** What the handlers act on, the two handlers ([reconf] may raise, [poll]
    catches everything), and whether a datagram decodes as UTF-8. *)
Variable W : Type.
Variable reconf : W -> W * option exn.
Variable poll : W -> W.
Variable utf8_ok : string -> bool.

(** Lines 1021-1031: the inner loop. *)
Fixpoint drain (ds : list string) (errno : Z) (events : gset pyval) : result (gset pyval) :=
  match ds with
  | d :: rest =>
      if utf8_ok d then drain rest errno (events ∪ {[ VBytes d ]})
      else Raise (PyError "UnicodeDecodeError")
  | [] =>
      if bool_decide (errno ∈ [EAGAIN; EWOULDBLOCK]) then Ok (events ∪ {[ VStr "CHANGED" ]})
      else Raise (PyError "socket.error")
  end.

(** Lines 1032-1034: the handlers, in the order of the list; the calls are
    appended to [calls]. *)
Definition run_handlers (events : gset pyval) (w : W) (calls : list string)
  : W * list string * option exn :=
  let '(w, calls, err) :=
    if bool_decide (VStr "RECONF" ∈ events) then
      let '(w', err) := reconf w in (w', calls ++ ["RECONF"%string], err)
    else (w, calls, None) in
  match err with
  | Some e => (w, calls, Some e)
  | None =>
      if bool_decide (VStr "CHANGED" ∈ events) then
        (poll w, calls ++ ["CHANGED"%string], None)
      else (w, calls, None)
  end.

(** [Server.run()] over the passes the socket presents; [Running] when the
    loop has consumed them all and goes on. *)
Fixpoint run (ticks : list tick) (w : W) (calls : list string) : W * list string * run_end :=
  match ticks with
  | [] => (w, calls, Running)
  | t :: rest =>
      match drain (dgrams t) (drain_errno t) ∅ with
      | Raise e => (w, calls, Crashed e)
      | Ok events =>
          match run_handlers events w calls with
          | (w', calls', Some e) => (w', calls', Crashed e)
          | (w', calls', None) =>
              if bool_decide (VStr "STOP" ∈ events) then (w', calls', Stopped)
              else run rest w' calls'
          end
      end
  end.

End Server.

Arguments run_handlers {W} reconf poll events w calls.
Arguments run {W} reconf poll utf8_ok ticks w calls.

(** ** Vocabulary of the statements *)

(** An exception is the conflict that [safe_arm_put] absorbs. *)
Definition is_edge_conflict (e : exn) : bool :=
  match e with
  | RequestException code msg => is_invalid_extended_location code msg
  | _ => false
  end.

(** An event is a PUT sent to the cloud. *)
Definition is_put (ev : event) : bool :=
  match ev with
  | EArm PUT _ _ => true
  | _ => false
  end.

(** An event is a call of [safe_arm_put]. *)
Definition is_safe_put (ev : event) : bool :=
  match ev with
  | ESafePut _ _ _ => true
  | _ => false
  end.

(** A trace holds no PUT. *)
Definition no_put (evs : list event) : Prop :=
  Forall (fun ev => is_put ev = false) evs.

(** An event is a warning record. *)
Definition is_warning (ev : event) : bool :=
  match ev with
  | ELog WARNING _ => true
  | _ => false
  end.


(** An ipConfiguration carries a VIP name, compared as
    [get_cluster_ip_index] compares. *)
Definition name_matches (name : string) (c : ipconf) : bool :=
  String.eqb (PyStr.lower (ipc_name c)) (PyStr.lower name).

(** An ipConfiguration carries one of the configured VIP names. *)
Definition is_vip (vip_names : list string) (c : ipconf) : bool :=
  existsb (fun name => name_matches name c) vip_names.

(** The names of a NIC's ipConfigurations in lower case. *)
Definition lower_names (ipcs : list ipconf) : list string :=
  map (fun c => PyStr.lower (ipc_name c)) ipcs.

(** ** Vocabulary of the further statements *)

(** The number of calls of [safe_arm_put] in a trace. *)
Definition safe_put_count (evs : list event) : nat :=
  length (List.filter is_safe_put evs).

(** An interface needs no work: both NICs are found and ready, the peer NIC
    carries no configured VIP name, and the local NIC, whose first
    ipConfiguration names its subnet, carries them all. *)
Definition interface_converged (s : heap) (my_nics peer_nics : list nat)
    (item : string * list vip) : bool :=
  match find_nic_by_suffix s peer_nics item.1, find_nic_by_suffix s my_nics item.1 with
  | Some p, Some m =>
      match s !! p, s !! m with
      | Some peer, Some my =>
          String.eqb (r_provisioningState peer) "Succeeded"
          && negb (existsb (is_vip (map vip_name item.2)) (r_ipConfigurations peer))
          && String.eqb (r_provisioningState my) "Succeeded"
          && match r_ipConfigurations my with
             | ipc0 :: _ => bool_decide (is_Some (ipc_subnet_id ipc0))
             | [] => false
             end
          && forallb (fun v => 0 <=? get_cluster_ip_index my (vip_name v)) item.2
      | _, _ => false
      end
  | _, _ => false
  end.

(** The local NIC after the self-addition loop has looked at [vips]: each
    VIP not found on the NIC as it stands is appended. *)
Fixpoint append_missing (conf : config) (subnet_id : string)
    (app_security_groups : option jval) (vips : list vip) (nic : resource) : resource :=
  match vips with
  | [] => nic
  | v :: rest =>
      append_missing conf subnet_id app_security_groups rest
        (if get_cluster_ip_index nic (vip_name v) <? 0 then
           with_ipConfigurations
             (r_ipConfigurations nic ++
                [new_ipconf v subnet_id app_security_groups (pub_resource_id_of conf v)])
             nic
         else nic)
  end.

(** The requests sent to the cloud in a trace, in order. *)
Definition requests (evs : list event) : list (method * string * option resource) :=
  omap (fun ev => match ev with
                  | EArm m url body => Some (m, url, body)
                  | _ => None
                  end) evs.

(** A body carries no edge-zone marker that [safe_arm_put] acts on: each of
    [extendedLocation] and [properties.vnetExtendedLocation] is missing or
    falsy. *)
Definition unmarked (body : resource) : bool :=
  match r_extendedLocation body with
  | Some v => negb (truthy v)
  | None => true
  end
  && match r_vnetExtendedLocation body with
     | Some v => negb (truthy v)
     | None => true
     end.

(** ** The load-balancer reconciler *)

Section LbNatRules.

Context {fmt : PyFormat}.

Variable arm : list event -> method -> string -> option resource -> arm_outcome.
Variable conf : config.

(** Lines 377-394 of [set_lb_nat_rules]: the ids of the load balancer's NAT
    rules whose name, in lower case, starts with [cluster-vip]; [inl false]
    is the [return False] of a 404. *)
Definition read_cluster_vip_nat_rules : M unit (bool + list string) :=
  match lbName conf with
  | Some name =>
      if negb (String.eqb name "") then
        let lbId := baseId conf +:+ "microsoft.network/loadBalancers/" +:+ name in
        try_catch
          (res <- azure_arm arm GET lbId None ;;
           l <- as_lb (snd res) ;;
           ret (inr (map fst
                       (filter (fun r => PyStr.startswith (PyStr.lower (snd r)) "cluster-vip")
                          (lb_inboundNatRules l)))))
          (fun e =>
             match e with
             | RequestException code _ => if code =? 404 then ret (inl false) else raise e
             | _ => raise e
             end)
      else ret (inr [])
  | None => ret (inr [])
  end.

(** Lines 425-452: the decision and the write, from the rule ids in lower
    case and the two primary NICs with their first ipConfiguration. *)
Definition decide_lb_nat_rules (nat_rules : gset string)
    (my_nic : resource) (my_ip_conf : ipconf)
    (peer_nic : resource) (peer_ip_conf : ipconf) : M unit bool :=
  let my_nat_rules := lower_set (default [] (ipc_loadBalancerInboundNatRules my_ip_conf)) in
  let peer_nat_rules := lower_set (default [] (ipc_loadBalancerInboundNatRules peer_ip_conf)) in
  if bool_decide (nat_rules ⊆ my_nat_rules) then ret false
  else if negb (bool_decide (nat_rules ∩ peer_nat_rules = ∅)) then
    let peer_ip_conf' :=
      with_natRules
        (filter (fun id => negb (PyStr.startswith (PyStr.lower (last_segment id)) "cluster-vip"))
           (default [] (ipc_loadBalancerInboundNatRules peer_ip_conf)))
        peer_ip_conf in
    let peer_nic' := with_first_ipconf peer_ip_conf' peer_nic in
    _ <- safe_arm_put arm (r_id peer_nic') peer_nic' "peer NIC disassociation" ;;
    ret true
  else
    let my_ip_conf' := with_natRules (elements (my_nat_rules ∪ nat_rules)) my_ip_conf in
    let my_nic' := with_first_ipconf my_ip_conf' my_nic in
    _ <- safe_arm_put arm (r_id my_nic') my_nic' "my NIC association" ;;
    ret true.

(** [set_lb_nat_rules()] *)
Definition set_lb_nat_rules : M unit bool :=
  r <- read_cluster_vip_nat_rules ;;
  match r with
  | inl b => ret b
  | inr rules =>
      (* if nat_rules: *)
      if bool_decide (rules = []) then ret false
      else
        let vm_id := baseId conf +:+ "microsoft.compute/virtualmachines/" +:+ hostname conf in
        me <- azure_arm arm GET (vm_id +:+ get_api_version vm_id) None ;;
        let peer_vm_id :=
          baseId conf +:+ "microsoft.compute/virtualmachines/" +:+ peername conf in
        peer <- azure_arm arm GET (peer_vm_id +:+ get_api_version peer_vm_id) None ;;
        (* get_vm_primary_nic(me) is the first to read the answer *)
        me <- as_vm (snd me) ;;
        my_nic <- get_vm_primary_nic arm me ;;
        ready <- is_resource_ready arm my_nic ;;
        if negb ready then ret true
        else
          my_ip_conf <- first_ipconf my_nic ;;
          peer <- as_vm (snd peer) ;;
          peer_nic <- get_vm_primary_nic arm peer ;;
          ready <- is_resource_ready arm peer_nic ;;
          if negb ready then ret true
          else
            peer_ip_conf <- first_ipconf peer_nic ;;
            decide_lb_nat_rules (lower_set rules) my_nic my_ip_conf peer_nic peer_ip_conf
  end.

End LbNatRules.

(** ** The structure of [clusterNetworkInterfaces] *)

(** [d[k] = v] on a dictionary that keeps its insertion order. *)
Fixpoint dict_set {V : Type} (k : string) (v : V) (d : list (string * V)) : list (string * V) :=
  match d with
  | [] => [(k, v)]
  | (k', v') :: d' =>
      if String.eqb k' k then (k', v) :: d' else (k', v') :: dict_set k v d'
  end.

(** [d.get(k)] for such a dictionary. *)
Fixpoint dict_get {V : Type} (k : string) (d : list (string * V)) : option V :=
  match d with
  | [] => None
  | (k', v) :: d' => if String.eqb k' k then Some v else dict_get k d'
  end.

Definition is_dict (v : jval) : bool :=
  match v with
  | JObj _ => true
  | _ => false
  end.

Section ConfStructure.

(** The key names imported from [azure_ha_globals]. *)
Variables NAME PRIVATE_IP_ADDR PUBLIC_IP_OBJ : string.

(** The dictionary literal of lines 233-237. *)
Definition single_vip (addr pub : jval) : jval :=
  JObj (dict_set PUBLIC_IP_OBJ pub
          (dict_set PRIVATE_IP_ADDR addr
             (dict_set NAME (JStr "cluster-vip") []))).

(** Lines 225-238 for the value [cluster_nics[interface]]: a list is
    indexed, a string is indexed by character, a non-empty dictionary has
    no key [0], and nothing else has a length. *)
Definition update_interface (v : jval) : result jval :=
  match v with
  | JArr [] => Ok v
  | JArr (x0 :: rest) =>
      if is_dict x0 then Ok v
      else Ok (JArr [single_vip x0 (match rest with
                                    | x1 :: _ => x1
                                    | [] => JStr ""
                                    end)])
  | JStr EmptyString => Ok v
  | JStr (String c s) =>
      Ok (JArr [single_vip (JStr (String c ""))
                  (match s with
                   | String c1 _ => JStr (String c1 "")
                   | EmptyString => JStr ""
                   end)])
  | JObj [] => Ok v
  | JObj (_ :: _) => Raise (PyError "KeyError")
  | _ => Raise (PyError "TypeError")
  end.

(** [update_conf_structure_multiple_vip(cluster_nics)] on the items of the
    dictionary, which it changes in place: the value is the items as the
    call leaves them and the exception that ended it, if any. *)
Fixpoint update_conf_structure_multiple_vip (cluster_nics : list (string * jval))
  : list (string * jval) * option exn :=
  match cluster_nics with
  | [] => ([], None)
  | (interface, v) :: rest =>
      match update_interface v with
      | Raise e => ((interface, v) :: rest, Some e)
      | Ok v' =>
          let '(rest', err) := update_conf_structure_multiple_vip rest in
          ((interface, v') :: rest', err)
      end
  end.

End ConfStructure.

(** ** The usage report *)



(** ** The orchestrator *)

Section LocalActive.

Context {S : Type}.

(** The four reconcilers, each yielding whether work remains. *)
Variables set_cluster_ips_ set_routing_tables_ set_lb_nat_rules_ set_public_address_
  : M S bool.

(** The module's [templateName], and ['clusterNetworkInterfaces' in conf]. *)
Variable templateName : string.
Variable has_cluster_nics : bool.

(** Lines 887-903 of [setLocalActive]: the value of [todo] after the
    [try] block, whose handler logs and re-raises. *)
Definition reconcile : M S bool :=
  try_catch
    (if PyStr.mem templateName ["ha"; "ha_terraform"]%string then
       t <- set_cluster_ips_ ;;
       ret (false || t)
     else
       t1 <- set_routing_tables_ ;;
       if has_cluster_nics then
         t2 <- set_cluster_ips_ ;;
         t3 <- set_lb_nat_rules_ ;;
         ret (((false || t1) || t2) || t3)
       else if negb (String.eqb templateName "stack-ha") then
         t4 <- set_public_address_ ;;
         ret ((false || t1) || t4)
       else ret (false || t1))
    (fun e => raise e).

(** [setLocalActive()], from the truth value of [conf.get('todo')]; the
    value is what it stores in [conf['todo']]. *)
Definition setLocalActive (conf_todo : bool) : M S bool :=
  todo <- reconcile ;;
  (if conf_todo && negb todo then emit (EStatus DONE) else ret tt) ;;
  ret todo.

(** [poll()], from the state that the pattern extracts from the output of
    [cphaprob stat] (or the exception of running it); the value is the
    truth value of [conf.get('todo')] after the call.  The handler logs the
    traceback. *)
Definition poll (state : result string) (conf_todo : bool) : M S bool :=
  try_catch
    (state <- lift_result state ;;
     if PyStr.mem state ["active"; "active attention"]%string then
       setLocalActive conf_todo
     else
       emit (EStatus NOT_STARTED) ;;
       ret conf_todo)
    (fun _ => ret conf_todo).

End LocalActive.

(** ** The NICs of the two members *)

(** [dict(pairs)], later pairs replacing the value of an earlier key. *)
Definition dict_of {V : Type} (pairs : list (string * V)) : list (string * V) :=
  fold_left (fun d kv => dict_set (fst kv) (snd kv) d) pairs [].

(** [get_vm_nics] on its argument VMs, from the list [value] that the GET of the
    network interfaces returned: the NIC objects are the elements of that
    list, and each VM gets the references of its NICs. *)
Definition get_vm_nics (value : heap) (vms : list vm) : result (list (list nat)) :=
  let all_nics := dict_of (imap (fun i nic => (r_id nic, i)) value) in
  let all_nics := dict_of (map (fun kv => (PyStr.lower (fst kv), snd kv)) all_nics) in
  let lookup_all (nis : list (string * option bool)) : result (list nat) :=
    fold_right
      (fun ni acc =>
         match dict_get (PyStr.lower (fst ni)) all_nics, acc with
         | None, _ => Raise (PyError "KeyError")
         | Some ref, Ok refs => Ok (ref :: refs)
         | Some _, Raise e => Raise e
         end)
      (Ok []) nis in
  fold_right
    (fun v acc =>
       match lookup_all (vm_networkInterfaces v), acc with
       | Raise e, _ => Raise e
       | Ok refs, Ok l => Ok (refs :: l)
       | Ok _, Raise e => Raise e
       end)
    (Ok []) vms.

(** ** Further vocabulary *)

(** A pass of the event loop that drains without an error: every datagram
    decodes and the drain ends with [EAGAIN]. *)
Definition good_tick (utf8_ok : string -> bool) (t : tick) : bool :=
  forallb utf8_ok (dgrams t) && bool_decide (drain_errno t ∈ [EAGAIN; EWOULDBLOCK]).

(** An event is the record of the status [DONE]. *)
Definition is_done (ev : event) : bool :=
  match ev with
  | EStatus DONE => true
  | _ => false
  end.

(** A value of [clusterNetworkInterfaces] is empty or starts with a
    dictionary. *)
Definition new_format (v : jval) : bool :=
  match v with
  | JArr [] => true
  | JArr (x0 :: _) => is_dict x0
  | JStr EmptyString => true
  | JObj [] => true
  | _ => false
  end.

(** A computation never records the status [DONE]. *)
Definition writes_no_done {S A : Type} (m : M S A) : Prop :=
  forall s h, Forall (fun ev => is_done ev = false) (snd (fst (m s h))).

(** The state is one in which [poll] calls [setLocalActive]. *)
Definition is_active (state : result string) : bool :=
  match state with
  | Ok st => PyStr.mem st ["active"; "active attention"]%string
  | Raise _ => false
  end.

(** ** What the public-address reconciler reads *)

(** The cloud answers a sequence of GETs, one after the other, starting
    from the trace [h]. *)
Fixpoint answers (arm : list event -> method -> string -> option resource -> arm_outcome)
    (h : list event) (script : list (string * arm_outcome)) : Prop :=
  match script with
  | [] => True
  | (url, a) :: rest =>
      arm h GET url None = a /\ answers arm (h ++ [EArm GET url None]) rest
  end.

(** The answer to the GET of the load balancer: no GET is sent without
    [lbName]; otherwise the load balancer, or a 404. *)
Inductive lb_answer : Type :=
| LbUnset
| LbFound (hd : headers) (l : lb)
| LbMissing (msg : string).

(** The answer to the GET of the cluster public address: what the cloud
    returned, or a 404. *)
Inductive pip_answer : Type :=
| PipFound (hd : headers) (d : arm_data)
| PipMissing (msg : string).

(** [LbUnset] stands for a configuration whose [lbName] is missing or
    falsy, the other two for one that names a load balancer. *)
Definition lb_configured (conf : config) (a : lb_answer) : Prop :=
  match a with
  | LbUnset => default ""%string (lbName conf) = ""%string
  | _ => default ""%string (lbName conf) <> ""%string
  end.

Definition lb_script (conf : config) (a : lb_answer) : list (string * arm_outcome) :=
  let lbId :=
    baseId conf +:+ "microsoft.network/loadBalancers/" +:+ default ""%string (lbName conf) in
  match a with
  | LbUnset => []
  | LbFound hd l => [(lbId, ArmReturn hd (DLb l))]
  | LbMissing msg => [(lbId, ArmRaise (RequestException 404 msg))]
  end.

(** The ids of the NAT rules of the load balancer whose name does not
    start with [checkpoint-]. *)
Definition lb_non_cp_rule_ids (a : lb_answer) : list string :=
  match a with
  | LbFound _ l =>
      map fst (filter (fun r => negb (PyStr.startswith (snd r) "checkpoint-"))
                 (lb_inboundNatRules l))
  | _ => []
  end.

Definition pip_outcome (a : pip_answer) : arm_outcome :=
  match a with
  | PipFound hd d => ArmReturn hd d
  | PipMissing msg => ArmRaise (RequestException 404 msg)
  end.

(** The cluster public address is absent: its GET answered 404, or
    returned something falsy. *)
Definition pip_absent (a : pip_answer) : bool :=
  match a with
  | PipFound _ d => negb (data_truthy d)
  | PipMissing _ => true
  end.

(** The entry of a VM's [networkInterfaces] that [get_vm_primary_nic]
    reads: the first one flagged [primary], and the last one when none is
    flagged. *)
Definition primary_entry (v : vm) : string * option bool :=
  default (List.last (vm_networkInterfaces v) (""%string, None))
    (List.find (fun ni => bool_decide (snd ni = Some true)) (vm_networkInterfaces v)).

(** Everything [set_public_address] reads when both NICs are ready, in the
    order of its requests. *)
Definition public_address_script (conf : config) (lba : lb_answer)
    (hd_me : headers) (me : vm) (hd_peer : headers) (peer : vm)
    (hd_my_nic : headers) (my_nic : resource) (hd_peer_nic : headers) (peer_nic : resource)
    (pipa : pip_answer) : list (string * arm_outcome) :=
  let vm_id := baseId conf +:+ "microsoft.compute/virtualmachines/" +:+ hostname conf in
  let peer_vm_id := baseId conf +:+ "microsoft.compute/virtualmachines/" +:+ peername conf in
  let my_ni := fst (primary_entry me) in
  let peer_ni := fst (primary_entry peer) in
  let pip_id := baseId conf +:+ "Microsoft.Network/publicIPAddresses/" +:+ clusterName conf in
  lb_script conf lba
  ++ [ (vm_id +:+ get_api_version vm_id, ArmReturn hd_me (DVm me));
       (peer_vm_id +:+ get_api_version peer_vm_id, ArmReturn hd_peer (DVm peer));
       (my_ni +:+ get_api_version my_ni, ArmReturn hd_my_nic (DResource my_nic));
       (peer_ni +:+ get_api_version peer_ni, ArmReturn hd_peer_nic (DResource peer_nic));
       (pip_id +:+ get_api_version pip_id, pip_outcome pipa) ].

(** * Sample inputs *)


(** A formatter for the log records: it prints a string as it is and
    abbreviates every other object. *)
Definition sample_format : PyFormat :=
  {| str_json := λ v, match v with JStr s => s | _ => "{...}"%string end;
     str_result := λ _, "(...)"%string |}.

(** A configuration dump with a user name and a password only. *)
Definition sample_dump : gmap string jval :=
  <["userName"%string := JStr "u"]> (<["password"%string := JStr "p"]> ∅).

(** Ids the daemon builds or receives. *)
Definition sample_vm_id : string :=
  "/subscriptions/s/resourcegroups/rg/providers/microsoft.compute/virtualmachines/fw1".

Definition sample_nic_id : string :=
  "/subscriptions/s/resourceGroups/rg/providers/Microsoft.Network/networkInterfaces/fw1-eth0".

Definition sample_subscription_id : string := "/subscriptions/s".

(** Two passes of the event loop: one that drains the datagram [STOP],
    then an idle one. *)
Definition sample_stop_ticks : list tick :=
  [ {| dgrams := ["STOP"%string]; drain_errno := EAGAIN |};
    {| dgrams := []; drain_errno := EAGAIN |} ].

(** A pass that drains the datagram [RECONF]. *)
Definition sample_reconf_ticks : list tick :=
  [ {| dgrams := ["RECONF"%string]; drain_errno := EAGAIN |} ].

Definition sample_ipconf (name addr : string) (primary : bool) : ipconf :=
  {| ipc_name := name;
     ipc_privateIPAddress := Some addr;
     ipc_privateIPAllocationMethod := Some "Static"%string;
     ipc_subnet_id := Some "/subscriptions/s/resourceGroups/rg/providers/Microsoft.Network/virtualNetworks/vnet/subnets/frontend"%string;
     ipc_primary := Some primary;
     ipc_privateIPAddressVersion := Some "IPv4"%string;
     ipc_applicationSecurityGroups := None;
     ipc_publicIPAddress := None;
     ipc_loadBalancerInboundNatRules := None |}.

Definition sample_nic (id name state : string) (ipcs : list ipconf) : resource :=
  {| r_id := id; r_name := name;
     r_extendedLocation := None;
     r_provisioningState := state;
     r_vnetExtendedLocation := None;
     r_ipConfigurations := ipcs;
     r_routes := None |}.

(** A peer NIC that carries the VIP once. *)
Definition sample_peer_nic : resource :=
  sample_nic "/subscriptions/s/resourceGroups/rg/providers/Microsoft.Network/networkInterfaces/fw2-eth0"
    "fw2-eth0" "Succeeded"
    [ sample_ipconf "ipconfig1" "10.0.0.5" true;
      sample_ipconf "cluster-vip" "10.0.0.10" false ].

(** A peer NIC list with two ipConfigurations whose names differ only in
    the case of their letters. *)
Definition sample_peer_nic_twice : resource :=
  sample_nic "/subscriptions/s/resourceGroups/rg/providers/Microsoft.Network/networkInterfaces/fw2-eth0"
    "fw2-eth0" "Succeeded"
    [ sample_ipconf "ipconfig1" "10.0.0.5" true;
      sample_ipconf "cluster-vip" "10.0.0.10" false;
      sample_ipconf "Cluster-VIP" "10.0.0.11" false ].


Definition sample_my_nic : resource :=
  sample_nic sample_nic_id "fw1-eth0" "Succeeded"
    [sample_ipconf "ipconfig1" "10.0.0.4" true].

Definition ok_headers : headers := HdrDict (Some "200"%string).

(** A cloud that answers [200] to everything, echoing the body of a PUT. *)
Definition cloud_ok : list event → method → string → option resource → arm_outcome :=
  λ _ _ _ body,
    match body with
    | Some b => ArmReturn ok_headers (DResource b)
    | None => ArmReturn ok_headers (DJson JNull)
    end.



(** A cloud that answers every PUT with [202 Accepted]. *)
Definition cloud_accepted : list event → method → string → option resource → arm_outcome :=
  λ _ _ _ body,
    match body with
    | Some b => ArmReturn (HdrDict (Some "202"%string)) (DResource b)
    | None => ArmReturn ok_headers (DJson JNull)
    end.

(** A cloud whose PUTs fail with a server error. *)
Definition cloud_broken : list event → method → string → option resource → arm_outcome :=
  λ _ _ _ _, ArmRaise (RequestException 500 "InternalServerError").


Definition sample_route (name prefix hop : string) : route :=
  {| rt_name := name;
     rt_nextHopType := "VirtualAppliance";
     rt_nextHopIpAddress := Some hop;
     rt_addressPrefix := Some prefix |}.


Definition sample_default_route : route :=
  sample_route "default" "0.0.0.0/0" "10.0.1.5".

Definition sample_host_route : route :=
  sample_route "to-peer" "10.0.1.5/32" "10.0.1.5".

Definition sample_route_table_id : string :=
  "/subscriptions/s/resourceGroups/rg/providers/Microsoft.Network/routeTables/rt1".

Definition sample_route_table : resource :=
  {| r_id := sample_route_table_id; r_name := "rt1";
     r_extendedLocation := None;
     r_provisioningState := "Succeeded";
     r_vnetExtendedLocation := None;
     r_ipConfigurations := [];
     r_routes := Some [sample_default_route; sample_host_route] |}.

Definition sample_conf : config :=
  {| hostname := "fw1"; peername := "fw2";
     baseId := "/subscriptions/s/resourcegroups/rg/providers/";
     interfaceSwitchMode := None;
     clusterNetworkInterfaces := [];
     lbName := None;
     clusterName := "fw";
     addresses_me := ["10.0.1.4"%string];
     addresses_peer := ["10.0.1.5"%string] |}.

(** A cloud that returns the sample route table on a GET and echoes a PUT. *)
Definition cloud_route_table : list event → method → string → option resource → arm_outcome :=
  λ _ m _ body,
    match m, body with
    | PUT, Some b => ArmReturn ok_headers (DResource b)
    | _, _ => ArmReturn ok_headers (DResource sample_route_table)
    end.



(** A fault-free cloud for the public-address reconciler: two VMs with one
    NIC each, no load balancer configured, and no cluster public address
    (the GET of a public address answers 404). *)
Definition sample_peer_nic_id : string :=
  "/subscriptions/s/resourceGroups/rg/providers/Microsoft.Network/networkInterfaces/fw2-eth0".

Definition cloud_public_address : list event → method → string → option resource → arm_outcome :=
  λ _ m url body,
    match m, body with
    | PUT, Some b => ArmReturn ok_headers (DResource b)
    | _, _ =>
        if PyStr.contains "virtualmachines/fw1" url then
          ArmReturn ok_headers (DVm {| vm_networkInterfaces := [(sample_nic_id, Some true)] |})
        else if PyStr.contains "virtualmachines/fw2" url then
          ArmReturn ok_headers (DVm {| vm_networkInterfaces := [(sample_peer_nic_id, Some true)] |})
        else if PyStr.contains "networkInterfaces/fw1-eth0" url then
          ArmReturn ok_headers (DResource sample_my_nic)
        else if PyStr.contains "networkInterfaces/fw2-eth0" url then
          ArmReturn ok_headers (DResource sample_peer_nic)
        else ArmRaise (RequestException 404 "NotFound")
    end.

(** The NIC objects of the first scenario of the specification: the local
    NIC at reference 0, the peer NIC, which carries the VIP, at 1. *)
Definition sample_heap : heap := [sample_my_nic; sample_peer_nic].

Definition sample_vip : vip :=
  {| vip_name := "cluster-vip"; vip_privateIpAddr := "10.0.0.10"; vip_publicIpObj := None |}.


(** Two VIPs on one interface; the local NIC carries the second only, the
    peer NIC carries neither. *)
Definition sample_vip_a : vip :=
  {| vip_name := "vip-a"; vip_privateIpAddr := "10.0.0.10"; vip_publicIpObj := None |}.

Definition sample_vip_b : vip :=
  {| vip_name := "vip-b"; vip_privateIpAddr := "10.0.0.11"; vip_publicIpObj := None |}.

Definition sample_conf_two_vips : config :=
  {| hostname := "fw1"; peername := "fw2";
     baseId := "/subscriptions/s/resourcegroups/rg/providers/";
     interfaceSwitchMode := None;
     clusterNetworkInterfaces := [("eth0"%string, [sample_vip_a; sample_vip_b])];
     lbName := None;
     clusterName := "fw";
     addresses_me := ["10.0.1.4"%string];
     addresses_peer := ["10.0.1.5"%string] |}.

Definition sample_my_nic_with_b : resource :=
  sample_nic sample_nic_id "fw1-eth0" "Succeeded"
    [ sample_ipconf "ipconfig1" "10.0.0.4" true;
      sample_ipconf "vip-b" "10.0.0.11" false ].

Definition sample_heap_two_vips : heap :=
  [ sample_my_nic_with_b;
    sample_nic sample_peer_nic_id "fw2-eth0" "Succeeded"
      [ sample_ipconf "ipconfig1" "10.0.0.5" true ] ].

(** One VIP on one interface, in serial mode; the local NIC carries it and
    the peer NIC does not. *)
Definition sample_conf_one_vip : config :=
  {| hostname := "fw1"; peername := "fw2";
     baseId := "/subscriptions/s/resourcegroups/rg/providers/";
     interfaceSwitchMode := Some "serial"%string;
     clusterNetworkInterfaces := [("eth0"%string, [sample_vip])];
     lbName := None;
     clusterName := "fw";
     addresses_me := ["10.0.1.4"%string];
     addresses_peer := ["10.0.1.5"%string] |}.

Definition sample_heap_converged : heap :=
  [ sample_nic sample_nic_id "fw1-eth0" "Succeeded"
      [ sample_ipconf "ipconfig1" "10.0.0.4" true;
        sample_ipconf "cluster-vip" "10.0.0.10" false ];
    sample_nic sample_peer_nic_id "fw2-eth0" "Succeeded"
      [ sample_ipconf "ipconfig1" "10.0.0.5" true ] ].

Definition sample_subnet_id : string :=
  "/subscriptions/s/resourceGroups/rg/providers/Microsoft.Network/virtualNetworks/vnet/subnets/frontend".

(** The same two VMs when the cluster public address exists and is
    attached to neither NIC. *)
Definition sample_public_ip : arm_data :=
  DJson (JObj [("name"%string, JStr "fw")]).

Definition cloud_public_address_free
  : list event → method → string → option resource → arm_outcome :=
  λ h m url body,
    match m, body with
    | PUT, Some b => ArmReturn ok_headers (DResource b)
    | _, _ =>
        if PyStr.contains "publicIPAddresses/" url then ArmReturn ok_headers sample_public_ip
        else cloud_public_address h m url body
    end.

Definition sample_observed_free : observed :=
  {| non_cp_nat_rules := ∅;
     my_nic := sample_my_nic;
     my_ip_conf := sample_ipconf "ipconfig1" "10.0.0.4" true;
     peer_nic := sample_peer_nic;
     peer_ip_conf := sample_ipconf "ipconfig1" "10.0.0.5" true;
     public_ip := Some sample_public_ip |}.


(** A NAT rule of the load balancer that follows the active member, and a
    first ipConfiguration that holds it. *)
Definition sample_lb_rule_id : string :=
  "/subscriptions/s/resourceGroups/rg/providers/Microsoft.Network/loadBalancers/lb/inboundNatRules/cluster-vip-ssh".


(** A configuration that names a load balancer, the load balancer with
    one Check Point rule and one other rule, and a local NIC whose first
    ipConfiguration holds the cluster public address and the other rule
    (its id spelled in another letter case). *)
Definition sample_conf_lb : config :=
  {| hostname := "fw1"; peername := "fw2";
     baseId := "/subscriptions/s/resourcegroups/rg/providers/";
     interfaceSwitchMode := None;
     clusterNetworkInterfaces := [];
     lbName := Some "lb"%string;
     clusterName := "fw";
     addresses_me := ["10.0.1.4"%string];
     addresses_peer := ["10.0.1.5"%string] |}.

Definition sample_lb : lb :=
  {| lb_inboundNatRules :=
       [ ("/subscriptions/s/resourceGroups/rg/providers/Microsoft.Network/loadBalancers/lb/inboundNatRules/checkpoint-ssh",
          "checkpoint-ssh");
         ("/subscriptions/s/resourceGroups/rg/providers/Microsoft.Network/loadBalancers/lb/inboundNatRules/web",
          "web") ]%string |}.

Definition sample_pip_id : string :=
  "/subscriptions/s/resourcegroups/rg/providers/Microsoft.Network/publicIPAddresses/fw".

Definition sample_ipconf_settled : ipconf :=
  with_natRules
    ["/SUBSCRIPTIONS/s/resourceGroups/rg/providers/Microsoft.Network/loadBalancers/lb/inboundNatRules/web"%string]
    (with_publicIPAddress (Some sample_pip_id) (sample_ipconf "ipconfig1" "10.0.0.4" true)).

Definition sample_my_nic_settled : resource :=
  sample_nic sample_nic_id "fw1-eth0" "Succeeded" [sample_ipconf_settled].

Definition cloud_public_address_lb
  : list event → method → string → option resource → arm_outcome :=
  λ h m url body,
    match m, body with
    | PUT, Some b => ArmReturn ok_headers (DResource b)
    | _, _ =>
        if PyStr.contains "loadBalancers/" url then ArmReturn ok_headers (DLb sample_lb)
        else if PyStr.contains "publicIPAddresses/" url then ArmReturn ok_headers sample_public_ip
        else if PyStr.contains "networkInterfaces/fw1-eth0" url then
          ArmReturn ok_headers (DResource sample_my_nic_settled)
        else cloud_public_address h m url body
    end.

(** A local NIC whose ipConfiguration flagged [primary] is the second of
    the list and holds the cluster public address, while the first holds
    none; and the cloud that returns it. *)
Definition sample_my_nic_primary_second : resource :=
  sample_nic sample_nic_id "fw1-eth0" "Succeeded"
    [ sample_ipconf "ipconfig0" "10.0.0.3" false;
      with_publicIPAddress (Some sample_pip_id) (sample_ipconf "ipconfig1" "10.0.0.4" true) ].

Definition cloud_primary_second
  : list event → method → string → option resource → arm_outcome :=
  λ h m url body,
    match m, body with
    | PUT, Some b => ArmReturn ok_headers (DResource b)
    | _, _ =>
        if PyStr.contains "publicIPAddresses/" url then ArmReturn ok_headers sample_public_ip
        else if PyStr.contains "networkInterfaces/fw1-eth0" url then
          ArmReturn ok_headers (DResource sample_my_nic_primary_second)
        else cloud_public_address h m url body
    end.

(** * Proofs *)

(** * Python string helpers *)

Lemma length_app_last (p : string) (c : ascii) :
  String.length (p +:+ String c "") = S (String.length p).
Proof. induction p as [|a p IH]; simpl; [done | by rewrite IH]. Qed.

Lemma substring_app_head (p s : string) :
  String.substring 0 (String.length p) (p +:+ s) = p.
Proof.
  induction p as [|a p IH]; simpl.
  - by destruct s.
  - by rewrite IH.
Qed.

Lemma substring_all (s : string) :
  String.substring 0 (String.length s) s = s.
Proof. induction s as [|b s IHs]; simpl; [done | by rewrite IHs]. Qed.

Lemma substring_app_tail (p s : string) :
  String.substring (String.length p) (String.length s) (p +:+ s) = s.
Proof.
  induction p as [|a p IH]; simpl; [apply substring_all | exact IH].
Qed.

Lemma drop_last_app_last (p : string) (c : ascii) :
  PyStr.drop_last (p +:+ String c "") = p.
Proof.
  unfold PyStr.drop_last. rewrite length_app_last. simpl.
  rewrite Nat.sub_0_r. apply substring_app_head.
Qed.

Lemma endswith_app_last (p : string) (c d : ascii) :
  PyStr.endswith (p +:+ String c "") (String d "") = Ascii.eqb c d.
Proof.
  unfold PyStr.endswith. rewrite length_app_last. simpl.
  rewrite Nat.sub_0_r.
  change 1%nat with (String.length (String c "")).
  rewrite substring_app_tail. simpl.
  destruct (Ascii.eqb c d); reflexivity.
Qed.

Lemma string_snoc_inv (s : string) :
  s = ""%string ∨ ∃ p c, s = p +:+ String c "".
Proof.
  induction s as [|a s IH]; [by left | right].
  destruct IH as [-> | (p & c & ->)].
  - by exists ""%string, a.
  - by exists (String a p), c.
Qed.

Lemma app_last_inj (p q : string) (c d : ascii) :
  p +:+ String c "" = q +:+ String d "" → p = q ∧ c = d.
Proof.
  revert q. induction p as [|a p IH]; intros [|b q]; simpl; intros H.
  - by inversion H.
  - inversion H as [[Ha Hq]]. destruct q; discriminate.
  - inversion H as [[Ha Hq]]. destruct p; discriminate.
  - inversion H as [[Ha Hq]]. destruct (IH _ Hq) as [-> ->]. done.
Qed.

(** The peer name that lines 284-287 derive: the host name without its
    last character, followed by 2 when that character is 1 and by 1 in
    every other case, a letter included; an empty host name gives 1. *)
Lemma derive_peername_spec (h : string) :
  (h = ""%string → derive_peername h = "1"%string)
  ∧ (∀ p, h = p +:+ "1" → derive_peername h = p +:+ "2")
  ∧ (∀ p c, h = p +:+ String c "" → c ≠ "1"%char → derive_peername h = p +:+ "1").
Proof.
  split; [by intros -> |]. split.
  - intros p ->. unfold derive_peername.
    rewrite (endswith_app_last p "1" "1"), drop_last_app_last. done.
  - intros p c -> Hc. unfold derive_peername.
    rewrite (endswith_app_last p c "1"), drop_last_app_last.
    destruct (Ascii.eqb_spec c "1"); [done | done].
Qed.

Lemma prefix_lower (p s : string) :
  String.prefix p s = true → String.prefix (PyStr.lower p) (PyStr.lower s) = true.
Proof.
  revert s. induction p as [|a p IH]; intros [|b s]; simpl; try done.
  destruct (ascii_dec a b) as [->|Hne]; [|done].
  intros H. destruct (ascii_dec _ _); [auto | congruence].
Qed.

Lemma contains_lower (p s : string) :
  PyStr.contains p s = true → PyStr.contains (PyStr.lower p) (PyStr.lower s) = true.
Proof.
  induction s as [|b s IH]; cbn [PyStr.contains PyStr.lower]; intros H.
  - apply orb_true_iff in H as [H | H]; [|done].
    apply prefix_lower in H. cbn [PyStr.lower] in H. by rewrite H.
  - apply orb_true_iff in H as [H | H].
    + apply prefix_lower in H. cbn [PyStr.lower] in H. by rewrite H.
    + rewrite (IH H). apply orb_true_r.
Qed.

Lemma prefix_app (k q : string) : String.prefix k (k +:+ q) = true.
Proof.
  induction k as [|a k IH]; simpl; [by destruct q |].
  destruct (ascii_dec a a); [done | congruence].
Qed.

Lemma prefix_inv (k p : string) :
  String.prefix k p = true → ∃ q, p = k +:+ q.
Proof.
  revert p. induction k as [|a k IH]; intros p H.
  - by exists p.
  - destruct p as [|b p]; [done |]. simpl in H.
    destruct (ascii_dec a b) as [->|]; [|done].
    destruct (IH _ H) as [q ->]. by exists q.
Qed.

Lemma contains_of_prefix (k s : string) :
  String.prefix k s = true → PyStr.contains k s = true.
Proof. intros H. destruct s; cbn [PyStr.contains]; by rewrite H. Qed.

Lemma contains_app (pre k q : string) :
  PyStr.contains k (pre +:+ k +:+ q) = true.
Proof.
  induction pre as [|a pre IH].
  - change ("" +:+ k +:+ q) with (k +:+ q).
    apply contains_of_prefix, prefix_app.
  - change (String a pre +:+ k +:+ q) with (String a (pre +:+ k +:+ q)).
    cbn [PyStr.contains]. rewrite IH. apply orb_true_r.
Qed.

Lemma string_app_cons (x : ascii) (a b : string) :
  String x a +:+ b = String x (a +:+ b).
Proof. reflexivity. Qed.

Lemma string_app_assoc (a b c : string) : (a +:+ b) +:+ c = a +:+ (b +:+ c).
Proof.
  induction a as [|x a IH]; [done |].
  rewrite !string_app_cons. by f_equal.
Qed.

Lemma length_app_sub (m q : string) :
  (String.length (m +:+ q) - String.length m)%nat = String.length q.
Proof.
  induction m as [|x m IH].
  - change ("" +:+ q) with q. simpl. lia.
  - rewrite string_app_cons. exact IH.
Qed.

Lemma after_marker_inv (m s p : string) :
  after_marker m s = Some p → ∃ pre, s = pre +:+ m +:+ p.
Proof.
  assert (Hhere : ∀ s, String.prefix m s = true →
            s = m +:+ String.substring (String.length m)
                        (String.length s - String.length m) s).
  { intros s0 E. apply prefix_inv in E as [q ->].
    by rewrite length_app_sub, substring_app_tail. }
  induction s as [|b s IH]; cbn [after_marker].
  - destruct (String.prefix m "") eqn:E; [|done].
    intros [= <-]. exists ""%string. exact (Hhere _ E).
  - destruct (String.prefix m (String b s)) eqn:E.
    + intros [= <-]. exists ""%string. exact (Hhere _ E).
    + intros H. destruct (IH H) as [pre ->]. by exists (String b pre).
Qed.

(** A type path that begins with a key of the provider [ns] occurs in an id
    only behind [microsoft.ns]. *)
Lemma type_path_prefix_contains (l p k rest : string) :
  after_marker "/providers/microsoft." l = Some p →
  String.prefix (k +:+ rest) p = true →
  PyStr.contains ("microsoft." +:+ k) l = true.
Proof.
  intros Ha Hp. apply after_marker_inv in Ha as [pre ->].
  apply prefix_inv in Hp as [q ->].
  replace (pre +:+ "/providers/microsoft." +:+ (k +:+ rest) +:+ q)
    with ((pre +:+ "/providers/") +:+ ("microsoft." +:+ k) +:+ (rest +:+ q)).
  - apply contains_app.
  - rewrite !string_app_assoc. reflexivity.
Qed.

(** * Loading the configuration *)

(** C10.  When the configuration dump has no [peername] key (and carries
    what the lines before need: credentials or a user name and a password,
    a string or no proxy, template name and host name), [reconf] sets
    [conf['peername']] to the host name without its last character followed
    by 2 if the host name ends with 1 and by 1 otherwise, whether or not
    that last character is a digit; an empty host name gives 1. *)
Theorem reconf_derives_peername (c conf : gmap string jval) (gethostname h : string) :
  c !! "peername"%string = None →
  default (JStr gethostname) (c !! "hostname"%string) = JStr h →
  ((∃ v, c !! "credentials"%string = Some v ∧ truthy v = true)
   ∨ (is_Some (c !! "userName"%string) ∧ is_Some (c !! "password"%string))) →
  (∃ p, default (JStr "") (c !! "proxy"%string) = JStr p) →
  (∃ t, default (JStr "") ((c ∪ conf) !! "templateName"%string) = JStr t) →
  ∃ conf' t peer,
    reconf_head c conf gethostname = Ok (conf', t)
    ∧ conf' !! "hostname"%string = Some (JStr h)
    ∧ conf' !! "peername"%string = Some (JStr peer)
    ∧ (h = ""%string → peer = "1"%string)
    ∧ (∀ p, h = p +:+ "1" → peer = p +:+ "2")
    ∧ (∀ p ch, h = p +:+ String ch "" → ch ≠ "1"%char → peer = p +:+ "1").
Proof.
  intros Hpeer Hhost Hcred [p Hproxy] [t Htmpl].
  exists (<["peername"%string := JStr (derive_peername h)]>
            (<["hostname"%string := JStr h]> (c ∪ conf))),
         (PyStr.lower t), (derive_peername h).
  split.
  - unfold reconf_head.
    assert (Hc : (negb match c !! "credentials"%string with
                       | Some v => truthy v
                       | None => false
                       end
                  && negb (bool_decide (is_Some (c !! "userName"%string))
                           && bool_decide (is_Some (c !! "password"%string)))) = false).
    { destruct Hcred as [(v & -> & ->) | [Hu Hp]]; [done |].
      rewrite !bool_decide_eq_true_2 by done.
      by rewrite andb_false_r. }
    rewrite Hc, Hproxy. simpl. rewrite Htmpl. simpl.
    rewrite Hpeer, Hhost. done.
  - rewrite lookup_insert_ne by done. rewrite !lookup_insert_eq.
    destruct (derive_peername_spec h) as (H1 & H2 & H3). done.
Qed.

Lemma reconf_derives_peername_witness :
  ∃ conf' t peer,
    reconf_head sample_dump ∅ "fw-a" = Ok (conf', t)
    ∧ conf' !! "hostname"%string = Some (JStr "fw-a")
    ∧ conf' !! "peername"%string = Some (JStr peer)
    ∧ ("fw-a"%string = ""%string → peer = "1"%string)
    ∧ (∀ p, "fw-a"%string = p +:+ "1" → peer = p +:+ "2")
    ∧ (∀ p ch, "fw-a"%string = p +:+ String ch "" → ch ≠ "1"%char → peer = p +:+ "1").
Proof.
  apply (reconf_derives_peername sample_dump ∅ "fw-a" "fw-a").
  - reflexivity.
  - reflexivity.
  - right. split; eexists; reflexivity.
  - eexists. reflexivity.
  - eexists. reflexivity.
Defined.

Example reconf_letter_hostname :
  reconf_head sample_dump ∅ "fw-a" =
  Ok (<["peername"%string := JStr "fw-1"]> (<["hostname"%string := JStr "fw-a"]> (sample_dump ∪ ∅)), ""%string).
Proof. reflexivity. Qed.

(** * API versions *)

(** The version that [get_api_version] appends does not depend on the
    template name.  For an id that contains [Microsoft.Network/] it is the
    [network/] entry of either profile; for an id that contains
    [Microsoft.Compute/] and not [Microsoft.Network/] it is the [compute/]
    entry; and for an id that names neither provider in any letter case it
    is the longest-prefix match of the id's type path against the active
    profile, which is the generic resources version. *)
Lemma get_api_version_by_provider (templateName resource_id : string) :
  (PyStr.contains "Microsoft.Network/" resource_id = true →
   Some (get_api_version resource_id)
   = String.append "?api-version=" <$> profile_version "network/" (active_profile templateName))
  ∧ (PyStr.contains "Microsoft.Network/" resource_id = false →
     PyStr.contains "Microsoft.Compute/" resource_id = true →
     Some (get_api_version resource_id)
     = String.append "?api-version=" <$> profile_version "compute/" (active_profile templateName))
  ∧ (PyStr.contains "microsoft.network/" (PyStr.lower resource_id) = false →
     PyStr.contains "microsoft.compute/" (PyStr.lower resource_id) = false →
     get_api_version resource_id = "?api-version=" +:+ spec_api_version templateName resource_id).
Proof.
  assert (Hprof : active_profile templateName = ARM_VERSIONS_stack
                  ∨ active_profile templateName = ARM_VERSIONS_ha).
  { unfold active_profile. destruct (String.eqb _ _); auto. }
  split; [|split].
  - intros H. unfold get_api_version. rewrite H. by destruct Hprof as [-> | ->].
  - intros H1 H2. unfold get_api_version. rewrite H1, H2. by destruct Hprof as [-> | ->].
  - intros Hn Hc.
    assert (Hn' : PyStr.contains "Microsoft.Network/" resource_id = false).
    { destruct (PyStr.contains "Microsoft.Network/" resource_id) eqn:E; [|done].
      apply contains_lower in E.
      change (PyStr.lower "Microsoft.Network/") with "microsoft.network/"%string in E.
      congruence. }
    assert (Hc' : PyStr.contains "Microsoft.Compute/" resource_id = false).
    { destruct (PyStr.contains "Microsoft.Compute/" resource_id) eqn:E; [|done].
      apply contains_lower in E.
      change (PyStr.lower "Microsoft.Compute/") with "microsoft.compute/"%string in E.
      congruence. }
    unfold get_api_version. rewrite Hn', Hc'.
    unfold spec_api_version, resource_type_path.
    destruct (after_marker _ (PyStr.lower resource_id)) as [p|] eqn:Ha; simpl default.
    + assert (Hpn : String.prefix "network/" p = false).
      { destruct (String.prefix "network/" p) eqn:E; [|done].
        pose proof (type_path_prefix_contains _ _ "network/" "" Ha E) as Hx.
        change (PyStr.contains "microsoft.network/" (PyStr.lower resource_id) = true) in Hx.
        congruence. }
      assert (Hpv : String.prefix "network/virtualnetworks" p = false).
      { destruct (String.prefix "network/virtualnetworks" p) eqn:E; [|done].
        pose proof (type_path_prefix_contains _ _ "network/" "virtualnetworks" Ha E) as Hx.
        change (PyStr.contains "microsoft.network/" (PyStr.lower resource_id) = true) in Hx.
        congruence. }
      assert (Hpc : String.prefix "compute/" p = false).
      { destruct (String.prefix "compute/" p) eqn:E; [|done].
        pose proof (type_path_prefix_contains _ _ "compute/" "" Ha E) as Hx.
        change (PyStr.contains "microsoft.compute/" (PyStr.lower resource_id) = true) in Hx.
        congruence. }
      destruct Hprof as [-> | ->]; unfold ARM_VERSIONS_stack, ARM_VERSIONS_ha;
        simpl longest_prefix_match; rewrite ?Hpn, ?Hpv, ?Hpc;
        destruct (String.prefix "resources/" p); reflexivity.
    + destruct Hprof as [-> | ->]; reflexivity.
Qed.

(** C4, at a failing input: the id of the local VM as the reconcilers
    build it, [baseId + 'microsoft.compute/virtualmachines/' + hostname].
    Both profiles give [compute/] the version 2019-07-01, which is also
    what the branch of [get_api_version] for [Microsoft.Compute/] appends;
    but the test is case-sensitive and the id spells the provider in lower
    case, so the generic version 2021-04-01 is appended.  The id of the
    cluster public address, built with [Microsoft.Network/], gets the
    network version. *)
Theorem get_api_version_lower_case_vm_id :
  let vm_id :=
    baseId sample_conf +:+ "microsoft.compute/virtualmachines/" +:+ hostname sample_conf in
  vm_id = sample_vm_id
  ∧ get_api_version vm_id = "?api-version=2021-04-01"%string
  ∧ spec_api_version "ha" vm_id = "2019-07-01"%string
  ∧ spec_api_version "stack-ha" vm_id = "2019-07-01"%string
  ∧ profile_version "compute/" (active_profile "ha") = Some "2019-07-01"%string
  ∧ profile_version "compute/" (active_profile "stack-ha") = Some "2019-07-01"%string
  ∧ get_api_version
      "/subscriptions/s/resourceGroups/rg/providers/Microsoft.Compute/virtualMachines/fw1"
    = "?api-version=2019-07-01"%string
  ∧ get_api_version (public_ip_id sample_conf) = "?api-version=2024-05-01"%string.
Proof. repeat split; by vm_compute. Qed.

(** * The event loop *)

Section ServerFacts.

Context {W : Type} (reconf : W → W * option exn) (poll : W → W)
        (utf8_ok : string → bool).

(** The only [str] the drain ever adds to the event set is [CHANGED]:
    what [recv] returns is added as [bytes]. *)
Lemma drain_str_tags (ds : list string) (errno : Z) (ev events : gset pyval) (s : string) :
  drain utf8_ok ds errno ev = Ok events →
  VStr s ∈ events → VStr s ∈ ev ∨ s = "CHANGED"%string.
Proof.
  revert ev. induction ds as [|d ds IH]; intros ev; simpl.
  - case_bool_decide; [|done]. intros [= <-] Hin.
    apply elem_of_union in Hin as [Hin | Hin]; [by left |].
    apply elem_of_singleton in Hin. right. congruence.
  - destruct (utf8_ok d); [|done]. intros Hd Hin.
    destruct (IH _ Hd Hin) as [Hev | ->]; [|by right].
    apply elem_of_union in Hev as [Hev | Hev]; [by left |].
    apply elem_of_singleton in Hev. discriminate.
Qed.

Lemma drain_no_tag (ds : list string) (errno : Z) (events : gset pyval) (s : string) :
  drain utf8_ok ds errno ∅ = Ok events →
  s ≠ "CHANGED"%string → VStr s ∉ events.
Proof.
  intros Hd Hs Hin. destruct (drain_str_tags _ _ _ _ _ Hd Hin) as [H | H]; [|done].
  by apply not_elem_of_empty in H.
Qed.

Lemma drain_CHANGED (ds : list string) (errno : Z) (ev events : gset pyval) :
  drain utf8_ok ds errno ev = Ok events → VStr "CHANGED" ∈ events.
Proof.
  revert ev. induction ds as [|d ds IH]; intros ev; simpl.
  - case_bool_decide; [|done]. intros [= <-].
    apply elem_of_union_r, elem_of_singleton. done.
  - destruct (utf8_ok d); [|done]. apply IH.
Qed.

(** After a drain that did not raise, the handlers run [poll] and nothing
    else. *)
Lemma run_handlers_after_drain (ds : list string) (errno : Z) (events : gset pyval)
    (w : W) (calls : list string) :
  drain utf8_ok ds errno ∅ = Ok events →
  run_handlers reconf poll events w calls = (poll w, calls ++ ["CHANGED"%string], None).
Proof.
  intros Hd. unfold run_handlers.
  rewrite bool_decide_eq_false_2 by (by eapply drain_no_tag).
  rewrite bool_decide_eq_true_2 by (by eapply drain_CHANGED).
  done.
Qed.

(** C3, what the code does: whatever the socket delivers, a datagram
    [STOP] included, [Server.run] never leaves its loop through the [STOP]
    test, never calls the [RECONF] handler, and calls [poll] once in every
    pass whose drain does not raise. *)
Theorem run_never_honours_STOP_or_RECONF (ticks : list tick) (w : W) (calls : list string) :
  (run reconf poll utf8_ok ticks w calls).2 ≠ Stopped
  ∧ ∃ k : nat,
      (run reconf poll utf8_ok ticks w calls).1.2 = calls ++ replicate k "CHANGED"%string.
Proof.
  revert w calls. induction ticks as [|t ticks IH]; intros w calls; simpl.
  - split; [done |]. exists 0%nat. simpl. by rewrite app_nil_r.
  - destruct (drain utf8_ok (dgrams t) (drain_errno t) ∅) as [events | e] eqn:Hd; simpl.
    + rewrite (run_handlers_after_drain _ _ _ _ _ Hd).
      rewrite bool_decide_eq_false_2 by (by eapply drain_no_tag).
      destruct (IH (poll w) (calls ++ ["CHANGED"%string])) as [Hne [k Hk]].
      split; [done |]. exists (S k). rewrite Hk, <- app_assoc. done.
    + split; [done |]. exists 0%nat. simpl. by rewrite app_nil_r.
Qed.

End ServerFacts.

(** The pass that drains [STOP] runs [poll] and the loop goes on to the
    next pass; the pass that drains [RECONF] runs [poll] only. *)
Example run_sample_STOP :
  run (λ w : nat, (w, None)) S (λ _, true) sample_stop_ticks 0%nat []
  = (2%nat, ["CHANGED"; "CHANGED"]%string, Running)
  ∧ run (λ w : nat, (w, None)) S (λ _, true) sample_reconf_ticks 0%nat []
    = (1%nat, ["CHANGED"]%string, Running).
Proof. split; vm_compute; reflexivity. Qed.

(** * The peer cleanup pass *)

Lemma string_eqb_eq (a b : string) : String.eqb a b = true ↔ a = b.
Proof. apply String.eqb_eq. Qed.

(** With pairwise distinct names, nothing after a match matches again. *)
Lemma no_second_match (name : string) (c : ipconf) (rest : list ipconf) :
  NoDup (lower_names (c :: rest)) →
  name_matches name c = true →
  List.filter (λ c', negb (name_matches name c')) rest = rest
  ∧ existsb (name_matches name) rest = false.
Proof.
  intros Hnd Hc. apply NoDup_cons in Hnd as [Hnotin _].
  apply string_eqb_eq in Hc.
  induction rest as [|d rest IH]; [done |].
  cbn [lower_names map] in Hnotin. fold (lower_names rest) in Hnotin.
  apply not_elem_of_cons in Hnotin as [Hne Hnotin].
  assert (Hd : name_matches name d = false).
  { destruct (name_matches name d) eqn:E; [|done].
    apply string_eqb_eq in E. congruence. }
  simpl. rewrite Hd. simpl.
  destruct (IH Hnotin) as [IH1 IH2].
  by rewrite IH1, IH2.
Qed.

(** [pop] at the index that [get_cluster_ip_index] found removes every
    ipConfiguration of that name when the names are pairwise distinct. *)
Lemma delete_first_match (i : Z) (ipcs : list ipconf) (name : string) :
  0 ≤ i →
  NoDup (lower_names ipcs) →
  let z := cluster_ip_index_from i ipcs name in
  (z = -1
   ∧ List.filter (λ c, negb (name_matches name c)) ipcs = ipcs
   ∧ existsb (name_matches name) ipcs = false)
  ∨ (i ≤ z
     ∧ delete (Z.to_nat (z - i)) ipcs = List.filter (λ c, negb (name_matches name c)) ipcs
     ∧ existsb (name_matches name) ipcs = true).
Proof.
  revert i. induction ipcs as [|c rest IH]; intros i Hi Hnd; simpl.
  - left. done.
  - fold (name_matches name c). destruct (name_matches name c) eqn:Hc; simpl.
    + right. split; [lia |]. rewrite Z.sub_diag. simpl.
      destruct (no_second_match name c rest Hnd Hc) as [Hf _]. by rewrite Hf.
    + assert (Hnd' : NoDup (lower_names rest)) by (by apply NoDup_cons in Hnd as [_ ?]).
      destruct (IH (i + 1) ltac:(lia) Hnd') as [(Hz & Hf & He) | (Hz & Hf & He)].
      * left. by rewrite Hz, Hf, He.
      * right. split; [lia |]. split; [|done].
        replace (Z.to_nat (cluster_ip_index_from (i + 1) rest name - i))
          with (S (Z.to_nat (cluster_ip_index_from (i + 1) rest name - (i + 1))))
          by lia.
        simpl. by rewrite Hf.
Qed.

Lemma lower_names_filter_NoDup (f : ipconf → bool) (ipcs : list ipconf) :
  NoDup (lower_names ipcs) → NoDup (lower_names (List.filter f ipcs)).
Proof.
  induction ipcs as [|c rest IH]; [done |]. intros Hnd.
  apply NoDup_cons in Hnd as [Hnotin Hnd].
  simpl. destruct (f c); [|by apply IH].
  simpl. apply NoDup_cons. split; [|by apply IH].
  intros Hin. apply Hnotin. unfold lower_names in *.
  apply list_elem_of_fmap in Hin as (d & Hd & Hin).
  apply list_elem_of_fmap. exists d. split; [done |].
  apply list_elem_of_In, filter_In in Hin as [Hin _]. by apply list_elem_of_In.
Qed.

Lemma filter_filter_vip (name : string) (names : list string) (ipcs : list ipconf) :
  List.filter (λ c, negb (is_vip names c))
    (List.filter (λ c, negb (name_matches name c)) ipcs)
  = List.filter (λ c, negb (is_vip (name :: names) c)) ipcs.
Proof.
  induction ipcs as [|c rest IH]; [done |]. simpl.
  destruct (name_matches name c); simpl; [done |].
  destruct (is_vip names c); simpl; by rewrite IH.
Qed.

Lemma existsb_filter_vip (name : string) (names : list string) (ipcs : list ipconf) :
  existsb (name_matches name) ipcs
  || existsb (is_vip names) (List.filter (λ c, negb (name_matches name c)) ipcs)
  = existsb (is_vip (name :: names)) ipcs.
Proof.
  induction ipcs as [|c rest IH]; [done |]. simpl.
  destruct (name_matches name c); simpl; [done |].
  rewrite <- IH. destruct (is_vip names c); simpl; [|done].
  by rewrite orb_true_r.
Qed.

Lemma filter_not_vip_nil (ipcs : list ipconf) :
  List.filter (λ c, negb (is_vip [] c)) ipcs = ipcs.
Proof. induction ipcs as [|c rest IH]; [done |]. simpl in *. by f_equal. Qed.

Lemma existsb_vip_nil (ipcs : list ipconf) : existsb (is_vip []) ipcs = false.
Proof. induction ipcs as [|c rest IH]; [done |]. done. Qed.

Lemma with_ipConfigurations_same (nic : resource) :
  with_ipConfigurations (r_ipConfigurations nic) nic = nic.
Proof. by destruct nic. Qed.

Lemma with_ipConfigurations_twice (l1 l2 : list ipconf) (nic : resource) :
  with_ipConfigurations l2 (with_ipConfigurations l1 nic) = with_ipConfigurations l2 nic.
Proof. done. Qed.

(** The loop of [remove_attached_vips] on a NIC with pairwise distinct
    names. *)
Lemma remove_attached_vips_from_distinct (names : list string) (nic : resource)
    (flag : bool) (idx : Z) :
  NoDup (lower_names (r_ipConfigurations nic)) →
  ∃ idx',
    remove_attached_vips_from names nic flag idx
    = (with_ipConfigurations
         (List.filter (λ c, negb (is_vip names c)) (r_ipConfigurations nic)) nic,
       flag || existsb (is_vip names) (r_ipConfigurations nic),
       idx').
Proof.
  revert nic flag idx. induction names as [|name names IH]; intros nic flag idx Hnd.
  - exists idx. simpl.
    by rewrite filter_not_vip_nil, existsb_vip_nil, orb_false_r, with_ipConfigurations_same.
  - cbn [remove_attached_vips_from]. unfold get_cluster_ip_index.
    destruct (delete_first_match 0 (r_ipConfigurations nic) name ltac:(lia) Hnd)
      as [(Hz & Hf & He) | (Hz & Hf & He)].
    + rewrite Hz. change (0 <=? -1) with false. cbn iota.
      destruct (IH nic flag (-1) Hnd) as [idx' ->]. exists idx'.
      rewrite <- filter_filter_vip, <- existsb_filter_vip, Hf, He. done.
    + rewrite Z.sub_0_r in Hf.
      destruct (0 <=? cluster_ip_index_from 0 (r_ipConfigurations nic) name) eqn:E; [|lia].
      rewrite Hf.
      edestruct (IH (with_ipConfigurations
                       (List.filter (λ c, negb (name_matches name c)) (r_ipConfigurations nic))
                       nic) true) as [idx' ->].
      { simpl. by apply lower_names_filter_NoDup. }
      exists idx'. cbn [r_ipConfigurations with_ipConfigurations].
      rewrite filter_filter_vip.
      rewrite <- (existsb_filter_vip name names), He. by rewrite orb_true_r.
Qed.

(** Whether or not the names are distinct: the index is [-1] exactly when
    no ipConfiguration matches. *)
Lemma cluster_ip_index_sign (i : Z) (ipcs : list ipconf) (name : string) :
  0 ≤ i →
  (cluster_ip_index_from i ipcs name = -1 ∧ existsb (name_matches name) ipcs = false)
  ∨ (i ≤ cluster_ip_index_from i ipcs name ∧ existsb (name_matches name) ipcs = true).
Proof.
  revert i. induction ipcs as [|c rest IH]; intros i Hi; simpl; [by left |].
  fold (name_matches name c). destruct (name_matches name c); simpl.
  - right. split; [lia | done].
  - destruct (IH (i + 1) ltac:(lia)) as [[-> ->] | [Hz ->]]; [by left |].
    right. split; [lia | done].
Qed.

Lemma remove_attached_vips_from_flagged (names : list string) (nic : resource) (idx : Z) :
  (remove_attached_vips_from names nic true idx).1.2 = true.
Proof.
  revert nic idx. induction names as [|n names IH]; intros nic idx; [done |].
  cbn [remove_attached_vips_from]. destruct (0 <=? _); apply IH.
Qed.

Lemma existsb_is_vip_cons (name : string) (names : list string) (ipcs : list ipconf) :
  existsb (is_vip (name :: names)) ipcs
  = existsb (name_matches name) ipcs || existsb (is_vip names) ipcs.
Proof.
  induction ipcs as [|c rest IH]; [done |].
  cbn [existsb]. rewrite IH. unfold is_vip at 1. cbn [existsb].
  fold (is_vip names c).
  destruct (name_matches name c), (is_vip names c),
    (existsb (name_matches name) rest), (existsb (is_vip names) rest); done.
Qed.

(** [flag_put] says whether some configured VIP name is on the peer NIC. *)
Lemma remove_attached_vips_from_flag (names : list string) (nic : resource)
    (flag : bool) (idx : Z) :
  (remove_attached_vips_from names nic flag idx).1.2
  = flag || existsb (is_vip names) (r_ipConfigurations nic).
Proof.
  revert nic flag idx. induction names as [|n names IH]; intros nic flag idx.
  - simpl. by rewrite existsb_vip_nil, orb_false_r.
  - cbn [remove_attached_vips_from]. unfold get_cluster_ip_index.
    rewrite existsb_is_vip_cons.
    destruct (cluster_ip_index_sign 0 (r_ipConfigurations nic) n ltac:(lia))
      as [[-> ->] | [Hz ->]].
    + change (0 <=? -1) with false. cbn iota. by rewrite IH.
    + destruct (0 <=? _) eqn:E; [|lia].
      rewrite remove_attached_vips_from_flagged. by rewrite orb_true_r.
Qed.

Lemma remove_attached_vips_flag (names : list string) (nic : resource) :
  (remove_attached_vips names nic).1.2 = existsb (is_vip names) (r_ipConfigurations nic).
Proof. unfold remove_attached_vips. by rewrite remove_attached_vips_from_flag. Qed.

(** Without a match the loop leaves the NIC as it is. *)
Lemma remove_attached_vips_from_unflagged (names : list string) (nic : resource)
    (flag : bool) (idx : Z) :
  existsb (is_vip names) (r_ipConfigurations nic) = false →
  (remove_attached_vips_from names nic flag idx).1.1 = nic.
Proof.
  revert idx. induction names as [|n names IH]; intros idx; [done |].
  rewrite existsb_is_vip_cons. intros H. apply orb_false_iff in H as [Hn Hrest].
  cbn [remove_attached_vips_from]. unfold get_cluster_ip_index.
  destruct (cluster_ip_index_sign 0 (r_ipConfigurations nic) n ltac:(lia))
    as [[-> _] | [_ Ht]]; [|congruence].
  change (0 <=? -1) with false. cbn iota. by apply IH.
Qed.

(** C8, amended.  On a peer NIC whose ipConfiguration names are pairwise
    distinct when compared in lower case, the cleanup pass removes every
    ipConfiguration whose name matches a configured VIP name and keeps the
    others in order; its flag says whether anything matched.  (For each
    configured name the pass removes the first match only, which is every
    match under that condition.) *)
Theorem remove_attached_vips_distinct (vip_names : list string) (peer_nic : resource) :
  NoDup (lower_names (r_ipConfigurations peer_nic)) →
  let kept := List.filter (λ c, negb (is_vip vip_names c)) (r_ipConfigurations peer_nic) in
  (remove_attached_vips vip_names peer_nic).1.1 = with_ipConfigurations kept peer_nic
  ∧ (remove_attached_vips vip_names peer_nic).1.2
    = existsb (is_vip vip_names) (r_ipConfigurations peer_nic)
  ∧ (∀ c name, In c kept → In name vip_names → name_matches name c = false)
  ∧ (∀ c, In c (r_ipConfigurations peer_nic) → is_vip vip_names c = false → In c kept).
Proof.
  intros Hnd kept.
  destruct (remove_attached_vips_from_distinct vip_names peer_nic false (-1) Hnd)
    as [idx' Hr].
  unfold remove_attached_vips. rewrite Hr. simpl.
  split; [done |]. split; [done |]. split.
  - intros c name Hc Hname. apply filter_In in Hc as [_ Hc].
    apply negb_true_iff in Hc.
    destruct (name_matches name c) eqn:E; [|done].
    assert (is_vip vip_names c = true); [|congruence].
    apply existsb_exists. by exists name.
  - intros c Hc Hv. apply filter_In. by rewrite Hv.
Qed.

Lemma remove_attached_vips_distinct_witness :
  (remove_attached_vips ["cluster-vip"%string] sample_peer_nic).1.1
  = with_ipConfigurations [sample_ipconf "ipconfig1" "10.0.0.5" true] sample_peer_nic.
Proof.
  apply (remove_attached_vips_distinct ["cluster-vip"%string] sample_peer_nic).
  apply (bool_decide_unpack _). by vm_compute.
Defined.

(** C8 as stated fails: of two ipConfigurations that match the configured
    name, only the first is removed. *)
Lemma remove_attached_vips_keeps_second_match :
  (remove_attached_vips ["cluster-vip"%string] sample_peer_nic_twice).1.1
  = with_ipConfigurations
      [ sample_ipconf "ipconfig1" "10.0.0.5" true;
        sample_ipconf "Cluster-VIP" "10.0.0.11" false ] sample_peer_nic_twice
  ∧ name_matches "cluster-vip" (sample_ipconf "Cluster-VIP" "10.0.0.11" false) = true.
Proof. split; reflexivity. Qed.

(** * The safe PUT *)

Lemma requests_app (e1 e2 : list event) : requests (e1 ++ e2) = requests e1 ++ requests e2.
Proof. unfold requests. apply omap_app. Qed.

Section SafePut.

Context {S : Type}.
Context {fmt : PyFormat}.
Variable arm : list event → method → string → option resource → arm_outcome.

(** The standard PUT sends one request and logs one record. *)
Lemma standard_put_run (rid : string) (body : resource) (desc : string) (s : S)
    (h : list event) :
  let url := rid +:+ get_api_version rid in
  standard_put arm rid body desc s h =
  match arm h PUT url (Some body) with
  | ArmReturn hd d =>
      if String.eqb (response_code hd) "200" then
        (s, [EArm PUT url (Some body); ELog INFO ("✅ " +:+ desc +:+ " succeeded")],
         Ok (Some d))
      else
        (s, [EArm PUT url (Some body);
             ELog ERROR ("Failed " +:+ desc +:+ " - HTTP " +:+ response_code hd
                         +:+ ": " +:+ str_result (hd, d))],
         Ok None)
  | ArmRaise e => (s, [EArm PUT url (Some body)], Raise e)
  end.
Proof.
  unfold standard_put, bind, azure_arm, log, emit, ret. simpl.
  destruct (arm h PUT _ _) as [hd d | e]; [|done].
  simpl. destruct (String.eqb (response_code hd) "200"); done.
Qed.

(** [safe_arm_put] once its first attempt has been run. *)
Lemma safe_arm_put_run (rid : string) (body : resource) (desc : string) (s : S)
    (h : list event) :
  let h0 := h ++ [ESafePut rid body desc] in
  safe_arm_put arm rid body desc s h =
  match first_attempt arm rid body desc s h0 with
  | (s1, e1, Ok (Some d)) => (s1, ESafePut rid body desc :: e1, Ok (Some d))
  | (s1, e1, Ok None) =>
      match standard_put arm rid body desc s1 (h0 ++ e1) with
      | (s2, e2, Ok v) => (s2, ESafePut rid body desc :: e1 ++ e2, Ok v)
      | (s2, e2, Raise e) =>
          match put_handler body desc e s2 (h0 ++ e1 ++ e2) with
          | (s3, e3, r) => (s3, ESafePut rid body desc :: (e1 ++ e2) ++ e3, r)
          end
      end
  | (s1, e1, Raise e) =>
      match put_handler body desc e s1 (h0 ++ e1) with
      | (s3, e3, r) => (s3, ESafePut rid body desc :: e1 ++ e3, r)
      end
  end.
Proof.
  unfold safe_arm_put, bind, try_catch, emit. simpl.
  destruct (first_attempt arm rid body desc s _) as [[s1 e1] [[d|]|e]]; simpl.
  - by rewrite app_nil_r.
  - destruct (standard_put arm rid body desc s1 _) as [[s2 e2] [v|e]]; simpl.
    + done.
    + by destruct (put_handler body desc e s2 _) as [[s3 e3] r].
  - by destruct (put_handler body desc e s1 _) as [[s3 e3] r].
Qed.


Lemma put_handler_other (body : resource) (desc : string) (e : exn) (s : S) (h : list event) :
  is_edge_conflict e = false →
  ∃ evs, put_handler body desc e s h = (s, evs, Raise e)
         ∧ Forall (λ ev, is_put ev = false) evs.
Proof.
  intros He. destruct e as [code msg | | kind]; simpl in *.
  - rewrite He. eexists. split; [done |]. by repeat constructor.
  - eexists. split; [done |]. constructor.
  - eexists. split; [done |]. constructor.
Qed.

(** None of the steps of [safe_arm_put] touches the state or calls
    [safe_arm_put] again. *)
Ltac crunch_run :=
  repeat match goal with
         | |- context [match ?x with _ => _ end] =>
             match type of x with
             | arm_outcome => destruct x eqn:?
             | option _ => destruct x eqn:?
             | bool => destruct x eqn:?
             | jval => destruct x eqn:?
             | exn => destruct x eqn:?
             | result _ => destruct x eqn:?
             end
         | |- context [if ?x then _ else _] => destruct x eqn:?
         end; simpl.

Lemma extended_zone_context_quiet (body : resource) (desc : string) (s : S) (h : list event) :
  (extended_zone_context body desc s h).1.1 = s
  ∧ Forall (λ ev, is_safe_put ev = false ∧ is_put ev = false)
      (extended_zone_context body desc s h).1.2.
Proof.
  unfold extended_zone_context, jget, bind, log, emit, ret, raise.
  crunch_run; (split; [done |]); repeat constructor.
Qed.

Lemma enhanced_attempt_quiet (rid : string) (body : resource) (desc : string) (ctx : jval)
    (s : S) (h : list event) :
  (enhanced_attempt arm rid body desc ctx s h).1.1 = s
  ∧ Forall (λ ev, is_safe_put ev = false) (enhanced_attempt arm rid body desc ctx s h).1.2.
Proof.
  unfold enhanced_attempt, try_catch, bind, azure_arm, log, emit, ret, raise.
  simpl. crunch_run; (split; [done |]); repeat constructor.
Qed.

Lemma first_attempt_quiet (rid : string) (body : resource) (desc : string)
    (s : S) (h : list event) :
  (first_attempt arm rid body desc s h).1.1 = s
  ∧ Forall (λ ev, is_safe_put ev = false) (first_attempt arm rid body desc s h).1.2.
Proof.
  unfold first_attempt, bind.
  pose proof (extended_zone_context_quiet body desc s h) as [Hs Hev].
  destruct (extended_zone_context body desc s h) as [[s1 e1] [[c|]|e]]; simpl in *; subst.
  - pose proof (enhanced_attempt_quiet rid body desc c s (h ++ e1)) as [Hs' Hev'].
    destruct (enhanced_attempt arm rid body desc c s (h ++ e1)) as [[s2 e2] r]; simpl in *.
    split; [done |]. apply Forall_app. split; [|done].
    eapply Forall_impl; [exact Hev | by intros ? []].
  - split; [done |]. rewrite app_nil_r.
    eapply Forall_impl; [exact Hev | by intros ? []].
  - split; [done |]. eapply Forall_impl; [exact Hev | by intros ? []].
Qed.

Lemma standard_put_quiet (rid : string) (body : resource) (desc : string)
    (s : S) (h : list event) :
  (standard_put arm rid body desc s h).1.1 = s
  ∧ Forall (λ ev, is_safe_put ev = false) (standard_put arm rid body desc s h).1.2.
Proof.
  rewrite standard_put_run. crunch_run; (split; [done |]); repeat constructor.
Qed.

Lemma put_handler_quiet (body : resource) (desc : string) (e : exn) (s : S) (h : list event) :
  (put_handler body desc e s h).1.1 = s
  ∧ Forall (λ ev, is_safe_put ev = false) (put_handler body desc e s h).1.2.
Proof.
  unfold put_handler, bind, log, emit, ret, raise.
  crunch_run; (split; [done |]); repeat constructor.
Qed.

(** A call of [safe_arm_put] leaves the state alone and is recorded once,
    first, in what it emits. *)
Lemma safe_arm_put_events (rid : string) (body : resource) (desc : string)
    (s : S) (h : list event) :
  ∃ rest r,
    safe_arm_put arm rid body desc s h = (s, ESafePut rid body desc :: rest, r)
    ∧ Forall (λ ev, is_safe_put ev = false) rest.
Proof.
  rewrite safe_arm_put_run.
  pose proof (first_attempt_quiet rid body desc s (h ++ [ESafePut rid body desc])) as [Hs1 He1].
  destruct (first_attempt arm rid body desc s _) as [[s1 e1] [[d|]|e]]; simpl in *; subst.
  - by eauto.
  - pose proof (standard_put_quiet rid body desc s ((h ++ [ESafePut rid body desc]) ++ e1))
      as [Hs2 He2].
    destruct (standard_put arm rid body desc s _) as [[s2 e2] [v|e]]; simpl in *; subst.
    + eexists _, _. split; [done |]. by apply Forall_app.
    + pose proof (put_handler_quiet body desc e s
                    ((h ++ [ESafePut rid body desc]) ++ e1 ++ e2)) as [Hs3 He3].
      destruct (put_handler body desc e s _) as [[s3 e3] r]; simpl in *; subst.
      eexists _, _. split; [done |]. apply Forall_app. split; [|done]. by apply Forall_app.
  - pose proof (put_handler_quiet body desc e s ((h ++ [ESafePut rid body desc]) ++ e1))
      as [Hs3 He3].
    destruct (put_handler body desc e s _) as [[s3 e3] r]; simpl in *; subst.
    eexists _, _. split; [done |]. by apply Forall_app.
Qed.

(** A conflict on the first, edge-zone attempt is logged as a warning and
    control falls through to the standard PUT. *)
Lemma enhanced_attempt_conflict (rid : string) (body : resource) (desc msg : string)
    (ctx : jval) (s : S) (h : list event) :
  let enhanced :=
    match r_extendedLocation body with
    | None => with_extendedLocation ctx body
    | Some _ => body
    end in
  let url := rid +:+ get_api_version rid in
  let e1 := [ ELog INFO ("Attempting Enhanced Extended Zone ARM PUT for " +:+ desc);
              ELog DEBUG ("Extended Zone context: " +:+ str_json ctx) ] in
  arm (h ++ e1) PUT url (Some enhanced) = ArmRaise (RequestException 409 msg) →
  PyStr.contains "InvalidExtendedLocation" msg = true →
  enhanced_attempt arm rid body desc ctx s h =
  (s, e1 ++ [ EArm PUT url (Some enhanced);
              ELog WARNING ("Extended Zone ARM PUT failed for " +:+ desc +:+ ": " +:+ msg) ],
   Ok None).
Proof.
  intros enhanced url e1 Harm Hm.
  unfold enhanced_attempt, try_catch, bind, azure_arm, log, emit, ret. simpl.
  fold enhanced. fold url.
  change (h ++ [ELog INFO ("Attempting Enhanced Extended Zone ARM PUT for " +:+ desc)])
    with (h ++ [ELog INFO ("Attempting Enhanced Extended Zone ARM PUT for " +:+ desc)]).
  rewrite <- app_assoc. simpl. fold e1. rewrite Harm. simpl.
  unfold is_invalid_extended_location. rewrite Hm. simpl. done.
Qed.


(** C6, amended.  When control reaches the standard PUT of [safe_arm_put]:
    an exception it raises, other than the 409 edge-zone conflict, reaches
    the caller; a response whose code is not 200 makes the call log an
    error and return [None] without raising. *)
Theorem safe_arm_put_other_outcomes (rid : string) (body : resource) (desc : string)
    (s s1 : S) (h e1 : list event) :
  let h0 := h ++ [ESafePut rid body desc] in
  let url := rid +:+ get_api_version rid in
  first_attempt arm rid body desc s h0 = (s1, e1, Ok None) →
  (∀ e, arm (h0 ++ e1) PUT url (Some body) = ArmRaise e →
        is_edge_conflict e = false →
        ∃ evs, safe_arm_put arm rid body desc s h = (s1, evs, Raise e))
  ∧ (∀ hd d, arm (h0 ++ e1) PUT url (Some body) = ArmReturn hd d →
             response_code hd ≠ "200"%string →
             ∃ evs, safe_arm_put arm rid body desc s h = (s1, evs, Ok None)
                    ∧ In (ELog ERROR ("Failed " +:+ desc +:+ " - HTTP " +:+ response_code hd
                                      +:+ ": " +:+ str_result (hd, d)))
                         evs).
Proof.
  intros h0 url Hfirst. split.
  - intros e Harm He.
    rewrite safe_arm_put_run. fold h0. rewrite Hfirst.
    rewrite standard_put_run. fold url. rewrite Harm.
    destruct (put_handler_other body desc e s1
                (h0 ++ e1 ++ [EArm PUT url (Some body)]) He) as (evs & -> & _).
    by eexists.
  - intros hd d Harm Hcode.
    rewrite safe_arm_put_run. fold h0. rewrite Hfirst.
    rewrite standard_put_run. fold url. rewrite Harm.
    destruct (String.eqb_spec (response_code hd) "200") as [|_]; [done |].
    eexists. split; [reflexivity |].
    right. apply in_or_app. right. simpl. by right; left.
Qed.

(** An exception of the first attempt other than the conflict also reaches
    the caller. *)
Lemma safe_arm_put_first_attempt_raises (rid : string) (body : resource) (desc : string)
    (s s1 : S) (h e1 : list event) (e : exn) :
  first_attempt arm rid body desc s (h ++ [ESafePut rid body desc]) = (s1, e1, Raise e) →
  is_edge_conflict e = false →
  ∃ evs, safe_arm_put arm rid body desc s h = (s1, evs, Raise e).
Proof.
  intros Hfirst He. rewrite safe_arm_put_run, Hfirst.
  destruct (put_handler_other body desc e s1
              ((h ++ [ESafePut rid body desc]) ++ e1) He) as (evs & -> & _).
  by eexists.
Qed.

(** [is_resource_ready] on a resource in state [Succeeded], and in any
    state: the only write it makes is the reset of the resource itself. *)
Lemma is_resource_ready_succeeded (r : resource) (s : S) (h : list event) :
  r_provisioningState r = "Succeeded"%string →
  is_resource_ready arm r s h = (s, [], Ok true).
Proof. intros Hs. unfold is_resource_ready. rewrite Hs. done. Qed.


(** The three ways [is_resource_ready] ends. *)
Lemma is_resource_ready_cases (r : resource) (s : S) (h : list event) :
  (r_provisioningState r = "Succeeded"%string
   ∧ is_resource_ready arm r s h = (s, [], Ok true))
  ∨ (r_provisioningState r ≠ "Succeeded"%string
     ∧ r_provisioningState r ≠ "Failed"%string
     ∧ is_resource_ready arm r s h = (s, [], Ok false))
  ∨ (r_provisioningState r = "Failed"%string
     ∧ ∃ rest res,
         is_resource_ready arm r s h
         = (s, ESafePut (r_id r) r "resource reset" :: rest, res)
         ∧ Forall (λ ev, is_safe_put ev = false) rest
         ∧ (res = Ok false ∨ ∃ e, res = Raise e)).
Proof.
  unfold is_resource_ready.
  destruct (String.eqb_spec (r_provisioningState r) "Succeeded") as [Hs | Hs].
  - left. done.
  - right. destruct (String.eqb_spec (r_provisioningState r) "Failed") as [Hf | Hf].
    + right. split; [done |]. unfold bind, ret.
      destruct (safe_arm_put_events (r_id r) r "resource reset" s h)
        as (rest & res & -> & Hquiet).
      destruct res as [v | e]; simpl.
      * exists rest, (Ok false). rewrite !app_nil_r. by eauto.
      * exists rest, (Raise e). by eauto.
    + left. done.
Qed.

Lemma first_attempt_unmarked (rid : string) (body : resource) (desc : string)
    (s : S) (h : list event) :
  unmarked body = true →
  first_attempt arm rid body desc s h = (s, [], Ok None).
Proof.
  unfold unmarked, first_attempt, extended_zone_context, bind, ret.
  intros [H1 H2]%andb_true_iff.
  destruct (r_extendedLocation body) as [v|], (r_vnetExtendedLocation body) as [w|];
    repeat match goal with
           | H : negb ?b = true |- _ => apply negb_true_iff in H; rewrite H
           end; done.
Qed.

Lemma put_handler_requests (body : resource) (desc : string) (e : exn) (s : S)
    (h : list event) :
  requests (put_handler body desc e s h).1.2 = [].
Proof.
  unfold put_handler, bind, log, emit, ret, raise.
  destruct e as [code msg | | kind]; [| done | done].
  destruct (is_invalid_extended_location code msg); done.
Qed.

Lemma standard_put_requests (rid : string) (body : resource) (desc : string) (s : S)
    (h : list event) :
  requests (standard_put arm rid body desc s h).1.2
  = [(PUT, rid +:+ get_api_version rid, Some body)].
Proof.
  rewrite standard_put_run.
  destruct (arm h PUT _ _) as [hd d | e]; [| done].
  destruct (String.eqb (response_code hd) "200"); done.
Qed.

Lemma extended_zone_context_requests (body : resource) (desc : string) (s : S)
    (h : list event) :
  requests (extended_zone_context body desc s h).1.2 = [].
Proof.
  unfold extended_zone_context, jget, bind, log, emit, ret, raise.
  destruct (r_extendedLocation body) as [v|], (r_vnetExtendedLocation body) as [w|];
    repeat match goal with
           | |- context [if ?x then _ else _] => destruct x
           | |- context [match ?x with _ => _ end] =>
               match type of x with jval => destruct x end
           end; done.
Qed.

Lemma enhanced_attempt_requests (rid : string) (body : resource) (desc : string)
    (ctx : jval) (s : S) (h : list event) :
  requests (enhanced_attempt arm rid body desc ctx s h).1.2
  = [(PUT, rid +:+ get_api_version rid,
      Some (match r_extendedLocation body with
            | None => with_extendedLocation ctx body
            | Some _ => body
            end))].
Proof.
  unfold enhanced_attempt, try_catch, bind, azure_arm, log, emit, ret, raise. simpl.
  destruct (arm _ PUT _ _) as [hd d | e]; simpl.
  - destruct (String.eqb (response_code hd) "200"); done.
  - destruct e as [code msg | | kind]; [| done | done].
    destruct (is_invalid_extended_location code msg); done.
Qed.

(** The first attempt sends nothing and does not return from
    [safe_arm_put], or sends one PUT of the body with [extendedLocation]
    set. *)
Lemma first_attempt_requests (rid : string) (body : resource) (desc : string)
    (s : S) (h : list event) :
  let r := first_attempt arm rid body desc s h in
  (requests r.1.2 = [] ∧ ∀ d, r.2 ≠ Ok (Some d))
  ∨ ∃ ctx,
      requests r.1.2
      = [(PUT, rid +:+ get_api_version rid,
          Some (match r_extendedLocation body with
                | None => with_extendedLocation ctx body
                | Some _ => body
                end))].
Proof.
  unfold first_attempt, bind.
  pose proof (extended_zone_context_requests body desc s h) as Hctx.
  destruct (extended_zone_context body desc s h) as [[s1 e1] [[c|]|e]]; simpl in *.
  - right. exists c.
    pose proof (enhanced_attempt_requests rid body desc c s1 (h ++ e1)) as Henh.
    destruct (enhanced_attempt arm rid body desc c s1 (h ++ e1)) as [[s2 e2] r]; simpl in *.
    by rewrite requests_app, Hctx, Henh.
  - left. rewrite app_nil_r. by split.
  - left. by split.
Qed.


End SafePut.

Section SafePutSamples.

#[local] Existing Instance sample_format.


Lemma safe_arm_put_other_outcomes_witness :
  (∃ evs,
     safe_arm_put cloud_broken sample_nic_id sample_my_nic "my eth0 VIP addition" tt []
     = (tt, evs, Raise (RequestException 500 "InternalServerError")))
  ∧ (∃ evs,
       safe_arm_put cloud_accepted sample_nic_id sample_my_nic "my eth0 VIP addition" tt []
       = (tt, evs, Ok None)
       ∧ In (ELog ERROR "Failed my eth0 VIP addition - HTTP 202: (...)") evs).
Proof.
  split.
  - apply (proj1 (safe_arm_put_other_outcomes cloud_broken sample_nic_id sample_my_nic
                    "my eth0 VIP addition" tt tt [] [] eq_refl)
             (RequestException 500 "InternalServerError")); reflexivity.
  - refine (proj2 (safe_arm_put_other_outcomes cloud_accepted sample_nic_id sample_my_nic
                     "my eth0 VIP addition" tt tt [] [] eq_refl)
              (HdrDict (Some "202"%string)) (DResource sample_my_nic) _ _);
      [reflexivity | done].
Defined.


(** C6 as stated fails: a PUT answered with [202] is neither a [200] nor
    the conflict, and the call returns [None] without raising. *)
Lemma safe_arm_put_returns_None_on_202 :
  (safe_arm_put cloud_accepted sample_nic_id sample_my_nic "my eth0 VIP addition" tt []).2
  = Ok None
  ∧ List.filter is_put
      (safe_arm_put cloud_accepted sample_nic_id sample_my_nic "my eth0 VIP addition" tt []).1.2
    = [EArm PUT (sample_nic_id +:+ get_api_version sample_nic_id) (Some sample_my_nic)].
Proof. split; by vm_compute. Qed.

End SafePutSamples.

(** * The route-table reconciler *)

Lemma mem_In (x : string) (l : list string) : PyStr.mem x l = true ↔ In x l.
Proof.
  unfold PyStr.mem. rewrite existsb_exists. split.
  - intros (y & Hy & E). apply String.eqb_eq in E. by subst.
  - intros H. exists x. split; [done |]. apply String.eqb_refl.
Qed.


Lemma contains_slash_cons (a : ascii) (s : string) :
  PyStr.contains "/" (String a s) = Ascii.eqb a "/" || PyStr.contains "/" s.
Proof.
  cbn [PyStr.contains]. f_equal.
  change (String.prefix "/" (String a s))
    with (if ascii_dec "/" a then String.prefix "" s else false).
  destruct (ascii_dec "/" a) as [<- | Hne].
  - by destruct s.
  - symmetry. apply Ascii.eqb_neq. congruence.
Qed.


Lemma split_no_slash (s : string) :
  PyStr.contains "/" s = false → PyStr.split "/" s = [s].
Proof.
  induction s as [|a s IH]; [done |].
  rewrite contains_slash_cons. intros H. apply orb_false_iff in H as [Ha Hs].
  simpl. rewrite Ha, (IH Hs). done.
Qed.






Section RouteTableFacts.

Context {fmt : PyFormat}.


End RouteTableFacts.

Section RouteTableSamples.

#[local] Existing Instance sample_format.


(** The fifth scenario of the specification: the default route is
    rewritten, the peer's host route is left, and the table is PUT once. *)
Example route_table_scenario :
  (process_route_table cloud_route_table sample_conf sample_route_table_id tt []).2 = Ok false
  ∧ List.filter is_safe_put
      (process_route_table cloud_route_table sample_conf sample_route_table_id tt []).1.2
    = [ ESafePut sample_route_table_id
          (with_routes [ with_nextHopIpAddress "10.0.1.4" sample_default_route;
                         sample_host_route ] sample_route_table)
          "route table update" ]
  ∧ List.filter is_put
      (process_route_table cloud_route_table sample_conf sample_route_table_id tt []).1.2
    = [ EArm PUT (sample_route_table_id +:+ get_api_version sample_route_table_id)
          (Some (with_routes [ with_nextHopIpAddress "10.0.1.4" sample_default_route;
                               sample_host_route ] sample_route_table)) ].
Proof. repeat split; by vm_compute. Qed.


End RouteTableSamples.

(** * The public-address reconciler *)

(** A computation that ends with a value went through both halves of a
    [bind]. *)
Lemma bind_Ok_inv {S A B : Type} (m : M S A) (f : A → M S B) (s s' : S)
    (h evs : list event) (b : B) :
  bind m f s h = (s', evs, Ok b) →
  ∃ s1 e1 a e2,
    m s h = (s1, e1, Ok a) ∧ f a s1 (h ++ e1) = (s', e2, Ok b) ∧ evs = e1 ++ e2.
Proof.
  unfold bind. destruct (m s h) as [[s1 e1] [a | e]]; [|done].
  destruct (f a s1 (h ++ e1)) as [[s2 e2] r] eqn:Hf.
  intros [= -> <- ->]. by exists s1, e1, a, e2.
Qed.

Section PublicAddressFacts.

Context {fmt : PyFormat}.
Variable arm : list event → method → string → option resource → arm_outcome.
Variable conf : config.

Lemma azure_arm_GET_no_put {S : Type} (url : string) (s s' : S) (h evs : list event)
    (r : result (headers * arm_data)) :
  azure_arm arm GET url None s h = (s', evs, r) → no_put evs.
Proof.
  unfold azure_arm. destruct (arm h GET url None); intros [= <- <- <-];
    by repeat constructor.
Qed.

Lemma read_non_cp_nat_rules_no_put (s s' : unit) (h evs : list event)
    (r : result (list string)) :
  read_non_cp_nat_rules arm conf s h = (s', evs, r) → no_put evs.
Proof.
  unfold read_non_cp_nat_rules.
  destruct (lbName conf) as [name|]; [|by intros [= <- <- <-]; constructor].
  destruct (negb _); [|by intros [= <- <- <-]; constructor].
  unfold try_catch, bind, azure_arm, as_lb, ret, raise.
  destruct (arm h GET _ None) as [hd d | e]; simpl.
  - destruct d; simpl; intros [= <- <- <-]; by repeat constructor.
  - destruct e as [code msg | |]; simpl; [destruct (code =? 404) |..]; simpl;
      intros [= <- <- <-]; by repeat constructor.
Qed.

Lemma get_vm_primary_nic_no_put (v : vm) (s s' : unit) (h evs : list event)
    (r : result resource) :
  get_vm_primary_nic arm v s h = (s', evs, r) → no_put evs.
Proof.
  unfold get_vm_primary_nic.
  destruct (match vm_networkInterfaces v with
            | [ni] => Some ni
            | _ => first_primary (vm_networkInterfaces v)
            end) as [ni|]; [|by intros [= <- <- <-]; constructor].
  unfold bind, azure_arm, as_resource, ret, raise.
  destruct (arm h GET _ None) as [hd d | e]; simpl.
  - destruct d; simpl; intros [= <- <- <-]; by repeat constructor.
  - intros [= <- <- <-]; by repeat constructor.
Qed.

Lemma read_public_ip_no_put (id : string) (s s' : unit) (h evs : list event)
    (r : result (option arm_data)) :
  read_public_ip arm id s h = (s', evs, r) → no_put evs.
Proof.
  unfold read_public_ip, try_catch, bind, azure_arm, ret, raise.
  destruct (arm h GET _ None) as [hd d | e]; simpl.
  - intros [= <- <- <-]; by repeat constructor.
  - destruct e as [code msg | |]; simpl; [destruct (negb _) |..]; simpl;
      intros [= <- <- <-]; by repeat constructor.
Qed.

(** A resource found ready has state [Succeeded], and finding it so emits
    nothing. *)
Lemma is_resource_ready_true {S : Type} (r : resource) (s s' : S) (h evs : list event) :
  is_resource_ready arm r s h = (s', evs, Ok true) →
  r_provisioningState r = "Succeeded"%string ∧ evs = [] ∧ s' = s.
Proof.
  unfold is_resource_ready.
  destruct (String.eqb_spec (r_provisioningState r) "Succeeded") as [-> | Hne].
  - by intros [= <- <-].
  - unfold bind, ret.
    destruct (String.eqb _ "Failed").
    + destruct (safe_arm_put arm (r_id r) r "resource reset" s h) as [[s1 e1] [v | e]];
        simpl; [|done]. intros [=].
    + simpl. intros [=].
Qed.

(** What the reconciler has read when it reaches its decision: both NICs
    are ready and nothing has been written. *)
Lemma observe_public_address_inr (h evs : list event) (o : observed) :
  observe_public_address arm conf tt h = (tt, evs, Ok (inr o)) →
  no_put evs
  ∧ r_provisioningState (my_nic o) = "Succeeded"%string
  ∧ r_provisioningState (peer_nic o) = "Succeeded"%string
  ∧ r_ipConfigurations (my_nic o) !! 0%nat = Some (my_ip_conf o)
  ∧ r_ipConfigurations (peer_nic o) !! 0%nat = Some (peer_ip_conf o).
Proof.
  unfold observe_public_address. intros H.
  apply bind_Ok_inv in H as ([] & e1 & rules & e1' & H1 & H & ->).
  apply read_non_cp_nat_rules_no_put in H1.
  apply bind_Ok_inv in H as ([] & e2 & me & e2' & H2 & H & ->).
  apply azure_arm_GET_no_put in H2.
  apply bind_Ok_inv in H as ([] & e4 & peer & e4' & H4 & H & ->).
  apply azure_arm_GET_no_put in H4.
  apply bind_Ok_inv in H as ([] & e3 & mev & e3' & H3 & H & ->).
  assert (e3 = []) as -> by (destruct (me.2); simpl in H3; by inversion H3).
  apply bind_Ok_inv in H as ([] & e6 & mynic & e6' & H6 & H & ->).
  apply get_vm_primary_nic_no_put in H6.
  apply bind_Ok_inv in H as ([] & e7 & ready & e7' & H7 & H & ->).
  destruct ready; simpl in H; [|by inversion H].
  apply is_resource_ready_true in H7 as (Hmy & -> & _).
  apply bind_Ok_inv in H as ([] & e8 & myc & e8' & H8 & H & ->).
  assert (e8 = [] ∧ r_ipConfigurations mynic !! 0%nat = Some myc) as [-> Hmyc].
  { unfold first_ipconf in H8. destruct (r_ipConfigurations mynic); by inversion H8. }
  apply bind_Ok_inv in H as ([] & e5 & peerv & e5' & H5 & H & ->).
  assert (e5 = []) as -> by (destruct (peer.2); simpl in H5; by inversion H5).
  apply bind_Ok_inv in H as ([] & e9 & peernic & e9' & H9 & H & ->).
  apply get_vm_primary_nic_no_put in H9.
  apply bind_Ok_inv in H as ([] & e10 & ready & e10' & H10 & H & ->).
  destruct ready; simpl in H; [|by inversion H].
  apply is_resource_ready_true in H10 as (Hpeer & -> & _).
  apply bind_Ok_inv in H as ([] & e11 & peerc & e11' & H11 & H & ->).
  assert (e11 = [] ∧ r_ipConfigurations peernic !! 0%nat = Some peerc) as [-> Hpeerc].
  { unfold first_ipconf in H11. destruct (r_ipConfigurations peernic); by inversion H11. }
  apply bind_Ok_inv in H as ([] & e12 & pip & e12' & H12 & H & ->).
  apply read_public_ip_no_put in H12.
  inversion H; subst; simpl.
  split; [|done].
  unfold no_put in *. rewrite !Forall_app. repeat split; try done; by constructor.
Qed.

(** Once both primary NICs were read and found ready, the reconciler sends
    no PUT and returns [False] exactly when its guard [Interface already
    set] holds of what it read. *)
Lemma set_public_address_done_observed (h evs : list event) (o : observed) :
  observe_public_address arm conf tt h = (tt, evs, Ok (inr o)) →
  (no_put (set_public_address arm conf tt h).1.2
   ∧ (set_public_address arm conf tt h).2 = Ok false)
  ↔ ((public_ip_absent o = true ∨ is_Some (ipc_publicIPAddress (my_ip_conf o)))
     ∧ non_cp_nat_rules o ⊆ my_nat_rules o).
Proof.
  intros Hobs.
  destruct (observe_public_address_inr h evs o Hobs) as (Hevs & _).
  assert (Hguard : already_set o = true
                   ↔ (public_ip_absent o = true
                      ∨ is_Some (ipc_publicIPAddress (my_ip_conf o)))
                     ∧ non_cp_nat_rules o ⊆ my_nat_rules o).
  { unfold already_set. rewrite andb_true_iff, orb_true_iff, !bool_decide_eq_true. done. }
  rewrite <- Hguard.
  unfold set_public_address, bind. rewrite Hobs. unfold decide_public_address.
  destruct (already_set o) eqn:Hset; simpl.
  - split; [done |]. intros _. split; [|done]. by rewrite app_nil_r.
  - split; [|done]. intros [_ Hres]. exfalso.
    destruct (peer_holds o).
    + unfold bind, ret in Hres.
      destruct (safe_arm_put arm _ _ "peer NIC public IP disassociation" tt (h ++ evs))
        as [[s1 e1] [v | e]]; simpl in Hres; discriminate.
    + unfold bind, ret in Hres.
      destruct (safe_arm_put arm _ _ "my NIC public IP association" tt (h ++ evs))
        as [[s1 e1] [v | e]]; simpl in Hres; discriminate.
Qed.

(** The first element flagged [primary], or else the last element. *)
Lemma first_primary_spec (nis : list (string * option bool)) (dflt : string * option bool) :
  nis ≠ [] →
  first_primary nis
  = Some (default (List.last nis dflt)
            (List.find (λ ni, bool_decide (snd ni = Some true)) nis)).
Proof.
  induction nis as [|ni rest IH]; [done |]. intros _.
  destruct rest as [|ni' rest'].
  - simpl. by destruct (bool_decide _).
  - change (first_primary (ni :: ni' :: rest'))
      with (if bool_decide (snd ni = Some true) then Some ni
            else first_primary (ni' :: rest')).
    cbn [List.find]. destruct (bool_decide (snd ni = Some true)); [done |].
    rewrite IH; [| done]. done.
Qed.

(** How a computation that starts with a step that returns goes on. *)
Lemma bind_Ok_run {S A B : Type} (m : M S A) (f : A → M S B) (s s1 : S)
    (h e1 : list event) (a : A) :
  m s h = (s1, e1, Ok a) →
  bind m f s h = match f a s1 (h ++ e1) with (s2, e2, r) => (s2, e1 ++ e2, r) end.
Proof. intros Hm. unfold bind. by rewrite Hm. Qed.

Lemma azure_arm_GET_run {S : Type} (url : string) (hd : headers) (d : arm_data) (s : S)
    (h : list event) :
  arm h GET url None = ArmReturn hd d →
  azure_arm arm GET url None s h = (s, [EArm GET url None], Ok (hd, d)).
Proof. intros Ha. unfold azure_arm. by rewrite Ha. Qed.

Lemma answers_app (h : list event) (s1 s2 : list (string * arm_outcome)) :
  answers arm h (s1 ++ s2)
  ↔ answers arm h s1 ∧ answers arm (h ++ map (λ ua, EArm GET ua.1 None) s1) s2.
Proof.
  revert h. induction s1 as [|[url a] s1 IH]; intros h; simpl.
  - rewrite app_nil_r. tauto.
  - rewrite IH, <- app_assoc. simpl. tauto.
Qed.

(** The rules that the reconciler takes from the answer of the load
    balancer. *)
Lemma read_non_cp_nat_rules_script (lba : lb_answer) (h : list event) :
  lb_configured conf lba →
  answers arm h (lb_script conf lba) →
  read_non_cp_nat_rules arm conf tt h
  = (tt, map (λ ua, EArm GET ua.1 None) (lb_script conf lba), Ok (lb_non_cp_rule_ids lba)).
Proof.
  unfold read_non_cp_nat_rules, lb_configured, lb_script.
  destruct lba as [| hd l | msg]; simpl.
  - intros Hn _. destruct (lbName conf) as [n|]; simpl in *; [by subst |]. done.
  - intros Hn [Ha _]. destruct (lbName conf) as [n|]; simpl in *; [| done].
    destruct (String.eqb_spec n "") as [| _]; [done |]. simpl.
    unfold try_catch, bind, azure_arm, as_lb, ret. rewrite Ha. done.
  - intros Hn [Ha _]. destruct (lbName conf) as [n|]; simpl in *; [| done].
    destruct (String.eqb_spec n "") as [| _]; [done |]. simpl.
    unfold try_catch, bind, azure_arm, as_lb, ret. rewrite Ha. done.
Qed.

Lemma get_vm_primary_nic_run (v : vm) (hd : headers) (r : resource) (h : list event) :
  vm_networkInterfaces v ≠ [] →
  arm h GET ((primary_entry v).1 +:+ get_api_version (primary_entry v).1) None
  = ArmReturn hd (DResource r) →
  get_vm_primary_nic arm v tt h
  = (tt, [EArm GET ((primary_entry v).1 +:+ get_api_version (primary_entry v).1) None], Ok r).
Proof.
  intros Hne Ha. unfold get_vm_primary_nic.
  assert (Hsel : match vm_networkInterfaces v with
                 | [x] => Some x
                 | _ => first_primary (vm_networkInterfaces v)
                 end = Some (primary_entry v)).
  { unfold primary_entry. rewrite <- (first_primary_spec _ _ Hne).
    destruct (vm_networkInterfaces v) as [|x [|y rest]]; done. }
  rewrite Hsel. unfold bind, azure_arm. rewrite Ha. done.
Qed.

(** What the reconciler holds at its decision when the cloud answers its
    reads as the script says and both NICs are ready. *)
Lemma observe_public_address_script (lba : lb_answer) (hd_me : headers) (me : vm)
    (hd_peer : headers) (peer : vm) (hd_my_nic : headers) (my_nic : resource)
    (hd_peer_nic : headers) (peer_nic : resource) (pipa : pip_answer)
    (c_my c_peer : ipconf) (h : list event) :
  lb_configured conf lba →
  answers arm h (public_address_script conf lba hd_me me hd_peer peer hd_my_nic my_nic
                   hd_peer_nic peer_nic pipa) →
  vm_networkInterfaces me ≠ [] →
  vm_networkInterfaces peer ≠ [] →
  r_provisioningState my_nic = "Succeeded"%string →
  r_provisioningState peer_nic = "Succeeded"%string →
  r_ipConfigurations my_nic !! 0%nat = Some c_my →
  r_ipConfigurations peer_nic !! 0%nat = Some c_peer →
  ∃ evs,
    observe_public_address arm conf tt h
    = (tt, evs,
       Ok (inr {| non_cp_nat_rules := lower_set (lb_non_cp_rule_ids lba);
                  my_nic := my_nic; my_ip_conf := c_my;
                  peer_nic := peer_nic; peer_ip_conf := c_peer;
                  public_ip := match pipa with
                               | PipFound _ d => Some d
                               | PipMissing _ => None
                               end |})).
Proof.
  intros Hlb Hans Hme_ne Hpeer_ne Hmy_ready Hpeer_ready Hc_my Hc_peer.
  unfold public_address_script in Hans.
  apply answers_app in Hans as [Hlba Hans].
  set (h1 := h ++ map (λ ua, EArm GET ua.1 None) (lb_script conf lba)) in *.
  simpl in Hans. destruct Hans as (Hme & Hpeer & Hmy & Hpr & Hpip & _).
  unfold observe_public_address. cbv zeta.
  rewrite (bind_Ok_run _ _ _ _ _ _ _ (read_non_cp_nat_rules_script lba h Hlb Hlba)).
  fold h1.
  rewrite (bind_Ok_run _ _ _ _ _ _ _ (azure_arm_GET_run _ _ _ tt _ Hme)).
  rewrite (bind_Ok_run _ _ _ _ _ _ _ (azure_arm_GET_run _ _ _ tt _ Hpeer)).
  unfold bind at 1. simpl as_vm. unfold ret at 1. rewrite app_nil_r.
  rewrite (bind_Ok_run _ _ _ _ _ _ _ (get_vm_primary_nic_run me _ _ _ Hme_ne Hmy)).
  rewrite (bind_Ok_run _ _ _ _ _ _ _
             (is_resource_ready_succeeded arm my_nic tt _ Hmy_ready)).
  cbn [negb]. cbv beta iota. rewrite app_nil_r.
  assert (Hfirst_my : ∀ h', first_ipconf my_nic tt h' = (tt, [], Ok c_my)).
  { intros h'. unfold first_ipconf. destruct (r_ipConfigurations my_nic); [done |].
    simpl in Hc_my. by injection Hc_my as ->. }
  assert (Hfirst_peer : ∀ h', first_ipconf peer_nic tt h' = (tt, [], Ok c_peer)).
  { intros h'. unfold first_ipconf. destruct (r_ipConfigurations peer_nic); [done |].
    simpl in Hc_peer. by injection Hc_peer as ->. }
  rewrite (bind_Ok_run _ _ _ _ _ _ _ (Hfirst_my _)). rewrite app_nil_r.
  unfold bind at 1. simpl as_vm. unfold ret at 1. rewrite app_nil_r.
  rewrite (bind_Ok_run _ _ _ _ _ _ _ (get_vm_primary_nic_run peer _ _ _ Hpeer_ne Hpr)).
  rewrite (bind_Ok_run _ _ _ _ _ _ _
             (is_resource_ready_succeeded arm peer_nic tt _ Hpeer_ready)).
  cbn [negb]. cbv beta iota. rewrite app_nil_r.
  rewrite (bind_Ok_run _ _ _ _ _ _ _ (Hfirst_peer _)). rewrite app_nil_r.
  cbv beta.
  match goal with
  | |- context [bind (read_public_ip arm ?id) _ tt ?h'] =>
      assert (Hread : read_public_ip arm id tt h'
                      = (tt, [EArm GET (id +:+ get_api_version id) None],
                         Ok match pipa with
                            | PipFound _ d => Some d
                            | PipMissing _ => None
                            end))
  end.
  { unfold read_public_ip, try_catch, bind, azure_arm, ret, public_ip_id.
    rewrite Hpip. by destruct pipa. }
  rewrite (bind_Ok_run _ _ _ _ _ _ _ Hread). unfold ret. by eexists.
Qed.

(** C9, amended.  The cloud answers the reads of [set_public_address] in
    their order: the load balancer (when [lbName] is set; it may be
    missing), the two VMs, the NIC that [get_vm_primary_nic] picks for each
    of them, and the cluster public address (it may be missing).  When both
    NICs are ready and have a first ipConfiguration, [set_public_address]
    sends no PUT and returns [False] exactly when (the cluster public
    address is absent or the first ipConfiguration of the local NIC has a
    publicIPAddress) and the ids of the load balancer's NAT rules whose
    name does not start with [checkpoint-] are among the NAT rules of that
    ipConfiguration, ids compared in lower case. *)
Theorem set_public_address_done_iff (lba : lb_answer) (hd_me : headers) (me : vm)
    (hd_peer : headers) (peer : vm) (hd_my_nic : headers) (my_nic : resource)
    (hd_peer_nic : headers) (peer_nic : resource) (pipa : pip_answer)
    (c_my c_peer : ipconf) (h : list event) :
  lb_configured conf lba →
  answers arm h (public_address_script conf lba hd_me me hd_peer peer hd_my_nic my_nic
                   hd_peer_nic peer_nic pipa) →
  vm_networkInterfaces me ≠ [] →
  vm_networkInterfaces peer ≠ [] →
  r_provisioningState my_nic = "Succeeded"%string →
  r_provisioningState peer_nic = "Succeeded"%string →
  r_ipConfigurations my_nic !! 0%nat = Some c_my →
  r_ipConfigurations peer_nic !! 0%nat = Some c_peer →
  (no_put (set_public_address arm conf tt h).1.2
   ∧ (set_public_address arm conf tt h).2 = Ok false)
  ↔ ((pip_absent pipa = true ∨ is_Some (ipc_publicIPAddress c_my))
     ∧ lower_set (lb_non_cp_rule_ids lba)
       ⊆ lower_set (default [] (ipc_loadBalancerInboundNatRules c_my))).
Proof.
  intros Hlb Hans Hme_ne Hpeer_ne Hmy_ready Hpeer_ready Hc_my Hc_peer.
  destruct (observe_public_address_script lba hd_me me hd_peer peer hd_my_nic my_nic
              hd_peer_nic peer_nic pipa c_my c_peer h Hlb Hans Hme_ne Hpeer_ne
              Hmy_ready Hpeer_ready Hc_my Hc_peer) as [evs Hobs].
  rewrite (set_public_address_done_observed h evs _ Hobs).
  unfold public_ip_absent, my_nat_rules. simpl.
  by destruct pipa.
Qed.

End PublicAddressFacts.

Section PublicAddressSamples.

#[local] Existing Instance sample_format.

Lemma set_public_address_done_iff_witness :
  (no_put (set_public_address cloud_public_address_lb sample_conf_lb tt []).1.2
   ∧ (set_public_address cloud_public_address_lb sample_conf_lb tt []).2 = Ok false)
  ↔ ((pip_absent (PipFound ok_headers sample_public_ip) = true
      ∨ is_Some (ipc_publicIPAddress sample_ipconf_settled))
     ∧ lower_set (lb_non_cp_rule_ids (LbFound ok_headers sample_lb))
       ⊆ lower_set (default [] (ipc_loadBalancerInboundNatRules sample_ipconf_settled))).
Proof.
  apply (set_public_address_done_iff cloud_public_address_lb sample_conf_lb
           (LbFound ok_headers sample_lb)
           ok_headers {| vm_networkInterfaces := [(sample_nic_id, Some true)] |}
           ok_headers {| vm_networkInterfaces := [(sample_peer_nic_id, Some true)] |}
           ok_headers sample_my_nic_settled ok_headers sample_peer_nic
           (PipFound ok_headers sample_public_ip) sample_ipconf_settled
           (sample_ipconf "ipconfig1" "10.0.0.5" true) []).
  - discriminate.
  - repeat split; reflexivity.
  - discriminate.
  - discriminate.
  - reflexivity.
  - reflexivity.
  - reflexivity.
  - reflexivity.
Defined.

(** The run of the witness: six GETs, no PUT, and [False]. *)
Example set_public_address_settled_run :
  List.filter is_put (set_public_address cloud_public_address_lb sample_conf_lb tt []).1.2 = []
  ∧ length (requests (set_public_address cloud_public_address_lb sample_conf_lb tt []).1.2)
    = 6%nat
  ∧ (set_public_address cloud_public_address_lb sample_conf_lb tt []).2 = Ok false.
Proof. repeat split; by vm_compute. Qed.

(** C9 as stated fails: the ipConfiguration of the local NIC that is
    flagged [primary] holds the cluster public address and no load balancer
    is configured, but it is the second of the list; the reconciler reads
    the first, finds no address on it, and writes the local NIC. *)
Lemma set_public_address_reads_first_ipconf :
  let run := set_public_address cloud_primary_second sample_conf tt [] in
  let flagged :=
    List.find (λ c, bool_decide (ipc_primary c = Some true))
      (r_ipConfigurations sample_my_nic_primary_second) in
  lbName sample_conf = None
  ∧ r_provisioningState sample_my_nic_primary_second = "Succeeded"%string
  ∧ r_provisioningState sample_peer_nic = "Succeeded"%string
  ∧ (ipc_publicIPAddress <$> flagged) = Some (Some sample_pip_id)
  ∧ run.2 = Ok true
  ∧ map (λ q, q.1.1) (requests (List.filter is_put run.1.2)) = [PUT]
  ∧ List.filter is_safe_put run.1.2
    = [ESafePut sample_nic_id
         (with_first_ipconf
            (with_natRules []
               (with_publicIPAddress (Some sample_pip_id)
                  (sample_ipconf "ipconfig0" "10.0.0.3" false)))
            sample_my_nic_primary_second)
         "my NIC public IP association"].
Proof. repeat split; by vm_compute. Qed.

End PublicAddressSamples.

(** * The VIP reconciler *)



Lemma find_nic_by_suffix_lookup (s : heap) (nics : list nat) (suffix : string) (ref : nat) :
  find_nic_by_suffix s nics suffix = Some ref → is_Some (s !! ref).
Proof.
  induction nics as [|r nics IH]; [done |]. simpl.
  destruct (s !! r) as [nic|] eqn:Hr; [|exact IH].
  destruct (PyStr.endswith (r_name nic) suffix); [|exact IH].
  intros [= <-]. by eexists.
Qed.

Section ClusterIps.

Context {fmt : PyFormat}.
Variable arm : list event → method → string → option resource → arm_outcome.
Variable conf : config.


(** The loop over the interfaces runs [process_interface] on each item in
    turn, on the store and the trace the items before it left. *)
Lemma cluster_ips_loop_cons (my_nics peer_nics : list nat) (cni : string)
    (vips : list vip) (rest : list (string * list vip)) (done : nat)
    (s : heap) (h : list event) :
  cluster_ips_loop arm conf my_nics peer_nics ((cni, vips) :: rest) done s h =
  match process_interface arm conf my_nics peer_nics cni vips s h with
  | (s1, e1, Ok _) =>
      match cluster_ips_loop arm conf my_nics peer_nics rest (Datatypes.S done) s1 (h ++ e1) with
      | (s2, e2, r) => (s2, e1 ++ e2, r)
      end
  | (s1, e1, Raise StopIteration) =>
      if bool_decide (interfaceSwitchMode conf = Some "serial"%string)
      then (s1, e1, Ok done)
      else
        match cluster_ips_loop arm conf my_nics peer_nics rest done s1 (h ++ e1) with
        | (s2, e2, r) => (s2, e1 ++ e2, r)
        end
  | (s1, e1, Raise e) => (s1, e1, Raise e)
  end.
Proof.
  cbn [cluster_ips_loop]. unfold bind at 1. unfold try_catch, bind at 1, ret, raise.
  destruct (process_interface arm conf my_nics peer_nics cni vips s h)
    as [[s1 e1] [[] | e]]; simpl.
  - rewrite !app_nil_r.
    by destruct (cluster_ips_loop arm conf my_nics peer_nics rest (Datatypes.S done) s1 _)
      as [[s2 e2] r].
  - destruct e; simpl; rewrite ?app_nil_r; try done.
    destruct (bool_decide _); simpl; [by rewrite app_nil_r |].
    by destruct (cluster_ips_loop arm conf my_nics peer_nics rest done s1 _) as [[s2 e2] r].
Qed.

(** Appending to a NIC does not move a name that is already found. *)
Lemma cluster_ip_index_app (i : Z) (ipcs extra : list ipconf) (name : string) :
  0 ≤ i →
  i ≤ cluster_ip_index_from i ipcs name →
  cluster_ip_index_from i (ipcs ++ extra) name = cluster_ip_index_from i ipcs name.
Proof.
  revert i. induction ipcs as [|c rest IH]; intros i Hi; simpl; [lia |].
  destruct (String.eqb _ _); [done |]. intros Hz.
  apply IH; [lia |].
  destruct (cluster_ip_index_sign (i + 1) rest name ltac:(lia)) as [[Hneg _] | [Hge _]]; lia.
Qed.

(** C2 (what the code does, in general): when the last configured VIP is
    already on the local NIC, the self-addition pass sends nothing, even if
    it appended other VIPs on the way, and the interface counts as done. *)
Lemma self_addition_silent_when_last_present (cni : string) (my_ref : nat)
    (subnet_id : string) (asg : option jval) (n_vips : nat) (vips : list vip)
    (index : nat) (s : heap) (h : list event) (my_nic : resource) (last_vip : vip) :
  s !! my_ref = Some my_nic →
  List.last vips last_vip = last_vip →
  0 ≤ get_cluster_ip_index my_nic (vip_name last_vip) →
  (index + length vips = n_vips)%nat →
  ∃ s', self_addition arm conf cni my_ref subnet_id asg n_vips index vips s h
        = (s', [], Ok tt).
Proof.
  revert index s h my_nic.
  induction vips as [|v rest IH]; intros index s h my_nic Hs Hlast Hpresent Hlen.
  - by exists s.
  - cbn [self_addition]. unfold bind, deref, store. rewrite Hs. cbv beta iota.
    destruct (decide (rest = [])) as [-> | Hrest].
    + simpl in Hlast. subst v.
      destruct (get_cluster_ip_index my_nic (vip_name last_vip) <? 0) eqn:Hmiss; [lia |].
      by exists s.
    + assert (Hlast' : List.last rest last_vip = last_vip).
      { destruct rest; [done | exact Hlast]. }
      assert (Hlen' : (Datatypes.S index + length rest = n_vips)%nat)
        by (simpl in Hlen; lia).
      assert (Hnonempty : (0 < length rest)%nat) by (destruct rest; [done | simpl; lia]).
      destruct (get_cluster_ip_index my_nic (vip_name v) <? 0) eqn:Hmiss.
      * destruct (Z.of_nat index =? Z.of_nat n_vips - 1) eqn:Hidx; [lia |].
        set (my_nic' := with_ipConfigurations
                          (r_ipConfigurations my_nic ++
                             [new_ipconf v subnet_id asg (pub_resource_id_of conf v)]) my_nic).
        destruct (IH (Datatypes.S index) (<[my_ref := my_nic']> s) ((h ++ []) ++ []) my_nic')
          as [s' Hrun]; [| exact Hlast' | | exact Hlen' |].
        -- apply list_lookup_insert_eq. by eapply lookup_lt_Some.
        -- unfold get_cluster_ip_index in *. subst my_nic'. simpl.
           rewrite cluster_ip_index_app; [done | lia | done].
        -- rewrite Hrun. by exists s'.
      * destruct (IH (Datatypes.S index) s (h ++ []) my_nic Hs Hlast' Hpresent Hlen')
          as [s' Hrun].
        rewrite Hrun. by exists s'.
Qed.

End ClusterIps.

Section ClusterIpsSamples.

#[local] Existing Instance sample_format.



(** C2, at a failing input: of the two configured VIPs the local NIC lacks
    the first and carries the second.  The pass appends the first to the
    object in memory, sends no PUT, and reports the interface as done. *)
Theorem self_addition_misses_put :
  let run := set_cluster_ips cloud_ok sample_conf_two_vips [0%nat] [1%nat]
               sample_heap_two_vips [] in
  get_cluster_ip_index sample_my_nic_with_b "vip-a" = -1
  ∧ List.filter is_safe_put run.1.2 = []
  ∧ List.filter is_put run.1.2 = []
  ∧ run.2 = Ok false
  ∧ (map ipc_name ∘ r_ipConfigurations) <$> run.1.1 !! 0%nat
    = Some ["ipconfig1"; "vip-b"; "vip-a"]%string.
Proof. repeat split; by vm_compute. Qed.

End ClusterIpsSamples.

(** * The VIP reconciler: further properties *)

Lemma filter_quiet (evs : list event) :
  Forall (λ ev, is_safe_put ev = false) evs → List.filter is_safe_put evs = [].
Proof.
  induction 1 as [|ev evs Hev _ IH]; [done |]. simpl. by rewrite Hev.
Qed.

Lemma safe_put_count_app (e1 e2 : list event) :
  safe_put_count (e1 ++ e2) = (safe_put_count e1 + safe_put_count e2)%nat.
Proof. unfold safe_put_count. by rewrite List.filter_app, length_app. Qed.

Lemma safe_put_count_call (rid : string) (b : resource) (d : string) (rest : list event) :
  Forall (λ ev, is_safe_put ev = false) rest →
  safe_put_count (ESafePut rid b d :: rest) = 1%nat.
Proof. intros H. unfold safe_put_count. simpl. by rewrite (filter_quiet _ H). Qed.

(** [get_cluster_ip_index] finds a name iff some ipConfiguration matches. *)
Lemma cluster_ip_index_found (nic : resource) (name : string) :
  0 ≤ get_cluster_ip_index nic name
  ↔ existsb (name_matches name) (r_ipConfigurations nic) = true.
Proof.
  unfold get_cluster_ip_index.
  destruct (cluster_ip_index_sign 0 (r_ipConfigurations nic) name ltac:(lia))
    as [[-> ->] | [Hge ->]]; split; (done || lia).
Qed.

Lemma cluster_ip_index_missing (nic : resource) (name : string) :
  get_cluster_ip_index nic name < 0
  ↔ existsb (name_matches name) (r_ipConfigurations nic) = false.
Proof.
  unfold get_cluster_ip_index.
  destruct (cluster_ip_index_sign 0 (r_ipConfigurations nic) name ltac:(lia))
    as [[-> ->] | [Hge ->]]; split; (done || lia).
Qed.

Section ClusterIpsMore.

Context {fmt : PyFormat}.
Variable arm : list event → method → string → option resource → arm_outcome.
Variable conf : config.

(** The self-addition pass either emits nothing, or calls [safe_arm_put]
    once, last, and ends with an exception. *)
Lemma self_addition_cases (cni : string) (my_ref : nat) (subnet_id : string)
    (asg : option jval) (n_vips : nat) (vips : list vip) (index : nat)
    (s : heap) (h : list event) :
  ∃ s' evs res,
    self_addition arm conf cni my_ref subnet_id asg n_vips index vips s h = (s', evs, res)
    ∧ (evs = []
       ∨ ∃ rid b d rest e,
           evs = ESafePut rid b d :: rest
           ∧ Forall (λ ev, is_safe_put ev = false) rest
           ∧ res = Raise e).
Proof.
  revert index s h. induction vips as [|v rest IH]; intros index s h.
  - exists s, [], (Ok tt). by eauto.
  - cbn [self_addition]. unfold bind, deref, store.
    destruct (s !! my_ref) as [nic|]; [|by eexists _, _, _; eauto].
    cbv beta iota.
    destruct (get_cluster_ip_index nic (vip_name v) <? 0).
    + destruct (Z.of_nat index =? Z.of_nat n_vips - 1).
      * match goal with
        | |- context [safe_arm_put arm ?rid ?b ?d ?s0 ?h0] =>
            destruct (safe_arm_put_events arm rid b d s0 h0) as (evs & res & -> & Hq)
        end.
        destruct res as [x | e]; simpl; eexists _, _, _; (split; [reflexivity |]); right.
        -- eexists _, _, _, evs, _. rewrite app_nil_r. by eauto.
        -- eexists _, _, _, evs, _. by eauto.
      * destruct (IH (Datatypes.S index)
                    (<[my_ref := with_ipConfigurations
                                   (r_ipConfigurations nic ++
                                      [new_ipconf v subnet_id asg (pub_resource_id_of conf v)])
                                   nic]> s) ((h ++ []) ++ []))
          as (s' & evs & res & -> & Hcase).
        by eexists _, _, _.
    + destruct (IH (Datatypes.S index) s (h ++ [])) as (s' & evs & res & -> & Hcase).
      by eexists _, _, _.
Qed.

(** One interface: at most one call of [safe_arm_put], and none when the
    body completes. *)
Lemma process_interface_cases (my_nics peer_nics : list nat) (cni : string)
    (vips : list vip) (s : heap) (h : list event) :
  ∃ s' evs res,
    process_interface arm conf my_nics peer_nics cni vips s h = (s', evs, res)
    ∧ (safe_put_count evs ≤ 1)%nat
    ∧ (res = Ok tt → evs = []).
Proof.
  unfold process_interface, bind, get_nic_by_suffix, deref, store, emit, raise.
  destruct (find_nic_by_suffix s peer_nics cni) as [p|];
    [| eexists _, _, _; split; [reflexivity |]; split; [cbv; lia | done]].
  cbv beta iota. destruct (s !! p) as [peer|];
    [| eexists _, _, _; split; [reflexivity |]; split; [cbv; lia | done]].
  cbv beta iota. rewrite !app_nil_r.
  destruct (is_resource_ready_cases arm peer s h)
    as [[_ ->] | [(_ & _ & ->) | (_ & rest & res & -> & Hq & Hres)]].
  2:{ simpl. eexists _, _, _. split; [reflexivity |]. split; [cbv; lia | done]. }
  2:{ destruct Hres as [-> | [e ->]]; simpl; eexists _, _, _;
        (split; [reflexivity |]); rewrite ?app_nil_r;
        (split; [by rewrite (safe_put_count_call _ _ _ _ Hq) | done]). }
  cbn [negb]. cbv beta iota.
  destruct (find_nic_by_suffix s my_nics cni) as [m|];
    [| eexists _, _, _; split; [reflexivity |]; split; [cbv; lia | done]].
  cbv beta iota.
  destruct (remove_attached_vips (map vip_name vips) peer) as [[pn flag] idx].
  cbv beta iota. destruct flag.
  { match goal with
    | |- context [safe_arm_put arm ?rid ?b ?d ?s0 ?h0] =>
        destruct (safe_arm_put_events arm rid b d s0 h0) as (evs & res & -> & Hq)
    end.
    destruct res as [x | e]; simpl; eexists _, _, _; (split; [reflexivity |]);
      rewrite ?app_nil_r;
      (split; [| done]);
      unfold safe_put_count; simpl; by rewrite (filter_quiet _ Hq). }
  rewrite !app_nil_r.
  destruct (find_nic_by_suffix (<[p:=pn]> s) my_nics cni) as [m'|];
    [| eexists _, _, _; split; [reflexivity |]; split; [cbv; lia | done]].
  cbv beta iota.
  destruct (<[p:=pn]> s !! m') as [my|];
    [| eexists _, _, _; split; [reflexivity |]; split; [cbv; lia | done]].
  cbv beta iota. rewrite !app_nil_r.
  destruct (is_resource_ready_cases arm my (<[p:=pn]> s) h)
    as [[_ ->] | [(_ & _ & ->) | (_ & rest & res & -> & Hq & Hres)]].
  2:{ simpl. eexists _, _, _. split; [reflexivity |]. split; [cbv; lia | done]. }
  2:{ destruct Hres as [-> | [e ->]]; simpl; eexists _, _, _;
        (split; [reflexivity |]); rewrite ?app_nil_r;
        (split; [by rewrite (safe_put_count_call _ _ _ _ Hq) | done]). }
  cbn [negb]. cbv beta iota.
  destruct (r_ipConfigurations my) as [|ipc0 ipcs];
    [eexists _, _, _; split; [reflexivity |]; split; [cbv; lia | done] |].
  destruct (ipc_subnet_id ipc0) as [subnet|];
    [| eexists _, _, _; split; [reflexivity |]; split; [cbv; lia | done]].
  destruct (self_addition_cases cni m' subnet (ipc_applicationSecurityGroups ipc0)
              (length vips) vips 0 (<[p:=pn]> s) (h ++ []))
    as (s' & evs & res & -> & Hcase).
  eexists _, _, _. split; [reflexivity |]. simpl.
  destruct Hcase as [-> | (rid & b & d & rest & e & -> & Hq & ->)].
  - split; [cbv; lia | done].
  - split; [by rewrite (safe_put_count_call _ _ _ _ Hq) | done].
Qed.

(** The loop over the interfaces: how many it counts as done, and how many
    calls of [safe_arm_put] it makes. *)
Lemma cluster_ips_loop_cases (my_nics peer_nics : list nat)
    (items : list (string * list vip)) (done : nat) (s : heap) (h : list event) :
  ∃ s' evs res,
    cluster_ips_loop arm conf my_nics peer_nics items done s h = (s', evs, res)
    ∧ (safe_put_count evs ≤ length items)%nat
    ∧ (interfaceSwitchMode conf = Some "serial"%string → (safe_put_count evs ≤ 1)%nat)
    ∧ (∀ d, res = Ok d →
            (d ≤ done + length items)%nat
            ∧ (d = (done + length items)%nat → evs = [])).
Proof.
  revert done s h. induction items as [|[cni vips] rest IH]; intros done s h.
  - exists s, [], (Ok done). split; [done |]. split; [cbv; lia |].
    split; [intros _; cbv; lia |]. intros d [= <-]. simpl. split; [lia | done].
  - rewrite cluster_ips_loop_cons.
    destruct (process_interface_cases my_nics peer_nics cni vips s h)
      as (s1 & e1 & r1 & -> & Hc1 & Hok1).
    destruct r1 as [[] | e].
    + rewrite (Hok1 eq_refl).
      destruct (IH (Datatypes.S done) s1 (h ++ [])) as (s2 & e2 & r2 & -> & Hc2 & Hser & Hd).
      eexists _, _, _. split; [reflexivity |]. simpl.
      split; [lia |]. split; [done |].
      intros d Hr. destruct (Hd d Hr) as [Hle Hall]. split; [lia |].
      intros ->. apply Hall. lia.
    + destruct e as [code msg | | kind].
      * eexists _, _, _. split; [reflexivity |]. simpl. split; [lia |]. split; [done |]. done.
      * destruct (bool_decide_reflect (interfaceSwitchMode conf = Some "serial"%string))
          as [Hserial | Hserial].
        -- eexists _, _, _. split; [reflexivity |]. simpl. split; [lia |].
           split; [done |]. intros d [= <-]. split; [lia |]. lia.
        -- destruct (IH done s1 (h ++ e1)) as (s2 & e2 & r2 & -> & Hc2 & Hser & Hd).
           eexists _, _, _. split; [reflexivity |]. rewrite safe_put_count_app. simpl.
           split; [lia |]. split; [done |].
           intros d Hr. destruct (Hd d Hr) as [Hle Hall]. split; [lia |]. lia.
      * eexists _, _, _. split; [reflexivity |]. simpl. split; [lia |]. split; [done |]. done.
Qed.

(** X2.  [set_cluster_ips] reports that no work remains only on a pass in
    which it emitted nothing: no call of [safe_arm_put], no request, no
    status change. *)
Theorem set_cluster_ips_done_is_silent (my_nics peer_nics : list nat) (s s' : heap)
    (h evs : list event) :
  set_cluster_ips arm conf my_nics peer_nics s h = (s', evs, Ok false) →
  evs = [].
Proof.
  unfold set_cluster_ips, bind, ret.
  destruct (cluster_ips_loop_cases my_nics peer_nics (clusterNetworkInterfaces conf) 0 s h)
    as (s1 & e1 & r1 & -> & _ & _ & Hd).
  destruct r1 as [d | e]; [| done].
  intros [= <- <- Hneg]. rewrite app_nil_r.
  destruct (Hd d eq_refl) as [_ Hall]. apply Hall.
  apply negb_false_iff, Nat.eqb_eq in Hneg. lia.
Qed.

(** X3.  One pass of [set_cluster_ips] calls [safe_arm_put] at most once for
    each configured interface, and at most once altogether when
    [interfaceSwitchMode] is [serial]. *)
Theorem set_cluster_ips_put_bound (my_nics peer_nics : list nat) (s : heap) (h : list event) :
  let evs := (set_cluster_ips arm conf my_nics peer_nics s h).1.2 in
  (safe_put_count evs ≤ length (clusterNetworkInterfaces conf))%nat
  ∧ (interfaceSwitchMode conf = Some "serial"%string → (safe_put_count evs ≤ 1)%nat).
Proof.
  unfold set_cluster_ips, bind, ret.
  destruct (cluster_ips_loop_cases my_nics peer_nics (clusterNetworkInterfaces conf) 0 s h)
    as (s1 & e1 & r1 & -> & Hc & Hser & _).
  destruct r1 as [d | e]; simpl; rewrite ?app_nil_r; done.
Qed.

(** A converged interface is processed without an event and left as it
    is. *)
Lemma process_interface_converged (my_nics peer_nics : list nat) (cni : string)
    (vips : list vip) (s : heap) (h : list event) :
  interface_converged s my_nics peer_nics (cni, vips) = true →
  process_interface arm conf my_nics peer_nics cni vips s h = (s, [], Ok tt).
Proof.
  unfold interface_converged. simpl.
  destruct (find_nic_by_suffix s peer_nics cni) as [p|] eqn:Hp; [|done].
  destruct (find_nic_by_suffix s my_nics cni) as [m|] eqn:Hm; [|done].
  destruct (s !! p) as [peer|] eqn:Hpeer; [|done].
  destruct (s !! m) as [my|] eqn:Hmy; [|done].
  rewrite !andb_true_iff.
  intros [[[[Hpr Hclean] Hmr] Hsub] Hall].
  apply String.eqb_eq in Hpr, Hmr. apply negb_true_iff in Hclean.
  unfold process_interface, bind, get_nic_by_suffix, deref, store, emit, raise.
  rewrite Hp. cbv beta iota. rewrite Hpeer. cbv beta iota.
  rewrite (is_resource_ready_succeeded arm peer s _ Hpr). cbv beta iota. cbn [negb].
  cbv beta iota. rewrite Hm. cbv beta iota.
  pose proof (remove_attached_vips_flag (map vip_name vips) peer) as Hflag.
  pose proof (remove_attached_vips_from_unflagged (map vip_name vips) peer false (-1) Hclean)
    as Hsame.
  fold (remove_attached_vips (map vip_name vips) peer) in Hsame.
  destruct (remove_attached_vips (map vip_name vips) peer) as [[pn flag] idx].
  simpl in Hflag, Hsame. subst pn. rewrite Hclean in Hflag. subst flag.
  cbv beta iota.
  assert (Hid : <[p:=peer]> s = s) by (by apply list_insert_id).
  rewrite Hid, Hm. cbv beta iota. rewrite Hmy. cbv beta iota.
  rewrite (is_resource_ready_succeeded arm my s _ Hmr). cbv beta iota. cbn [negb].
  cbv beta iota.
  destruct (r_ipConfigurations my) as [|ipc0 ipcs] eqn:Hipcs; [done |].
  apply bool_decide_eq_true in Hsub. destruct Hsub as [subnet Hsub]. rewrite Hsub.
  assert (Hadd : ∀ (vs : list vip) (index : nat) (h' : list event),
             forallb (λ v, 0 <=? get_cluster_ip_index my (vip_name v)) vs = true →
             self_addition arm conf cni m subnet (ipc_applicationSecurityGroups ipc0)
               (length vips) index vs s h' = (s, [], Ok tt)).
  { induction vs as [|v vs IH]; intros index h' Hvs; [done |].
    simpl in Hvs. apply andb_true_iff in Hvs as [Hv Hvs].
    cbn [self_addition]. unfold bind, deref. rewrite Hmy. cbv beta iota.
    apply Z.leb_le in Hv.
    destruct (Z.ltb_spec (get_cluster_ip_index my (vip_name v)) 0) as [|_]; [lia |].
    by rewrite (IH _ _ Hvs). }
  by rewrite (Hadd vips 0%nat _ Hall).
Qed.

(** X1.  When every configured interface is converged, a pass of
    [set_cluster_ips] emits nothing, leaves the NIC objects as they are and
    reports that no work remains. *)
Theorem set_cluster_ips_converged (my_nics peer_nics : list nat) (s : heap) (h : list event) :
  forallb (interface_converged s my_nics peer_nics) (clusterNetworkInterfaces conf) = true →
  set_cluster_ips arm conf my_nics peer_nics s h = (s, [], Ok false).
Proof.
  intros Hall. unfold set_cluster_ips, bind, ret.
  assert (Hloop : ∀ items done h',
             forallb (interface_converged s my_nics peer_nics) items = true →
             cluster_ips_loop arm conf my_nics peer_nics items done s h'
             = (s, [], Ok (done + length items)%nat)).
  { induction items as [|[cni vips] rest IH]; intros done h' Hitems.
    - simpl. unfold ret. by rewrite Nat.add_0_r.
    - simpl in Hitems. apply andb_true_iff in Hitems as [Hitem Hrest].
      rewrite cluster_ips_loop_cons, (process_interface_converged _ _ _ _ _ _ Hitem).
      rewrite (IH _ _ Hrest). simpl. do 3 f_equal. lia. }
  rewrite (Hloop _ _ _ Hall). simpl. by rewrite Nat.eqb_refl.
Qed.

(** Appending an ipConfiguration keeps what was found, and the appended
    name is found. *)
Lemma found_after_append (nic : resource) (c : ipconf) (name : string) :
  0 ≤ get_cluster_ip_index nic name →
  0 ≤ get_cluster_ip_index (with_ipConfigurations (r_ipConfigurations nic ++ [c]) nic) name.
Proof.
  rewrite !cluster_ip_index_found. simpl. rewrite existsb_app. by intros ->.
Qed.

Lemma found_appended (nic : resource) (c : ipconf) :
  0 ≤ get_cluster_ip_index (with_ipConfigurations (r_ipConfigurations nic ++ [c]) nic)
        (ipc_name c).
Proof.
  rewrite cluster_ip_index_found. simpl. rewrite existsb_app. simpl.
  unfold name_matches. rewrite String.eqb_refl. by rewrite orb_true_r.
Qed.

Lemma append_missing_keeps (subnet_id : string) (asg : option jval) (vips : list vip)
    (nic : resource) (name : string) :
  0 ≤ get_cluster_ip_index nic name →
  0 ≤ get_cluster_ip_index (append_missing conf subnet_id asg vips nic) name.
Proof.
  revert nic. induction vips as [|v rest IH]; intros nic Hfound; [done |].
  simpl. apply IH. destruct (_ <? 0); [by apply found_after_append | done].
Qed.

Lemma append_missing_finds_all (subnet_id : string) (asg : option jval) (vips : list vip)
    (nic : resource) :
  Forall (λ v, 0 ≤ get_cluster_ip_index (append_missing conf subnet_id asg vips nic)
                     (vip_name v)) vips.
Proof.
  revert nic. induction vips as [|v rest IH]; intros nic; [constructor |].
  simpl. constructor; [| apply IH].
  apply append_missing_keeps.
  destruct (Z.ltb_spec (get_cluster_ip_index nic (vip_name v)) 0); [| done].
  apply (found_appended nic (new_ipconf v subnet_id asg (pub_resource_id_of conf v))).
Qed.

Lemma append_missing_extends (subnet_id : string) (asg : option jval) (vips : list vip)
    (nic : resource) :
  ∃ extra,
    append_missing conf subnet_id asg vips nic
    = with_ipConfigurations (r_ipConfigurations nic ++ extra) nic
    ∧ (length extra ≤ length vips)%nat.
Proof.
  revert nic. induction vips as [|v rest IH]; intros nic.
  - exists []. simpl. by rewrite app_nil_r, with_ipConfigurations_same.
  - simpl. destruct (_ <? 0).
    + destruct (IH (with_ipConfigurations
                      (r_ipConfigurations nic ++
                         [new_ipconf v subnet_id asg (pub_resource_id_of conf v)]) nic))
        as (extra & -> & Hlen).
      eexists (_ :: extra). simpl. rewrite <- app_assoc. simpl.
      rewrite with_ipConfigurations_twice. split; [done | lia].
    + destruct (IH nic) as (extra & -> & Hlen). exists extra. split; [done | lia].
Qed.

Lemma append_missing_app (subnet_id : string) (asg : option jval) (front back : list vip)
    (nic : resource) :
  append_missing conf subnet_id asg (front ++ back) nic
  = append_missing conf subnet_id asg back (append_missing conf subnet_id asg front nic).
Proof.
  revert nic. induction front as [|v rest IH]; intros nic; [done |]. simpl. apply IH.
Qed.

(** The self-addition pass from any position, when the last configured VIP
    is missing by the time the loop reaches it. *)
Lemma self_addition_run (cni : string) (my_ref : nat) (subnet_id : string)
    (asg : option jval) (n_vips : nat) (front : list vip) (last_vip : vip)
    (index : nat) (s : heap) (h : list event) (nic : resource) :
  s !! my_ref = Some nic →
  (index + length (front ++ [last_vip]) = n_vips)%nat →
  get_cluster_ip_index (append_missing conf subnet_id asg front nic) (vip_name last_vip) < 0 →
  let final := append_missing conf subnet_id asg (front ++ [last_vip]) nic in
  ∃ rest e,
    self_addition arm conf cni my_ref subnet_id asg n_vips index (front ++ [last_vip]) s h
    = (<[my_ref := final]> s,
       ESafePut (r_id final) final ("my " +:+ cni +:+ " VIP addition") :: rest,
       Raise e)
    ∧ Forall (λ ev, is_safe_put ev = false) rest.
Proof.
  revert index s h nic. induction front as [|v front IH]; intros index s h nic Hs Hlen Hmiss.
  - simpl in *. cbn [self_addition]. unfold bind, deref, store. rewrite Hs. cbv beta iota.
    apply Z.ltb_lt in Hmiss. rewrite Hmiss.
    destruct (Z.eqb_spec (Z.of_nat index) (Z.of_nat n_vips - 1)) as [_ | Hne]; [| lia].
    match goal with
    | |- context [safe_arm_put arm ?rid ?b ?d ?s0 ?h0] =>
        destruct (safe_arm_put_events arm rid b d s0 h0) as (evs & res & -> & Hq)
    end.
    destruct res as [x | e]; simpl; eexists _, _; rewrite ?app_nil_r; by eauto.
  - rewrite <- app_comm_cons in *. cbn [self_addition append_missing] in *.
    unfold bind at 1, deref. rewrite Hs. cbv beta iota.
    assert (Hidx : (Z.of_nat index =? Z.of_nat n_vips - 1) = false).
    { apply Z.eqb_neq. simpl in Hlen. rewrite length_app in Hlen. simpl in Hlen. lia. }
    assert (Hlen' : (Datatypes.S index + length (front ++ [last_vip]) = n_vips)%nat)
      by (simpl in Hlen; lia).
    destruct (get_cluster_ip_index nic (vip_name v) <? 0).
    + unfold bind, store. rewrite Hidx.
      set (nic' := with_ipConfigurations
                     (r_ipConfigurations nic ++
                        [new_ipconf v subnet_id asg (pub_resource_id_of conf v)]) nic) in *.
      destruct (IH (Datatypes.S index) (<[my_ref := nic']> s) ((h ++ []) ++ []) nic')
        as (rest & e & -> & Hq); [| exact Hlen' | exact Hmiss |].
      * apply list_lookup_insert_eq. by eapply lookup_lt_Some.
      * assert (Hii : ∀ a b : resource,
                   <[my_ref := a]> (<[my_ref := b]> s) = <[my_ref := a]> s)
          by (intros; apply list_insert_insert_eq).
        rewrite Hii. simpl. by eauto.
    + destruct (IH (Datatypes.S index) s (h ++ []) nic Hs Hlen' Hmiss)
        as (rest & e & -> & Hq).
      simpl. by eauto.
Qed.

(** X4.  When the last configured VIP of an interface is missing from the
    local NIC by the time the loop reaches it, the self-addition pass calls
    [safe_arm_put] exactly once, after the loop, for the NIC with every
    missing VIP appended in the configured order behind the
    ipConfigurations it had; every configured VIP is found on that body,
    and the pass ends the interface with an exception. *)
Theorem self_addition_puts_all_missing (cni : string) (my_ref : nat) (subnet_id : string)
    (asg : option jval) (front : list vip) (last_vip : vip)
    (s : heap) (h : list event) (nic : resource) :
  s !! my_ref = Some nic →
  get_cluster_ip_index (append_missing conf subnet_id asg front nic) (vip_name last_vip) < 0 →
  let vips := front ++ [last_vip] in
  let final := append_missing conf subnet_id asg vips nic in
  ∃ rest e extra,
    self_addition arm conf cni my_ref subnet_id asg (length vips) 0 vips s h
    = (<[my_ref := final]> s,
       ESafePut (r_id nic) final ("my " +:+ cni +:+ " VIP addition") :: rest,
       Raise e)
    ∧ Forall (λ ev, is_safe_put ev = false) rest
    ∧ final = with_ipConfigurations (r_ipConfigurations nic ++ extra) nic
    ∧ Forall (λ v, 0 ≤ get_cluster_ip_index final (vip_name v)) vips.
Proof.
  intros Hs Hmiss vips final.
  destruct (self_addition_run cni my_ref subnet_id asg (length vips) front last_vip 0 s h nic
              Hs eq_refl Hmiss) as (rest & e & Hrun & Hq).
  destruct (append_missing_extends subnet_id asg vips nic) as (extra & Hfinal & _).
  exists rest, e, extra. fold vips final in Hrun.
  assert (Hid : r_id final = r_id nic) by (subst final; by rewrite Hfinal).
  rewrite Hid in Hrun. split; [exact Hrun |]. split; [exact Hq |].
  split; [exact Hfinal |]. apply append_missing_finds_all.
Qed.

End ClusterIpsMore.

Section ClusterIpsMoreSamples.

#[local] Existing Instance sample_format.

(** [get_cluster_ip_index] from position [i]: the first match, if any. *)
Lemma cluster_ip_index_from_first (i : Z) (ipcs : list ipconf) (name : string) :
  let z := cluster_ip_index_from i ipcs name in
  (z = -1 ∧ Forall (λ c, name_matches name c = false) ipcs)
  ∨ (∃ (k : nat) (c : ipconf),
       z = i + Z.of_nat k
       ∧ ipcs !! k = Some c
       ∧ name_matches name c = true
       ∧ Forall (λ c', name_matches name c' = false) (take k ipcs)).
Proof.
  revert i. induction ipcs as [|c rest IH]; intros i; simpl.
  - left. by split.
  - destruct (String.eqb (PyStr.lower (ipc_name c)) (PyStr.lower name)) eqn:Hc.
    + right. exists 0%nat, c. simpl. repeat split; [lia | done | constructor].
    + destruct (IH (i + 1)) as [[Hz Hall] | (k & c' & Hz & Hk & Hm & Hbefore)].
      * left. split; [done |]. by constructor.
      * right. exists (Datatypes.S k), c'. simpl. repeat split; [lia | done | done |].
        by constructor.
Qed.

(** X5.  [get_cluster_ip_index] returns -1 when no ipConfiguration of the
    NIC has the name (letter case ignored), and otherwise the position of
    the first one that has it: a valid index, with no match before it. *)
Theorem get_cluster_ip_index_first_match (nic : resource) (name : string) :
  let ipcs := r_ipConfigurations nic in
  let z := get_cluster_ip_index nic name in
  (z = -1 ∧ Forall (λ c, name_matches name c = false) ipcs)
  ∨ (0 ≤ z < Z.of_nat (length ipcs)
     ∧ ∃ c, ipcs !! Z.to_nat z = Some c
            ∧ name_matches name c = true
            ∧ Forall (λ c', name_matches name c' = false) (take (Z.to_nat z) ipcs)).
Proof.
  simpl. unfold get_cluster_ip_index.
  destruct (cluster_ip_index_from_first 0 (r_ipConfigurations nic) name)
    as [H | (k & c & Hz & Hk & Hm & Hb)].
  - by left.
  - right. rewrite Z.add_0_l in Hz. rewrite Hz, Nat2Z.id.
    split; [| by eauto]. apply lookup_lt_Some in Hk. lia.
Qed.

Lemma sublist_same_length {A : Type} (l1 l2 : list A) :
  sublist l1 l2 → length l1 = length l2 → l1 = l2.
Proof.
  induction 1 as [| x l1 l2 Hsub IH | x l1 l2 Hsub IH]; intros Hlen; [done | |].
  - simpl in Hlen. f_equal. apply IH. lia.
  - apply sublist_length in Hsub. simpl in Hlen. lia.
Qed.

Lemma filter_delete_false (f : ipconf → bool) (l : list ipconf) (k : nat) (c : ipconf) :
  l !! k = Some c → f c = false → List.filter f (delete k l) = List.filter f l.
Proof.
  revert k. induction l as [|x l IH]; intros k Hk Hc; [done |].
  destruct k as [|k]; simpl in *.
  - injection Hk as ->. by rewrite Hc.
  - rewrite (IH k Hk Hc). done.
Qed.

(** The cleanup loop removes only ipConfigurations that carry one of the
    names it is given, at most one for each name, and sets the flag iff it
    removed one. *)
Lemma remove_attached_vips_from_frame (f : ipconf → bool) (names : list string)
    (nic : resource) (flag : bool) (idx : Z) :
  (∀ c name, In name names → name_matches name c = true → f c = false) →
  ∃ kept,
    (remove_attached_vips_from names nic flag idx).1.1 = with_ipConfigurations kept nic
    ∧ sublist kept (r_ipConfigurations nic)
    ∧ List.filter f kept = List.filter f (r_ipConfigurations nic)
    ∧ (length (r_ipConfigurations nic) ≤ length kept + length names)%nat
    ∧ (remove_attached_vips_from names nic flag idx).1.2
      = flag || negb (length kept =? length (r_ipConfigurations nic))%nat.
Proof.
  revert nic flag idx. induction names as [|name rest IH]; intros nic flag idx Hf.
  - exists (r_ipConfigurations nic). simpl.
    rewrite with_ipConfigurations_same, Nat.eqb_refl, orb_false_r.
    repeat split; (done || lia).
  - cbn [remove_attached_vips_from]. unfold get_cluster_ip_index.
    destruct (cluster_ip_index_from_first 0 (r_ipConfigurations nic) name)
      as [[-> Hnone] | (k & c & -> & Hk & Hm & _)].
    + change (0 <=? -1) with false. cbv iota.
      destruct (IH nic flag (-1)) as (kept & ? & ? & ? & ? & ?).
      { intros c' n' Hin. apply Hf. by right. }
      exists kept. simpl. repeat split; (done || lia).
    + destruct (Z.leb_spec 0 (0 + Z.of_nat k)) as [_ | ?]; [| lia].
      replace (Z.to_nat (0 + Z.of_nat k)) with k by lia.
      set (nic1 := with_ipConfigurations (delete k (r_ipConfigurations nic)) nic).
      destruct (IH nic1 true (0 + Z.of_nat k)) as (kept & Hres & Hsub & Hfil & Hlen & Hflag).
      { intros c' n' Hin. apply Hf. by right. }
      pose proof (lookup_lt_Some _ _ _ Hk) as Hlt.
      assert (Hdel : length (delete k (r_ipConfigurations nic))
                     = (length (r_ipConfigurations nic) - 1)%nat).
      { rewrite length_delete; [done | by eexists]. }
      pose proof (sublist_length _ _ Hsub) as Hkl.
      subst nic1. simpl in *. rewrite with_ipConfigurations_twice in Hres.
      exists kept. split; [exact Hres |].
      split; [etrans; [exact Hsub | apply sublist_delete] |].
      split; [rewrite Hfil; apply (filter_delete_false f _ k c Hk);
              apply (Hf c name); [by left | exact Hm] |].
      split; [lia |].
      rewrite remove_attached_vips_from_flagged. symmetry.
      apply orb_true_iff. right. apply negb_true_iff, Nat.eqb_neq. lia.
Qed.

(** X6.  [remove_attached_vips] changes nothing of the NIC but its list of
    ipConfigurations, from which it only removes: every ipConfiguration
    that carries none of the VIP names stays, in its place among the
    others; at most one is removed for each name; and [flag_put] is set iff
    something was removed. *)
Theorem remove_attached_vips_only_removes_vips (vip_names : list string)
    (peer_nic : resource) :
  let ipcs := r_ipConfigurations peer_nic in
  ∃ kept,
    (remove_attached_vips vip_names peer_nic).1.1 = with_ipConfigurations kept peer_nic
    ∧ sublist kept ipcs
    ∧ List.filter (λ c, negb (is_vip vip_names c)) kept
      = List.filter (λ c, negb (is_vip vip_names c)) ipcs
    ∧ (length ipcs ≤ length kept + length vip_names)%nat
    ∧ ((remove_attached_vips vip_names peer_nic).1.2 = false ↔ kept = ipcs).
Proof.
  simpl. unfold remove_attached_vips.
  destruct (remove_attached_vips_from_frame (λ c, negb (is_vip vip_names c)) vip_names
              peer_nic false (-1)) as (kept & Hres & Hsub & Hfil & Hlen & Hflag).
  { intros c name Hin Hm. apply negb_false_iff. unfold is_vip.
    apply existsb_exists. by exists name. }
  exists kept. repeat split; try done.
  - rewrite Hflag. simpl. intros Hn. apply negb_false_iff, Nat.eqb_eq in Hn.
    by apply sublist_same_length.
  - intros ->. rewrite Hflag. simpl. by rewrite Nat.eqb_refl.
Qed.

Lemma set_cluster_ips_done_is_silent_witness :
  (set_cluster_ips cloud_ok sample_conf_one_vip [0%nat] [1%nat] sample_heap_converged []).1.2
  = [].
Proof.
  apply (set_cluster_ips_done_is_silent cloud_ok sample_conf_one_vip [0%nat] [1%nat]
           sample_heap_converged sample_heap_converged []).
  by vm_compute.
Defined.

Lemma set_cluster_ips_put_bound_witness :
  (safe_put_count
     (set_cluster_ips cloud_ok sample_conf_one_vip [0%nat] [1%nat] sample_heap []).1.2
   ≤ 1)%nat.
Proof.
  apply (proj2 (set_cluster_ips_put_bound cloud_ok sample_conf_one_vip [0%nat] [1%nat]
                  sample_heap [])).
  reflexivity.
Defined.

Lemma set_cluster_ips_converged_witness :
  set_cluster_ips cloud_ok sample_conf_one_vip [0%nat] [1%nat] sample_heap_converged []
  = (sample_heap_converged, [], Ok false).
Proof.
  apply (set_cluster_ips_converged cloud_ok sample_conf_one_vip [0%nat] [1%nat]
           sample_heap_converged []).
  reflexivity.
Defined.

Lemma self_addition_puts_all_missing_witness :
  let vips := [sample_vip_a] ++ [sample_vip_b] in
  let final := append_missing sample_conf sample_subnet_id None vips sample_my_nic in
  ∃ rest e extra,
    self_addition cloud_ok sample_conf "eth0" 0 sample_subnet_id None (length vips) 0 vips
      sample_heap []
    = (<[0%nat := final]> sample_heap,
       ESafePut (r_id sample_my_nic) final ("my " +:+ "eth0" +:+ " VIP addition") :: rest,
       Raise e)
    ∧ Forall (λ ev, is_safe_put ev = false) rest
    ∧ final = with_ipConfigurations (r_ipConfigurations sample_my_nic ++ extra) sample_my_nic
    ∧ Forall (λ v, 0 ≤ get_cluster_ip_index final (vip_name v)) vips.
Proof.
  apply (self_addition_puts_all_missing cloud_ok sample_conf "eth0" 0 sample_subnet_id None
           [sample_vip_a] sample_vip_b sample_heap [] sample_my_nic); reflexivity.
Defined.

End ClusterIpsMoreSamples.

(** * The safe PUT: further properties *)

Section SafePutMore.

Context {S : Type}.
Context {fmt : PyFormat}.
Variable arm : list event → method → string → option resource → arm_outcome.

(** X8.  For a body without edge-zone markers, [safe_arm_put] sends exactly
    one request: a PUT of the body as it was given, to the resource id
    followed by the API version of [get_api_version].  When the cloud
    answers 200 the call logs one record, a check mark followed by the
    description and [succeeded], and returns the answer. *)
Theorem safe_arm_put_unmarked (rid : string) (body : resource) (desc : string)
    (s : S) (h : list event) :
  unmarked body = true →
  let url := rid +:+ get_api_version rid in
  let run := safe_arm_put arm rid body desc s h in
  requests run.1.2 = [(PUT, url, Some body)]
  ∧ ∀ hd d,
      arm (h ++ [ESafePut rid body desc]) PUT url (Some body) = ArmReturn hd d →
      response_code hd = "200"%string →
      run = (s, [ESafePut rid body desc; EArm PUT url (Some body);
                 ELog INFO ("✅ " +:+ desc +:+ " succeeded")],
             Ok (Some d)).
Proof.
  intros Hun url run. subst run. rewrite safe_arm_put_run.
  rewrite (first_attempt_unmarked arm _ _ _ _ _ Hun). rewrite standard_put_run. fold url.
  rewrite !app_nil_r.
  destruct (arm (h ++ [ESafePut rid body desc]) PUT url (Some body)) as [hd d | e] eqn:Harm.
  - destruct (String.eqb_spec (response_code hd) "200") as [H200 | H200].
    + split; [done |]. intros hd' d' [= <- <-] _. done.
    + split; [done |]. intros hd' d' [= <- <-] ?. done.
  - split; [| done].
    unfold put_handler, bind, log, emit, ret, raise.
    destruct e as [code msg | | kind]; [| done | done].
    destruct (is_invalid_extended_location code msg); done.
Qed.

(** X9.  Whatever the body and the cloud, [safe_arm_put] leaves the state
    alone and sends at most two requests, each a PUT to the resource id
    followed by the API version of [get_api_version]: possibly one of the
    body with [extendedLocation] set (the body itself when it had the key),
    then possibly one of the body as given.  It never sends a GET. *)
Theorem safe_arm_put_requests (rid : string) (body : resource) (desc : string)
    (s : S) (h : list event) :
  let url := rid +:+ get_api_version rid in
  let run := safe_arm_put arm rid body desc s h in
  run.1.1 = s
  ∧ (requests run.1.2 = []
     ∨ requests run.1.2 = [(PUT, url, Some body)]
     ∨ ∃ ctx,
         let enhanced :=
           match r_extendedLocation body with
           | None => with_extendedLocation ctx body
           | Some _ => body
           end in
         requests run.1.2 = [(PUT, url, Some enhanced)]
         ∨ requests run.1.2 = [(PUT, url, Some enhanced); (PUT, url, Some body)]).
Proof.
  intros url run. split.
  { subst run. by destruct (safe_arm_put_events arm rid body desc s h) as (? & ? & -> & _). }
  subst run. rewrite safe_arm_put_run.
  pose proof (first_attempt_requests arm rid body desc s (h ++ [ESafePut rid body desc])) as Hfirst.
  destruct (first_attempt arm rid body desc s _) as [[s1 e1] [[d|]|e]]; simpl in *.
  - destruct Hfirst as [[_ Hno] | [ctx Hreq]]; [by destruct (Hno d) |].
    right. right. exists ctx. by left.
  - pose proof (standard_put_requests arm rid body desc s1
                  ((h ++ [ESafePut rid body desc]) ++ e1)) as Hstd.
    destruct (standard_put arm rid body desc s1 _) as [[s2 e2] [v|e]]; simpl in *.
    + rewrite requests_app, Hstd.
      destruct Hfirst as [[-> _] | [ctx ->]]; [by right; left |].
      right. right. exists ctx. by right.
    + pose proof (put_handler_requests body desc e s2
                    ((h ++ [ESafePut rid body desc]) ++ e1 ++ e2)) as Hh.
      destruct (put_handler body desc e s2 _) as [[s3 e3] r]; simpl in *.
      rewrite !requests_app, Hstd, Hh, app_nil_r.
      destruct Hfirst as [[-> _] | [ctx ->]]; [by right; left |].
      right. right. exists ctx. by right.
  - pose proof (put_handler_requests body desc e s1
                  ((h ++ [ESafePut rid body desc]) ++ e1)) as Hh.
    destruct (put_handler body desc e s1 _) as [[s3 e3] r]; simpl in *.
    rewrite requests_app, Hh, app_nil_r.
    destruct Hfirst as [[-> _] | [ctx ->]]; [by left |].
    right. right. exists ctx. by left.
Qed.


End SafePutMore.

Section SafePutMoreSamples.

#[local] Existing Instance sample_format.

Lemma safe_arm_put_unmarked_witness :
  requests (safe_arm_put cloud_ok sample_nic_id sample_my_nic "my eth0 VIP addition" tt []).1.2
  = [(PUT, sample_nic_id +:+ get_api_version sample_nic_id, Some sample_my_nic)]
  ∧ safe_arm_put cloud_ok sample_nic_id sample_my_nic "my eth0 VIP addition" tt []
    = (tt, [ ESafePut sample_nic_id sample_my_nic "my eth0 VIP addition";
             EArm PUT (sample_nic_id +:+ get_api_version sample_nic_id) (Some sample_my_nic);
             ELog INFO ("✅ " +:+ "my eth0 VIP addition" +:+ " succeeded") ],
       Ok (Some (DResource sample_my_nic))).
Proof.
  split.
  - apply (proj1 (safe_arm_put_unmarked cloud_ok sample_nic_id sample_my_nic
                    "my eth0 VIP addition" tt [] eq_refl)).
  - apply (proj2 (safe_arm_put_unmarked cloud_ok sample_nic_id sample_my_nic
                    "my eth0 VIP addition" tt [] eq_refl) ok_headers (DResource sample_my_nic));
      reflexivity.
Defined.

End SafePutMoreSamples.

(** * The route-table reconciler: further properties *)

(** A route that the loop has looked at is left alone by a second look,
    when no local address is a peer address. *)
Lemma rewrite_route_settles (me peer : list string) (r r' : route) (d : bool) :
  (∀ a, In a me → ¬ In a peer) →
  rewrite_route me peer r = Ok (r', d) →
  rewrite_route me peer r' = Ok (r', false).
Proof.
  intros Hdisj. unfold rewrite_route.
  destruct (negb (String.eqb (rt_nextHopType r) "VirtualAppliance")) eqn:Ht.
  { intros [= <- <-]. by rewrite Ht. }
  destruct (rt_nextHopIpAddress r) as [nh|] eqn:Hnh.
  2:{ intros [= <- <-]. by rewrite Ht, Hnh. }
  destruct (negb (PyStr.mem nh peer)) eqn:Hmem.
  { intros [= <- <-]. by rewrite Ht, Hnh, Hmem. }
  destruct (is_peer_host_prefix peer r) eqn:Hpre.
  { intros [= <- <-]. by rewrite Ht, Hnh, Hmem, Hpre. }
  destruct (PyStr.index nh peer) as [i|]; [| done].
  destruct (me !! i) as [a|] eqn:Ha; [| done].
  intros [= <- <-]. simpl. rewrite Ht.
  assert (Hnot : PyStr.mem a peer = false).
  { destruct (PyStr.mem a peer) eqn:Hm; [| done].
    apply mem_In in Hm. exfalso. apply (Hdisj a); [| done].
    apply list_elem_of_In. by eapply list_elem_of_lookup_2. }
  by rewrite Hnot.
Qed.

Lemma rewrite_routes_settles (me peer : list string) (routes routes' : list route)
    (d0 d d1 : bool) :
  (∀ a, In a me → ¬ In a peer) →
  rewrite_routes me peer routes d0 = Ok (routes', d) →
  rewrite_routes me peer routes' d1 = Ok (routes', d1).
Proof.
  intros Hdisj. revert routes' d0 d d1.
  induction routes as [|r rest IH]; intros routes' d0 d d1; simpl.
  - by intros [= <- <-].
  - destruct (rewrite_route me peer r) as [[r' dr] | e] eqn:Hr; [| done].
    destruct (rewrite_routes me peer rest (d0 || dr)) as [[rest' dd] | e] eqn:Hrest; [| done].
    intros [= <- <-]. simpl.
    rewrite (rewrite_route_settles me peer r r' dr Hdisj Hr).
    rewrite (IH rest' _ _ (d1 || false) Hrest). by rewrite orb_false_r.
Qed.

Section RoutesMore.

Context {fmt : PyFormat}.
Variable arm : list event → method → string → option resource → arm_outcome.
Variable conf : config.

(** X12.  A route table that holds the routes a pass of the loop has left
    is changed no more: when no local address is also a peer address and
    the cloud returns such a table, ready, [set_routing_tables] reads it,
    sends no PUT for it and does not count it as work to be done. *)
Theorem route_table_settled (rid : string) (table : resource) (routes routes' : list route)
    (d : bool) (hd : headers) (h : list event) :
  let me := addresses_me conf in
  let peer := addresses_peer conf in
  let url := rid +:+ get_api_version rid in
  (∀ a, In a me → ¬ In a peer) →
  rewrite_routes me peer routes false = Ok (routes', d) →
  arm h GET url None = ArmReturn hd (DResource table) →
  r_provisioningState table = "Succeeded"%string →
  r_routes table = Some routes' →
  process_route_table arm conf rid tt h = (tt, [EArm GET url None], Ok false).
Proof.
  intros me peer url Hdisj Hrw Harm Hready Hroutes.
  pose proof (rewrite_routes_settles me peer routes routes' false d false Hdisj Hrw) as Hset.
  unfold process_route_table, try_catch, bind, azure_arm, as_resource, lift_result, ret.
  fold url. rewrite Harm. simpl.
  rewrite (is_resource_ready_succeeded arm table tt _ Hready). simpl.
  rewrite Hroutes. simpl. fold me peer. rewrite Hset. done.
Qed.

(** The handler of [rest.RequestException] around one route table. *)
Lemma route_table_handler_codes {A : Type} (m : M unit A) (dflt : A) (s : unit)
    (h : list event) (code : Z) (msg : string) :
  (try_catch m
     (λ e, match e with
           | RequestException code _ =>
               if (code =? 401) || (code =? 403) then ret dflt else raise e
           | _ => raise e
           end) s h).2 = Raise (RequestException code msg) →
  code ≠ 401 ∧ code ≠ 403.
Proof.
  unfold try_catch. destruct (m s h) as [[s1 e1] [a | e]]; simpl; [done |].
  destruct e as [c m' | | k]; simpl; [| done | done].
  destruct ((c =? 401) || (c =? 403)) eqn:Hc; simpl; [done |].
  intros [= -> ->]. apply orb_false_iff in Hc as [H1 H2].
  apply Z.eqb_neq in H1, H2. done.
Qed.

(** X11.  Around each route table, a [RequestException] with code 401 or
    403 is absorbed, wherever it comes from (the GET, the reset or the
    PUT): it never leaves the loop body, and when the GET fails with it the
    table is skipped without being counted as work to be done.  Any other
    failure of the GET reaches the caller. *)
Theorem route_table_auth_errors (rid : string) (h : list event) :
  let url := rid +:+ get_api_version rid in
  let run := process_route_table arm conf rid tt h in
  (∀ code msg, run.2 = Raise (RequestException code msg) → code ≠ 401 ∧ code ≠ 403)
  ∧ (∀ code msg, arm h GET url None = ArmRaise (RequestException code msg) →
                 code = 401 ∨ code = 403 →
                 run = (tt, [EArm GET url None], Ok false))
  ∧ (∀ e, arm h GET url None = ArmRaise e →
          (∀ code msg, e = RequestException code msg → code ≠ 401 ∧ code ≠ 403) →
          run = (tt, [EArm GET url None], Raise e)).
Proof.
  intros url run. split; [| split].
  - intros code msg. subst run. unfold process_route_table.
    apply route_table_handler_codes.
  - intros code msg Harm Hcode. subst run.
    unfold process_route_table, try_catch, bind at 1, azure_arm. fold url. rewrite Harm.
    simpl. by destruct Hcode as [-> | ->].
  - intros e Harm He. subst run.
    unfold process_route_table, try_catch, bind at 1, azure_arm. fold url. rewrite Harm.
    destruct e as [code msg | | kind]; [| done | done].
    destruct (He code msg eq_refl) as [H1 H2].
    apply Z.eqb_neq in H1, H2. simpl. by rewrite H1, H2.
Qed.

(** X10.  A route table sets [todo] only by not being ready: when the loop
    body yields True for a table, the cloud had returned it with a
    [provisioningState] other than [Succeeded].  A table that was ready,
    rewritten and PUT is not counted as work to be done. *)
Theorem route_table_todo_only_when_not_ready (rid : string) (h : list event) :
  let url := rid +:+ get_api_version rid in
  (process_route_table arm conf rid tt h).2 = Ok true →
  ∃ hd table,
    arm h GET url None = ArmReturn hd (DResource table)
    ∧ r_provisioningState table ≠ "Succeeded"%string.
Proof.
  intros url.
  unfold process_route_table, try_catch, bind, azure_arm, as_resource, lift_result, ret, raise.
  fold url.
  destruct (arm h GET url None) as [hd d | e] eqn:Harm.
  2:{ destruct e as [code msg | | kind]; simpl; [| done | done].
      destruct ((code =? 401) || (code =? 403)); done. }
  destruct d as [table | v | l | j]; [| done | done | done]. simpl.
  destruct (String.eqb_spec (r_provisioningState table) "Succeeded") as [Hs | Hs];
    [| intros _; by exists hd, table].
  rewrite (is_resource_ready_succeeded arm table tt _ Hs). simpl.
  destruct (rewrite_routes _ _ _ false) as [[routes' dirty] | e]; simpl.
  2:{ destruct e as [code msg | | kind]; simpl; [| done | done].
      destruct ((code =? 401) || (code =? 403)); done. }
  destruct dirty; simpl; [| done].
  match goal with
  | |- context [safe_arm_put arm ?a ?b ?c ?s0 ?h0] =>
      destruct (safe_arm_put arm a b c s0 h0) as [[s2 e2] [v | e]]
  end; simpl; [done |].
  destruct e as [code msg | | kind]; simpl; [| done | done].
  destruct ((code =? 401) || (code =? 403)); done.
Qed.

End RoutesMore.

Section RoutesMoreSamples.

#[local] Existing Instance sample_format.

Lemma route_table_settled_witness :
  process_route_table
    (λ _ _ _ _, ArmReturn ok_headers
                  (DResource (with_routes [ with_nextHopIpAddress "10.0.1.4" sample_default_route;
                                            sample_host_route ] sample_route_table)))
    sample_conf sample_route_table_id tt []
  = (tt, [EArm GET (sample_route_table_id +:+ get_api_version sample_route_table_id) None],
     Ok false).
Proof.
  apply (route_table_settled _ sample_conf sample_route_table_id
           (with_routes [ with_nextHopIpAddress "10.0.1.4" sample_default_route;
                          sample_host_route ] sample_route_table)
           [sample_default_route; sample_host_route]
           [ with_nextHopIpAddress "10.0.1.4" sample_default_route; sample_host_route ]
           true ok_headers []); try reflexivity.
  intros a [<- | []] [Heq | []]. discriminate.
Defined.

Lemma route_table_todo_only_when_not_ready_witness :
  ∃ hd table,
    (λ _ _ _ _, ArmReturn ok_headers
                  (DResource (sample_nic sample_route_table_id "rt1" "Updating" [])))
      ([] : list event) GET (sample_route_table_id +:+ get_api_version sample_route_table_id)
      (None : option resource)
    = ArmReturn hd (DResource table)
    ∧ r_provisioningState table ≠ "Succeeded"%string.
Proof.
  apply (route_table_todo_only_when_not_ready
           (λ _ _ _ _, ArmReturn ok_headers
                         (DResource (sample_nic sample_route_table_id "rt1" "Updating" [])))
           sample_conf sample_route_table_id []).
  reflexivity.
Defined.

End RoutesMoreSamples.

(** * The public-address reconciler: further properties *)

Lemma lower_ascii_idemp (c : ascii) :
  PyStr.lower_ascii (PyStr.lower_ascii c) = PyStr.lower_ascii c.
Proof. destruct c as [[] [] [] [] [] [] [] []]; reflexivity. Qed.

Lemma lower_idemp (s : string) : PyStr.lower (PyStr.lower s) = PyStr.lower s.
Proof. induction s as [|c s IH]; [done |]. simpl. by rewrite lower_ascii_idemp, IH. Qed.

Lemma elem_of_lower_set (x : string) (ids : list string) :
  x ∈ lower_set ids ↔ ∃ y, y ∈ ids ∧ x = PyStr.lower y.
Proof.
  unfold lower_set. rewrite elem_of_list_to_set, list_elem_of_fmap. split.
  - intros (y & -> & Hy). by exists y.
  - intros (y & Hy & ->). by exists y.
Qed.

(** Lower-casing the elements of a set of lower-case strings gives the set
    back. *)
Lemma lower_set_elements (X : gset string) :
  (∀ x, x ∈ X → PyStr.lower x = x) → lower_set (elements X) = X.
Proof.
  intros Hlow. apply set_eq. intros x. rewrite elem_of_lower_set. split.
  - intros (y & Hy & ->). apply elem_of_elements in Hy. by rewrite (Hlow y Hy).
  - intros Hx. exists x. split; [by apply elem_of_elements | by rewrite (Hlow x Hx)].
Qed.

Section PublicAddressMore.

Context {fmt : PyFormat}.
Variable arm : list event → method → string → option resource → arm_outcome.
Variable conf : config.

(** What [set_public_address] compares with is a set of lower-case ids. *)
Lemma observe_public_address_rules (h evs : list event) (o : observed) :
  observe_public_address arm conf tt h = (tt, evs, Ok (inr o)) →
  ∃ rules, non_cp_nat_rules o = lower_set rules.
Proof.
  unfold observe_public_address. intros H.
  apply bind_Ok_inv in H as ([] & e1 & rules & e1' & H1 & H & ->).
  apply bind_Ok_inv in H as ([] & e2 & me & e2' & H2 & H & ->).
  apply bind_Ok_inv in H as ([] & e3 & peer & e3' & H3 & H & ->).
  apply bind_Ok_inv in H as ([] & e4 & mev & e4' & H4 & H & ->).
  apply bind_Ok_inv in H as ([] & e5 & mynic & e5' & H5 & H & ->).
  apply bind_Ok_inv in H as ([] & e6 & ready & e6' & H6 & H & ->).
  destruct ready; simpl in H; [| by inversion H].
  apply bind_Ok_inv in H as ([] & e7 & myc & e7' & H7 & H & ->).
  apply bind_Ok_inv in H as ([] & e8 & peerv & e8' & H8 & H & ->).
  apply bind_Ok_inv in H as ([] & e9 & peernic & e9' & H9 & H & ->).
  apply bind_Ok_inv in H as ([] & e10 & ready & e10' & H10 & H & ->).
  destruct ready; simpl in H; [| by inversion H].
  apply bind_Ok_inv in H as ([] & e11 & peerc & e11' & H11 & H & ->).
  apply bind_Ok_inv in H as ([] & e12 & pip & e12' & H12 & H & ->).
  inversion H; subst; simpl. by exists rules.
Qed.


(** X15.  When [set_public_address] writes the local NIC, what it asks for
    passes its own test of being set: the body of the one call of
    [safe_arm_put] is the local NIC with a first ipConfiguration for which,
    against the same load balancer rules and cluster address, the guard
    [Interface already set] holds. *)
Theorem public_address_association_settles (o : observed) (h0 evs h : list event) :
  observe_public_address arm conf tt h0 = (tt, evs, Ok (inr o)) →
  already_set o = false →
  peer_holds o = false →
  ∃ c rest res,
    decide_public_address arm conf o tt h
    = (tt, ESafePut (r_id (my_nic o)) (with_first_ipconf c (my_nic o))
             "my NIC public IP association" :: rest, res)
    ∧ Forall (λ ev, is_safe_put ev = false) rest
    ∧ (res = Ok true ∨ ∃ e, res = Raise e)
    ∧ already_set {| non_cp_nat_rules := non_cp_nat_rules o;
                     my_nic := with_first_ipconf c (my_nic o);
                     my_ip_conf := c;
                     peer_nic := peer_nic o;
                     peer_ip_conf := peer_ip_conf o;
                     public_ip := public_ip o |} = true.
Proof.
  intros Hobs Hset Hpeer.
  destruct (observe_public_address_rules _ _ _ Hobs) as [rules Hrules].
  unfold decide_public_address. rewrite Hset, Hpeer. unfold bind.
  match goal with
  | |- context [safe_arm_put arm ?rid ?b ?d ?s0 ?h0] =>
      destruct (safe_arm_put_events arm rid b d s0 h0) as (rest & res & -> & Hq)
  end.
  assert (Hgoal : ∀ res' : result bool,
             (res' = Ok true ∨ ∃ e, res' = Raise e) →
             ∃ c rest0 res0,
               (tt, ESafePut (r_id (my_nic o))
                      (with_first_ipconf
                         (with_natRules (elements (my_nat_rules o ∪ non_cp_nat_rules o))
                            (if negb (public_ip_absent o)
                             then with_publicIPAddress (Some (public_ip_id conf)) (my_ip_conf o)
                             else my_ip_conf o)) (my_nic o))
                      "my NIC public IP association" :: rest, res')
               = (tt, ESafePut (r_id (my_nic o)) (with_first_ipconf c (my_nic o))
                        "my NIC public IP association" :: rest0, res0)
               ∧ Forall (λ ev, is_safe_put ev = false) rest0
               ∧ (res0 = Ok true ∨ ∃ e, res0 = Raise e)
               ∧ already_set {| non_cp_nat_rules := non_cp_nat_rules o;
                                my_nic := with_first_ipconf c (my_nic o);
                                my_ip_conf := c;
                                peer_nic := peer_nic o;
                                peer_ip_conf := peer_ip_conf o;
                                public_ip := public_ip o |} = true);
    [| destruct res as [v | e]; simpl; rewrite ?app_nil_r; apply Hgoal;
       first [by left | right; by eexists]].
  intros res' Hres'. eexists _, rest, res'. split; [reflexivity |].
  split; [exact Hq |]. split; [exact Hres' |].
  unfold already_set, my_nat_rules. simpl.
  apply andb_true_iff. split.
  - unfold public_ip_absent. simpl.
    destruct (public_ip o) as [d|]; [| done].
    destruct (data_truthy d); done.
  - apply bool_decide_eq_true.
    rewrite lower_set_elements; [apply union_subseteq_r |].
    intros x [Hx | Hx]%elem_of_union.
    + unfold my_nat_rules in Hx. apply elem_of_lower_set in Hx as (y & _ & ->).
      apply lower_idemp.
    + rewrite Hrules in Hx. apply elem_of_lower_set in Hx as (y & _ & ->).
      apply lower_idemp.
Qed.

(** X13.  [get_vm_primary_nic] sends one request, a GET of one of the VM's
    network interfaces: the first one flagged [primary], and the last one
    of the list when none is flagged.  It returns what the cloud answers. *)
Theorem get_vm_primary_nic_choice (v : vm) (h : list event) (dflt : string * option bool) :
  vm_networkInterfaces v ≠ [] →
  let nis := vm_networkInterfaces v in
  let ni := default (List.last nis dflt)
              (List.find (λ ni, bool_decide (snd ni = Some true)) nis) in
  let url := fst ni +:+ get_api_version (fst ni) in
  (get_vm_primary_nic arm v tt h).1 = (tt, [EArm GET url None])
  ∧ ∀ hd r, arm h GET url None = ArmReturn hd (DResource r) →
            (get_vm_primary_nic arm v tt h).2 = Ok r.
Proof.
  intros Hne nis ni url. unfold get_vm_primary_nic. fold nis.
  assert (Hsel : match nis with [x] => Some x | _ => first_primary nis end = Some ni).
  { subst ni. rewrite <- (first_primary_spec nis dflt Hne).
    destruct nis as [|x [|y rest]]; done. }
  rewrite Hsel. unfold bind, azure_arm. fold url.
  destruct (arm h GET url None) as [hd d | e] eqn:Harm.
  - destruct d as [r | | |]; simpl; (split; [done |]); by intros ?? [= <- <-].
  - simpl. split; [done |]. done.
Qed.

End PublicAddressMore.

Section PublicAddressMoreSamples.

#[local] Existing Instance sample_format.

Lemma get_vm_primary_nic_choice_witness :
  (get_vm_primary_nic cloud_ok
     {| vm_networkInterfaces := [("nic-a"%string, None); ("nic-b"%string, Some true);
                                 ("nic-c"%string, Some true)] |} tt []).1
  = (tt, [EArm GET ("nic-b" +:+ get_api_version "nic-b") None]).
Proof.
  apply (proj1 (get_vm_primary_nic_choice cloud_ok
                  {| vm_networkInterfaces := [("nic-a"%string, None); ("nic-b"%string, Some true);
                                              ("nic-c"%string, Some true)] |}
                  [] (""%string, None) ltac:(discriminate))).
Defined.


Lemma public_address_association_settles_witness :
  ∃ c rest res,
    decide_public_address cloud_public_address_free sample_conf sample_observed_free tt []
    = (tt, ESafePut (r_id (my_nic sample_observed_free))
             (with_first_ipconf c (my_nic sample_observed_free))
             "my NIC public IP association" :: rest, res)
    ∧ Forall (λ ev, is_safe_put ev = false) rest
    ∧ (res = Ok true ∨ ∃ e, res = Raise e)
    ∧ already_set {| non_cp_nat_rules := non_cp_nat_rules sample_observed_free;
                     my_nic := with_first_ipconf c (my_nic sample_observed_free);
                     my_ip_conf := c;
                     peer_nic := peer_nic sample_observed_free;
                     peer_ip_conf := peer_ip_conf sample_observed_free;
                     public_ip := public_ip sample_observed_free |} = true.
Proof.
  eapply (public_address_association_settles cloud_public_address_free sample_conf
            sample_observed_free [] _ []).
  - vm_compute. reflexivity.
  - by vm_compute.
  - by vm_compute.
Defined.

End PublicAddressMoreSamples.

(** * The load-balancer reconciler *)

Section LbNatRulesFacts.

Context {fmt : PyFormat}.
Variable arm : list event → method → string → option resource → arm_outcome.
Variable conf : config.

(** X16.  Without a NAT rule to move, [set_lb_nat_rules] reads nothing but
    the load balancer and writes nothing: with no [lbName] it sends no
    request at all; when the GET of the load balancer fails with 404, or
    returns no rule whose name starts with [cluster-vip] (letter case
    ignored), that GET is its only request.  In each case the value is
    False. *)
Theorem set_lb_nat_rules_nothing_to_move (h : list event) :
  let name := default ""%string (lbName conf) in
  let lbId := baseId conf +:+ "microsoft.network/loadBalancers/" +:+ name in
  let run := set_lb_nat_rules arm conf tt h in
  (name = ""%string → run = (tt, [], Ok false))
  ∧ (name ≠ ""%string →
     (∀ msg, arm h GET lbId None = ArmRaise (RequestException 404 msg) →
             run = (tt, [EArm GET lbId None], Ok false))
     ∧ (∀ hd l, arm h GET lbId None = ArmReturn hd (DLb l) →
                Forall (λ r, PyStr.startswith (PyStr.lower (snd r)) "cluster-vip" = false)
                  (lb_inboundNatRules l) →
                run = (tt, [EArm GET lbId None], Ok false))).
Proof.
  intros name lbId run. subst run name lbId.
  unfold set_lb_nat_rules, read_cluster_vip_nat_rules.
  destruct (lbName conf) as [n|]; simpl; [| split; [done |]; by intros []].
  destruct (String.eqb_spec n "") as [-> | Hn]; simpl.
  { split; [done |]. by intros []. }
  split; [done |]. intros _. split.
  - intros msg Harm. unfold bind, try_catch, azure_arm. rewrite Harm. done.
  - intros hd l Harm Hnone. unfold bind, try_catch, azure_arm. rewrite Harm. simpl.
    assert (Hf : filter (λ r : string * string,
                           PyStr.startswith (PyStr.lower r.2) "cluster-vip")
                   (lb_inboundNatRules l) = []).
    { induction Hnone as [|r rs Hr _ IH]; [done |].
      rewrite filter_cons. rewrite Hr. simpl. exact IH. }
    rewrite Hf. done.
Qed.


(** X18.  When [set_lb_nat_rules] writes the local NIC, the body it asks
    for is one on which the function has nothing left to do: run on the
    local NIC as written, the decision finds every rule on it, sends
    nothing and yields False. *)
Theorem lb_nat_rules_association_settles (rules : list string) (my_nic : resource)
    (my_ip_conf : ipconf) (peer_nic : resource) (peer_ip_conf : ipconf) (h h' : list event) :
  let nat_rules := lower_set rules in
  let my_rules := lower_set (default [] (ipc_loadBalancerInboundNatRules my_ip_conf)) in
  let peer_ids := default [] (ipc_loadBalancerInboundNatRules peer_ip_conf) in
  ¬ nat_rules ⊆ my_rules →
  nat_rules ∩ lower_set peer_ids = ∅ →
  ∃ c rest res,
    decide_lb_nat_rules arm nat_rules my_nic my_ip_conf peer_nic peer_ip_conf tt h
    = (tt, ESafePut (r_id my_nic) (with_first_ipconf c my_nic) "my NIC association" :: rest,
       res)
    ∧ Forall (λ ev, is_safe_put ev = false) rest
    ∧ (res = Ok true ∨ ∃ e, res = Raise e)
    ∧ ipc_publicIPAddress c = ipc_publicIPAddress my_ip_conf
    ∧ decide_lb_nat_rules arm nat_rules (with_first_ipconf c my_nic) c peer_nic peer_ip_conf
        tt h'
      = (tt, [], Ok false).
Proof.
  intros nat_rules my_rules peer_ids Hsub Hint. unfold decide_lb_nat_rules at 1.
  fold my_rules. fold peer_ids. fold nat_rules.
  rewrite (bool_decide_eq_false_2 _ Hsub), (bool_decide_eq_true_2 _ Hint). simpl.
  unfold bind.
  match goal with
  | |- context [safe_arm_put arm ?rid ?b ?d ?s0 ?h0] =>
      destruct (safe_arm_put_events arm rid b d s0 h0) as (rest & res & -> & Hq)
  end.
  assert (Hdone : decide_lb_nat_rules arm nat_rules
                    (with_first_ipconf
                       (with_natRules (elements (my_rules ∪ nat_rules)) my_ip_conf) my_nic)
                    (with_natRules (elements (my_rules ∪ nat_rules)) my_ip_conf)
                    peer_nic peer_ip_conf tt h' = (tt, [], Ok false)).
  { unfold decide_lb_nat_rules. simpl.
    rewrite lower_set_elements.
    - rewrite bool_decide_eq_true_2; [done | apply union_subseteq_r].
    - intros x [Hx | Hx]%elem_of_union.
      + apply elem_of_lower_set in Hx as (y & _ & ->). apply lower_idemp.
      + apply elem_of_lower_set in Hx as (y & _ & ->). apply lower_idemp. }
  destruct res as [v | e]; simpl; rewrite ?app_nil_r; eexists _, rest, _;
    (split; [reflexivity |]); (split; [exact Hq |]);
    (split; [first [by left | right; by eexists] |]); (split; [done | exact Hdone]).
Qed.

End LbNatRulesFacts.

Section LbNatRulesFactsSamples.

#[local] Existing Instance sample_format.


Lemma lb_nat_rules_association_settles_witness :
  ∃ c rest res,
    decide_lb_nat_rules cloud_ok (lower_set [sample_lb_rule_id]) sample_my_nic
      (sample_ipconf "ipconfig1" "10.0.0.4" true) sample_peer_nic
      (sample_ipconf "ipconfig1" "10.0.0.5" true) tt []
    = (tt, ESafePut (r_id sample_my_nic) (with_first_ipconf c sample_my_nic)
             "my NIC association" :: rest, res)
    ∧ Forall (λ ev, is_safe_put ev = false) rest
    ∧ (res = Ok true ∨ ∃ e, res = Raise e)
    ∧ ipc_publicIPAddress c = ipc_publicIPAddress (sample_ipconf "ipconfig1" "10.0.0.4" true)
    ∧ decide_lb_nat_rules cloud_ok (lower_set [sample_lb_rule_id])
        (with_first_ipconf c sample_my_nic) c sample_peer_nic
        (sample_ipconf "ipconfig1" "10.0.0.5" true) tt []
      = (tt, [], Ok false).
Proof.
  apply (lb_nat_rules_association_settles cloud_ok [sample_lb_rule_id] sample_my_nic
           (sample_ipconf "ipconfig1" "10.0.0.4" true) sample_peer_nic
           (sample_ipconf "ipconfig1" "10.0.0.5" true) [] []).
  - apply (bool_decide_unpack _). by vm_compute.
  - apply (bool_decide_unpack _). by vm_compute.
Defined.

End LbNatRulesFactsSamples.

(** * The configuration: further properties *)

(** ** The structure of [clusterNetworkInterfaces] *)

Lemma dict_set_nonempty {V : Type} (k : string) (v : V) (d : list (string * V)) :
  dict_set k v d ≠ [].
Proof. destruct d as [|[k' v'] d]; simpl; [done |]. by destruct (String.eqb k' k). Qed.

Section ConfStructureFacts.

Variables NAME PRIVATE_IP_ADDR PUBLIC_IP_OBJ : string.

Lemma single_vip_is_dict (addr pub : jval) :
  is_dict (single_vip NAME PRIVATE_IP_ADDR PUBLIC_IP_OBJ addr pub) = true.
Proof. done. Qed.

(** What the conversion yields for one interface is in the new format, and
    a value in the new format is left as it is. *)
Lemma update_interface_new_format (v v' : jval) :
  update_interface NAME PRIVATE_IP_ADDR PUBLIC_IP_OBJ v = Ok v' → new_format v' = true.
Proof.
  destruct v as [| b | n | s | l | o]; simpl; try done.
  - destruct s; by intros [= <-].
  - destruct l as [|x0 rest]; [by intros [= <-] |].
    destruct (is_dict x0) eqn:Hd; intros [= <-]; simpl; [done |]. done.
  - destruct o; [by intros [= <-] | done].
Qed.

Lemma update_interface_fixed (v : jval) :
  new_format v = true → update_interface NAME PRIVATE_IP_ADDR PUBLIC_IP_OBJ v = Ok v.
Proof.
  destruct v as [| b | n | s | l | o]; simpl; try done.
  - by destruct s.
  - destruct l as [|x0 rest]; [done |]. by intros ->.
  - by destruct o.
Qed.

Lemma update_conf_keys (items : list (string * jval)) :
  map fst (update_conf_structure_multiple_vip NAME PRIVATE_IP_ADDR PUBLIC_IP_OBJ items).1 = map fst items.
Proof.
  induction items as [|[k v] rest IH]; [done |]. simpl.
  destruct (update_interface NAME PRIVATE_IP_ADDR PUBLIC_IP_OBJ v) as [v' | e]; [| done].
  destruct (update_conf_structure_multiple_vip NAME PRIVATE_IP_ADDR PUBLIC_IP_OBJ rest) as [rest' err]. simpl in *. by rewrite IH.
Qed.

Lemma update_conf_new_format (items out : list (string * jval)) :
  update_conf_structure_multiple_vip NAME PRIVATE_IP_ADDR PUBLIC_IP_OBJ items = (out, None) → Forall (λ kv, new_format kv.2 = true) out.
Proof.
  revert out. induction items as [|[k v] rest IH]; intros out; simpl.
  - intros [= <-]. constructor.
  - destruct (update_interface NAME PRIVATE_IP_ADDR PUBLIC_IP_OBJ v) as [v' | e] eqn:Hv; [| done].
    destruct (update_conf_structure_multiple_vip NAME PRIVATE_IP_ADDR PUBLIC_IP_OBJ rest) as [rest' err]. intros [= <- ->].
    constructor; [by eapply update_interface_new_format | by apply IH].
Qed.

Lemma update_conf_fixed (items : list (string * jval)) :
  Forall (λ kv, new_format kv.2 = true) items → update_conf_structure_multiple_vip NAME PRIVATE_IP_ADDR PUBLIC_IP_OBJ items = (items, None).
Proof.
  induction 1 as [|[k v] rest Hv _ IH]; [done |]. simpl.
  rewrite (update_interface_fixed v Hv), IH. done.
Qed.

(** X19.  [update_conf_structure_multiple_vip] keeps the interfaces and
    their order, whether it completes or raises.  When it completes, every
    interface holds an empty value or a list that starts with a dictionary,
    and a second call changes nothing; an interface that already held such
    a value is left as it was. *)
Theorem update_conf_structure_idempotent (cluster_nics : list (string * jval)) :
  let run := update_conf_structure_multiple_vip NAME PRIVATE_IP_ADDR PUBLIC_IP_OBJ cluster_nics in
  map fst run.1 = map fst cluster_nics
  ∧ (run.2 = None →
     Forall (λ kv, new_format kv.2 = true) run.1
     ∧ update_conf_structure_multiple_vip NAME PRIVATE_IP_ADDR PUBLIC_IP_OBJ run.1 = (run.1, None)
     ∧ ∀ i k v, cluster_nics !! i = Some (k, v) → new_format v = true →
                run.1 !! i = Some (k, v)).
Proof.
  simpl. split; [apply update_conf_keys |].
  intros Hnone.
  destruct (update_conf_structure_multiple_vip NAME PRIVATE_IP_ADDR PUBLIC_IP_OBJ cluster_nics) as [out err] eqn:Hrun. simpl in *. subst err.
  pose proof (update_conf_new_format _ _ Hrun) as Hnew.
  split; [exact Hnew |]. split; [by apply update_conf_fixed |].
  clear Hnew. revert out Hrun.
  induction cluster_nics as [|[k0 v0] rest IH]; intros out Hrun i k v Hi Hv; [done |].
  simpl in Hrun.
  destruct (update_interface NAME PRIVATE_IP_ADDR PUBLIC_IP_OBJ v0) as [v0' | e] eqn:Hv0; [| done].
  destruct (update_conf_structure_multiple_vip NAME PRIVATE_IP_ADDR PUBLIC_IP_OBJ rest) as [rest' err] eqn:Hrest.
  injection Hrun as <- ->.
  destruct i as [|i]; simpl in *.
  - injection Hi as -> ->. rewrite (update_interface_fixed v Hv) in Hv0.
    by injection Hv0 as <-.
  - by eapply IH.
Qed.

(** X20.  A value in the old format, a non-empty list that does not start
    with a dictionary, becomes a list of one dictionary with three keys:
    the name [cluster-vip], the first element as the private address, and
    the second element, or the empty string when there is none, as the
    public address; any further element is dropped. *)
Theorem update_interface_old_format (x0 : jval) (rest : list jval) :
  is_dict x0 = false →
  NAME ≠ PRIVATE_IP_ADDR → NAME ≠ PUBLIC_IP_OBJ → PRIVATE_IP_ADDR ≠ PUBLIC_IP_OBJ →
  ∃ d,
    update_interface NAME PRIVATE_IP_ADDR PUBLIC_IP_OBJ (JArr (x0 :: rest)) = Ok (JArr [JObj d])
    ∧ map fst d = [NAME; PRIVATE_IP_ADDR; PUBLIC_IP_OBJ]
    ∧ dict_get NAME d = Some (JStr "cluster-vip")
    ∧ dict_get PRIVATE_IP_ADDR d = Some x0
    ∧ dict_get PUBLIC_IP_OBJ d = Some (default (JStr "") (head rest)).
Proof.
  intros Hd H1 H2 H3. simpl. rewrite Hd. eexists. split; [reflexivity |].
  assert (E1 : String.eqb NAME PRIVATE_IP_ADDR = false) by by apply String.eqb_neq.
  assert (E2 : String.eqb NAME PUBLIC_IP_OBJ = false) by by apply String.eqb_neq.
  assert (E3 : String.eqb PRIVATE_IP_ADDR PUBLIC_IP_OBJ = false) by by apply String.eqb_neq.
  simpl. rewrite E1. simpl. rewrite E2, E3. simpl.
  rewrite !String.eqb_refl, E1, E2, E3.
  destruct rest; done.
Qed.

End ConfStructureFacts.

Lemma update_interface_old_format_witness :
  ∃ d,
    update_interface "name" "privateIpAddr" "publicIpObj"
      (JArr [JStr "10.0.1.10"; JStr "cluster-pip"; JStr "ignored"]) = Ok (JArr [JObj d])
    ∧ map fst d = ["name"; "privateIpAddr"; "publicIpObj"]%string
    ∧ dict_get "name" d = Some (JStr "cluster-vip")
    ∧ dict_get "privateIpAddr" d = Some (JStr "10.0.1.10")
    ∧ dict_get "publicIpObj" d = Some (JStr "cluster-pip").
Proof.
  apply (update_interface_old_format "name" "privateIpAddr" "publicIpObj"
           (JStr "10.0.1.10") [JStr "cluster-pip"; JStr "ignored"]).
  - reflexivity.
  - discriminate.
  - discriminate.
  - discriminate.
Defined.

(** ** The usage report *)




(** ** Loading the configuration *)

(** X22.  The first part of [reconf] merges the dump into the
    configuration it already holds and never drops a key: apart from
    [hostname] and [peername], every key of the dump gets the dump's value
    and every other key keeps the value it had.  [hostname] is the dump's
    value, or the host name of the machine when the dump has none, and a
    [peername] in the dump is taken as it is. *)
Theorem reconf_merges_dump (c conf conf' : gmap string jval) (gethostname templateName : string) :
  reconf_head c conf gethostname = Ok (conf', templateName) →
  (∀ k, k ≠ "hostname"%string → k ≠ "peername"%string →
        conf' !! k = match c !! k with
                     | Some v => Some v
                     | None => conf !! k
                     end)
  ∧ conf' !! "hostname"%string
    = Some (default (JStr gethostname) (c !! "hostname"%string))
  ∧ (∀ p, c !! "peername"%string = Some p → conf' !! "peername"%string = Some p)
  ∧ templateName
    = match default (JStr "") ((c ∪ conf) !! "templateName"%string) with
      | JStr t => PyStr.lower t
      | _ => templateName
      end.
Proof.
  unfold reconf_head.
  destruct (negb _ && negb _); [done |].
  destruct (as_str (default (JStr "") (c !! "proxy"%string))); [| done].
  destruct (default (JStr "") ((c ∪ conf) !! "templateName"%string)) as [| | | t | |] eqn:Ht;
    simpl; try done.
  assert (Hmerge : ∀ k, (c ∪ conf) !! k = match c !! k with
                                           | Some v => Some v
                                           | None => conf !! k
                                           end).
  { intros k. rewrite lookup_union. destruct (c !! k), (conf !! k); done. }
  destruct (c !! "peername"%string) as [p|] eqn:Hp.
  - intros [= <- <-]. split; [| split; [| split]].
    + intros k Hh _. rewrite lookup_insert_ne; [apply Hmerge | done].
    + by rewrite lookup_insert_eq.
    + intros p' [= <-]. rewrite lookup_insert_ne; [| done].
      by rewrite Hmerge, Hp.
    + done.
  - destruct (as_str (default (JStr gethostname) (c !! "hostname"%string))) as [hn|]; [| done].
    intros [= <- <-]. split; [| split; [| split]].
    + intros k Hh Hpn. rewrite !lookup_insert_ne; [apply Hmerge | done | done].
    + rewrite lookup_insert_ne; [| done]. by rewrite lookup_insert_eq.
    + done.
    + done.
Qed.

Lemma reconf_merges_dump_witness :
  reconf_head sample_dump {["vnetId"%string := JStr "old"]} "fw1"
  = Ok (<["peername"%string := JStr "fw2"]>
          (<["hostname"%string := JStr "fw1"]>
             (sample_dump ∪ {["vnetId"%string := JStr "old"]})), ""%string)
  ∧ (<["peername"%string := JStr "fw2"]>
       (<["hostname"%string := JStr "fw1"]>
          (sample_dump ∪ {["vnetId"%string := JStr "old"]})) : gmap string jval)
      !! "vnetId"%string
    = match sample_dump !! "vnetId"%string with
      | Some v => Some v
      | None => ({["vnetId"%string := JStr "old"]} : gmap string jval) !! "vnetId"%string
      end.
Proof.
  assert (H : reconf_head sample_dump {["vnetId"%string := JStr "old"]} "fw1"
              = Ok (<["peername"%string := JStr "fw2"]>
                      (<["hostname"%string := JStr "fw1"]>
                         (sample_dump ∪ {["vnetId"%string := JStr "old"]})), ""%string)).
  { vm_compute. reflexivity. }
  split; [exact H |].
  pose proof (reconf_merges_dump _ _ _ _ _ H) as [Hk _].
  apply Hk; discriminate.
Defined.

(** * The event loop and the poll *)

Section ServerPasses.

Context {W : Type} (reconf : W → W * option exn) (poll : W → W)
        (utf8_ok : string → bool).

Lemma drain_good (t : tick) (ev : gset pyval) :
  good_tick utf8_ok t = true → ∃ events, drain utf8_ok (dgrams t) (drain_errno t) ev = Ok events.
Proof.
  unfold good_tick. destruct t as [ds errno]. simpl. revert ev.
  induction ds as [|d ds IH]; intros ev; simpl.
  - intros Hok. rewrite Hok. by eexists.
  - destruct (utf8_ok d); simpl; [apply IH | done].
Qed.

Lemma drain_bad (t : tick) (ev : gset pyval) :
  good_tick utf8_ok t = false →
  drain utf8_ok (dgrams t) (drain_errno t) ev
  = Raise (PyError (if forallb utf8_ok (dgrams t) then "socket.error"
                    else "UnicodeDecodeError")).
Proof.
  unfold good_tick. destruct t as [ds errno]. simpl. revert ev.
  induction ds as [|d ds IH]; intros ev; simpl.
  - by intros ->.
  - destruct (utf8_ok d); simpl; [apply IH | done].
Qed.

Lemma iter_poll (n : nat) (w : W) : Nat.iter n poll (poll w) = poll (Nat.iter n poll w).
Proof. induction n as [|n IH]; simpl; [done | by rewrite IH]. Qed.

(** X23.  [Server.run] polls once in each pass up to the first pass whose
    drain fails, and that pass ends it: when every pass drains cleanly the
    loop is still running after one poll for each of them; otherwise the
    exception of the first failing pass leaves [run], after one poll for
    each pass before it and none for that pass or a later one.  The
    exception is the decoding error when a datagram of that pass does not
    decode, and the socket error otherwise. *)
Theorem run_polls_until_first_bad_pass (ticks : list tick) (w : W) (calls : list string) :
  (Forall (λ t, good_tick utf8_ok t = true) ticks →
   run reconf poll utf8_ok ticks w calls
   = (Nat.iter (length ticks) poll w,
      calls ++ replicate (length ticks) "CHANGED"%string, Running))
  ∧ (∀ pre t post,
       ticks = pre ++ t :: post →
       Forall (λ t, good_tick utf8_ok t = true) pre →
       good_tick utf8_ok t = false →
       run reconf poll utf8_ok ticks w calls
       = (Nat.iter (length pre) poll w,
          calls ++ replicate (length pre) "CHANGED"%string,
          Crashed (PyError (if forallb utf8_ok (dgrams t) then "socket.error"
                            else "UnicodeDecodeError")))).
Proof.
  assert (Hstep : ∀ t rest w calls,
             good_tick utf8_ok t = true →
             run reconf poll utf8_ok (t :: rest) w calls
             = run reconf poll utf8_ok rest (poll w) (calls ++ ["CHANGED"%string])).
  { intros t rest w0 calls0 Hg. simpl.
    destruct (drain_good t ∅ Hg) as [events Hd]. rewrite Hd.
    rewrite (run_handlers_after_drain reconf poll utf8_ok _ _ _ _ _ Hd).
    by rewrite bool_decide_eq_false_2 by (by eapply drain_no_tag). }
  split.
  - revert w calls. induction ticks as [|t rest IH]; intros w calls Hall.
    + simpl. by rewrite app_nil_r.
    + apply Forall_cons in Hall as [Hg Hrest].
      rewrite (Hstep _ _ _ _ Hg), (IH _ _ Hrest). simpl.
      by rewrite iter_poll, <- app_assoc.
  - intros pre t post -> Hpre Hbad. revert w calls.
    induction Hpre as [|p pre Hg _ IH]; intros w calls.
    + simpl. rewrite (drain_bad t ∅ Hbad). by rewrite app_nil_r.
    + change ((p :: pre) ++ t :: post) with (p :: (pre ++ t :: post)).
      rewrite (Hstep _ _ _ _ Hg), IH. simpl.
      by rewrite iter_poll, <- app_assoc.
Qed.

End ServerPasses.

Section LocalActiveFacts.

Context {S : Type}.
Variables set_cluster_ips_ set_routing_tables_ set_lb_nat_rules_ set_public_address_
  : M S bool.
Variable templateName : string.
Variable has_cluster_nics : bool.

Lemma writes_no_done_ret {A : Type} (a : A) : writes_no_done (ret a : M S A).
Proof. intros s h. simpl. constructor. Qed.

Lemma writes_no_done_raise {A : Type} (e : exn) : writes_no_done (raise e : M S A).
Proof. intros s h. simpl. constructor. Qed.

Lemma writes_no_done_bind {A B : Type} (m : M S A) (f : A → M S B) :
  writes_no_done m → (∀ a, writes_no_done (f a)) → writes_no_done (bind m f).
Proof.
  intros Hm Hf s h. unfold bind. specialize (Hm s h).
  destruct (m s h) as [[s1 e1] [a | e]]; simpl in *; [| done].
  specialize (Hf a s1 (h ++ e1)).
  destruct (f a s1 (h ++ e1)) as [[s2 e2] r]; simpl in *.
  apply Forall_app. done.
Qed.

Lemma writes_no_done_try_catch {A : Type} (m : M S A) (f : exn → M S A) :
  writes_no_done m → (∀ e, writes_no_done (f e)) → writes_no_done (try_catch m f).
Proof.
  intros Hm Hf s h. unfold try_catch. specialize (Hm s h).
  destruct (m s h) as [[s1 e1] [a | e]]; simpl in *; [done |].
  specialize (Hf e s1 (h ++ e1)).
  destruct (f e s1 (h ++ e1)) as [[s2 e2] r]; simpl in *.
  apply Forall_app. done.
Qed.

Lemma reconcile_writes_no_done :
  writes_no_done set_cluster_ips_ → writes_no_done set_routing_tables_ →
  writes_no_done set_lb_nat_rules_ → writes_no_done set_public_address_ →
  writes_no_done (reconcile set_cluster_ips_ set_routing_tables_ set_lb_nat_rules_
                    set_public_address_ templateName has_cluster_nics).
Proof.
  intros Hc Hr Hl Hp. unfold reconcile.
  apply writes_no_done_try_catch; [| intros e; apply writes_no_done_raise].
  destruct (PyStr.mem templateName _).
  - apply writes_no_done_bind; [done |]. intros t. apply writes_no_done_ret.
  - apply writes_no_done_bind; [done |]. intros t1.
    destruct has_cluster_nics.
    + apply writes_no_done_bind; [done |]. intros t2.
      apply writes_no_done_bind; [done |]. intros t3. apply writes_no_done_ret.
    + destruct (negb _).
      * apply writes_no_done_bind; [done |]. intros t4. apply writes_no_done_ret.
      * apply writes_no_done_ret.
Qed.

Lemma no_done_filter (evs : list event) :
  Forall (λ ev, is_done ev = false) evs → List.filter is_done evs = [].
Proof.
  induction 1 as [|ev evs Hev _ IH]; [done |].
  simpl. by rewrite Hev.
Qed.

Lemma no_done_not_in (evs : list event) :
  Forall (λ ev, is_done ev = false) evs → ¬ In (EStatus DONE) evs.
Proof.
  induction 1 as [|ev evs Hev _ IH]; [by intros [] |].
  intros [-> | Hin]; [done | by apply IH].
Qed.

(** X24.  [poll] never raises, and it records the status [DONE] exactly
    when it turns [todo] from true to false, at most once, provided the
    reconcilers themselves never record [DONE].  [todo] changes only
    in the state [active] or [active attention]; when a reconciler raises,
    [todo] keeps the value it had. *)
Theorem poll_done_on_transition (state : result string) (conf_todo : bool) (s : S)
    (h : list event) :
  writes_no_done set_cluster_ips_ → writes_no_done set_routing_tables_ →
  writes_no_done set_lb_nat_rules_ → writes_no_done set_public_address_ →
  ∃ s' evs todo,
    poll set_cluster_ips_ set_routing_tables_ set_lb_nat_rules_ set_public_address_
      templateName has_cluster_nics state conf_todo s h = (s', evs, Ok todo)
    ∧ (In (EStatus DONE) evs ↔ conf_todo = true ∧ todo = false)
    ∧ (length (List.filter is_done evs) ≤ 1)%nat
    ∧ (todo ≠ conf_todo → is_active state = true)
    ∧ (∀ s1 e1 e,
         reconcile set_cluster_ips_ set_routing_tables_ set_lb_nat_rules_
           set_public_address_ templateName has_cluster_nics s h = (s1, e1, Raise e) →
         is_active state = true → s' = s1 ∧ evs = e1 ∧ todo = conf_todo).
Proof.
  intros Hc Hr Hl Hp.
  pose proof (reconcile_writes_no_done Hc Hr Hl Hp s h) as Hq.
  unfold poll, setLocalActive.
  unfold try_catch, bind, lift_result, is_active, ret, raise, emit.
  destruct state as [st | e0].
  2:{ eexists s, [], conf_todo. split; [done |]. split.
      - split; [done |]. intros [-> Hf]. done.
      - split; [simpl; lia |]. split; [done |]. done. }
  generalize (PyStr.mem st ["active"; "active attention"]%string). intros [|].
  2:{ eexists s, [EStatus NOT_STARTED], conf_todo. split; [done |]. split.
      - split.
        + intros [Hin | []]. discriminate.
        + intros [-> Hf]. done.
      - split; [simpl; lia |].
        split; [done |]. done. }
  cbv beta iota. rewrite app_nil_r.
  destruct (reconcile _ _ _ _ _ _ s h) as [[s1 e1] [todo | e]] eqn:Hrec; simpl in Hq.
  - destruct (conf_todo && negb todo) eqn:Hdone; simpl.
    + apply andb_true_iff in Hdone as [-> Hn]. apply negb_true_iff in Hn as ->.
      eexists s1, (e1 ++ [EStatus DONE]), false. split; [done |]. split.
      * split; [done |]. intros _. apply in_or_app. right. by left.
      * split.
        { rewrite List.filter_app, (no_done_filter _ Hq). simpl. lia. }
        split; [done |]. intros s2 e2 e [=].
    + eexists s1, (e1 ++ []), todo. split; [done |]. rewrite app_nil_r. split.
      * split.
        { intros Hin. by apply no_done_not_in in Hin. }
        { intros [-> ->]. done. }
      * split; [rewrite (no_done_filter _ Hq); simpl; lia |].
        split; [done |]. intros s2 e2 e [=].
  - simpl. eexists s1, (e1 ++ []), conf_todo. split; [done |]. rewrite app_nil_r. split.
    + split.
      * intros Hin. by apply no_done_not_in in Hin.
      * intros [-> Hf]. done.
    + split; [rewrite (no_done_filter _ Hq); simpl; lia |].
      split; [done |]. intros s2 e2 e' [= <- <- _] _. done.
Qed.

End LocalActiveFacts.

Lemma poll_done_on_transition_witness :
  ∃ s' evs todo,
    poll (ret false) (ret false) (ret false) (ret false) "ha" true (Ok "active"%string) true
      tt []
    = (s', evs, Ok todo)
    ∧ (In (EStatus DONE) evs ↔ true = true ∧ todo = false)
    ∧ (length (List.filter is_done evs) ≤ 1)%nat
    ∧ (todo ≠ true → is_active (Ok "active"%string) = true)
    ∧ (∀ s1 e1 e,
         reconcile (ret false) (ret false) (ret false) (ret false) "ha" true tt []
         = (s1, e1, Raise e) →
         is_active (Ok "active"%string) = true → s' = s1 ∧ evs = e1 ∧ todo = true).
Proof.
  apply (poll_done_on_transition (ret false) (ret false) (ret false) (ret false) "ha" true
           (Ok "active"%string) true tt []);
    intros s h; simpl; constructor.
Defined.

(** * The NICs of the two members *)

Lemma dict_get_elem {V : Type} (k : string) (v : V) (d : list (string * V)) :
  dict_get k d = Some v → (k, v) ∈ d.
Proof.
  induction d as [|[k' v'] d IH]; simpl; [done |].
  destruct (String.eqb_spec k' k) as [-> | Hne].
  - intros [= ->]. apply elem_of_cons. by left.
  - intros Hg. apply elem_of_cons. right. by apply IH.
Qed.

Lemma dict_get_None {V : Type} (k : string) (d : list (string * V)) :
  dict_get k d = None → k ∉ d.*1.
Proof.
  induction d as [|[k' v'] d IH]; simpl.
  - intros _. apply not_elem_of_nil.
  - destruct (String.eqb_spec k' k) as [-> | Hne]; [done |].
    intros Hg. apply not_elem_of_cons. split; [done | by apply IH].
Qed.

Lemma dict_set_elem {V : Type} (k k' : string) (v v' : V) (d : list (string * V)) :
  (k, v) ∈ dict_set k' v' d → (k, v) = (k', v') ∨ (k, v) ∈ d.
Proof.
  induction d as [|[k0 v0] d IH]; simpl.
  - intros Hin. apply list_elem_of_singleton in Hin. by left.
  - destruct (String.eqb_spec k0 k') as [-> | Hne].
    + intros [Hin | Hin]%elem_of_cons; [by left |].
      right. apply elem_of_cons. by right.
    + intros [Hin | Hin]%elem_of_cons.
      * right. apply elem_of_cons. by left.
      * destruct (IH Hin) as [? | ?]; [by left |]. right. apply elem_of_cons. by right.
Qed.

Lemma dict_set_keys {V : Type} (k k' : string) (v' : V) (d : list (string * V)) :
  k = k' ∨ k ∈ d.*1 → k ∈ (dict_set k' v' d).*1.
Proof.
  induction d as [|[k0 v0] d IH]; simpl.
  - intros [-> | Hin]; [apply list_elem_of_singleton; done | by apply elem_of_nil in Hin].
  - destruct (String.eqb_spec k0 k') as [-> | Hne]; simpl.
    + intros [-> | Hin]; [apply elem_of_cons; by left | done].
    + intros [-> | [-> | Hin]%elem_of_cons].
      * apply elem_of_cons. right. apply IH. by left.
      * apply elem_of_cons. by left.
      * apply elem_of_cons. right. apply IH. by right.
Qed.

Lemma dict_fold_elem {V : Type} (k : string) (v : V) (pairs d : list (string * V)) :
  (k, v) ∈ fold_left (λ d kv, dict_set kv.1 kv.2 d) pairs d → (k, v) ∈ pairs ∨ (k, v) ∈ d.
Proof.
  revert d. induction pairs as [|[k' v'] pairs IH]; intros d; simpl; [by right |].
  intros Hin. destruct (IH _ Hin) as [Hp | Hd].
  - left. apply elem_of_cons. by right.
  - destruct (dict_set_elem _ _ _ _ _ Hd) as [-> | ?]; [| by right].
    left. apply elem_of_cons. by left.
Qed.

Lemma dict_fold_keys {V : Type} (k : string) (pairs d : list (string * V)) :
  k ∈ pairs.*1 ∨ k ∈ d.*1 → k ∈ (fold_left (λ d kv, dict_set kv.1 kv.2 d) pairs d).*1.
Proof.
  revert d. induction pairs as [|[k' v'] pairs IH]; intros d; simpl.
  - intros [Hin | Hin]; [by apply elem_of_nil in Hin | done].
  - intros [[-> | Hin]%elem_of_cons | Hin]; apply IH.
    + right. apply dict_set_keys. by left.
    + by left.
    + right. apply dict_set_keys. by right.
Qed.

(** What the dictionary of the lowered ids holds. *)
Lemma all_nics_found (value : heap) (k : string) (ref : nat) :
  dict_get k (dict_of (map (λ kv : string * nat, (PyStr.lower kv.1, kv.2))
                         (dict_of (imap (λ i nic, (r_id nic, i)) value)))) = Some ref →
  ∃ nic, value !! ref = Some nic ∧ PyStr.lower (r_id nic) = k.
Proof.
  intros Hg. apply dict_get_elem in Hg. unfold dict_of in Hg at 1.
  apply dict_fold_elem in Hg as [Hg | Hg]; [| by apply elem_of_nil in Hg].
  apply list_elem_of_fmap in Hg as ([k0 i] & [= -> ->] & Hin). simpl.
  unfold dict_of in Hin. apply dict_fold_elem in Hin as [Hin | Hin]; [| by apply elem_of_nil in Hin].
  apply elem_of_lookup_imap in Hin as (j & nic & [= -> ->] & Hj).
  by exists nic.
Qed.

Lemma all_nics_missing (value : heap) (k : string) :
  dict_get k (dict_of (map (λ kv : string * nat, (PyStr.lower kv.1, kv.2))
                         (dict_of (imap (λ i nic, (r_id nic, i)) value)))) = None →
  ∀ nic, nic ∈ value → PyStr.lower (r_id nic) ≠ k.
Proof.
  intros Hg nic Hnic Hk. apply dict_get_None in Hg. apply Hg. clear Hg.
  unfold dict_of at 1. apply dict_fold_keys. left.
  assert (Hkey : r_id nic ∈ (dict_of (imap (λ i nic, (r_id nic, i)) value)).*1).
  { unfold dict_of. apply dict_fold_keys. left.
    apply list_elem_of_lookup_1 in Hnic as [i Hi].
    apply list_elem_of_fmap. exists (r_id nic, i). split; [done |].
    apply elem_of_lookup_imap. by exists i, nic. }
  apply list_elem_of_fmap in Hkey as ([k0 i] & Hk0 & Hin). simpl in Hk0. subst k0.
  apply list_elem_of_fmap. exists (PyStr.lower (r_id nic), i). split; [done |].
  apply list_elem_of_fmap. by exists (r_id nic, i).
Qed.

(** X25.  [get_vm_nics] matches the NIC ids of each VM against the ids of
    the listed NICs without regard to letter case: when it returns, it
    gives for each VM, in order, one listed NIC for each of its NIC entries
    in their order, whose id equals the entry's id up to letter case; it
    raises [KeyError] only when some entry has no listed NIC with such an
    id. *)
Theorem get_vm_nics_matches_ignoring_case (value : heap) (vms : list vm) :
  match get_vm_nics value vms with
  | Ok l =>
      Forall2 (λ v refs,
                 Forall2 (λ (ni : string * option bool) ref,
                            ∃ nic, value !! ref = Some nic
                                   ∧ PyStr.lower (r_id nic) = PyStr.lower ni.1)
                   (vm_networkInterfaces v) refs) vms l
  | Raise e =>
      e = PyError "KeyError"
      ∧ ∃ v ni, v ∈ vms ∧ ni ∈ vm_networkInterfaces v
                ∧ ∀ nic, nic ∈ value → PyStr.lower (r_id nic) ≠ PyStr.lower ni.1
  end.
Proof.
  unfold get_vm_nics.
  set (d := dict_of (map _ (dict_of (imap _ value)))).
  cbv zeta.
  set (lookup_all := λ nis : list (string * option bool),
         fold_right
           (λ (ni : string * option bool) (acc : result (list nat)),
              match dict_get (PyStr.lower ni.1) d, acc with
              | None, _ => Raise (PyError "KeyError")
              | Some ref, Ok refs => Ok (ref :: refs)
              | Some _, Raise e => Raise e
              end)
           (Ok []) nis).
  assert (Hone : ∀ nis,
             match lookup_all nis with
             | Ok refs =>
                 Forall2 (λ (ni : string * option bool) ref,
                            ∃ nic, value !! ref = Some nic
                                   ∧ PyStr.lower (r_id nic) = PyStr.lower ni.1) nis refs
             | Raise e =>
                 e = PyError "KeyError"
                 ∧ ∃ ni, ni ∈ nis
                         ∧ ∀ nic, nic ∈ value → PyStr.lower (r_id nic) ≠ PyStr.lower ni.1
             end).
  { induction nis as [|ni nis IH]; [constructor |].
    unfold lookup_all in *. cbn [fold_right].
    destruct (dict_get (PyStr.lower ni.1) d) as [ref|] eqn:Hg.
    - destruct (fold_right _ _ nis) as [refs | e].
      + constructor; [by apply all_nics_found | done].
      + destruct IH as (-> & ni' & Hin & Hni). split; [done |].
        exists ni'. split; [apply elem_of_cons; by right | done].
    - split; [done |]. exists ni. split; [apply elem_of_cons; by left |].
      by apply all_nics_missing. }
  clearbody lookup_all.
  induction vms as [|v vms IH]; [constructor |].
  cbn [fold_right]. specialize (Hone (vm_networkInterfaces v)).
  destruct (lookup_all (vm_networkInterfaces v)) as [refs | e].
  - destruct (fold_right _ _ vms) as [l | e].
    + by constructor.
    + destruct IH as (-> & v' & ni & Hv & Hrest). split; [done |].
      exists v', ni. split; [apply elem_of_cons; by right | done].
  - destruct Hone as (-> & ni & Hin & Hni). split; [done |].
    exists v, ni. split; [apply elem_of_cons; by left | done].
Qed.
